(** * Endpoint usage tracker: a shallow embedding and its verified properties

    The development follows the TypeScript sources of the tracker
    ([EndpointUsageTracker]) and of the scheduled reporter
    ([AutomaticReporter]).

    Modelling conventions.
    - JavaScript strings are [string]s of 8-bit characters; [toUpperCase]
      is the ASCII one.
    - A Redis hash is a [gmap string Z]: field names are the strings the
      code builds, field values are the integers the code stores as decimal
      text (timestamps, counters, sums of integer samples), so that
      [parseInt]/[parseFloat] of a stored field is the stored integer.
    - Derived JavaScript numbers (averages, rates, percentages) are
      [number]s: exact rationals extended with NaN and the infinities.
    - The wall clock is an input: every function that calls [Date.now()]
      or [new Date()] takes the instant it reads as an argument. *)

From Stdlib Require Import ZArith QArith Qcanon Qround Lia Ascii String.
From stdpp Require Import gmap strings list fin_maps pretty sorting.

Local Open Scope string_scope.
Local Open Scope Z_scope.

(** ** JavaScript strings *)

Module JsString.

Definition code (c : ascii) : N := N_of_ascii c.

(** The regular-expression class [\d]. *)
Definition isDigit (c : ascii) : bool :=
  ((48 <=? code c) && (code c <=? 57))%N.

(** The regular-expression class [[a-f0-9-]]. *)
Definition isUuidChar (c : ascii) : bool :=
  (((97 <=? code c) && (code c <=? 102)) || isDigit c || (code c =? 45))%N.

Definition upperChar (c : ascii) : ascii :=
  if ((97 <=? code c) && (code c <=? 122))%N
  then ascii_of_N (code c - 32) else c.

(** [s.toUpperCase()] *)
Fixpoint toUpperCase (s : string) : string :=
  match s with
  | EmptyString => EmptyString
  | String c t => String (upperChar c) (toUpperCase t)
  end.

(** [s.split(sep)] for a one-character separator: the list of pieces,
    never empty. *)
Fixpoint split (sep : ascii) (s : string) : list string :=
  match s with
  | EmptyString => [EmptyString]
  | String c t =>
      if Ascii.eqb c sep then EmptyString :: split sep t
      else match split sep t with
           | p :: ps => String c p :: ps
           | [] => [String c EmptyString]
           end
  end.

(** [s.split(sep, limit)]: the first [limit] pieces. *)
Definition splitLimit (sep : ascii) (limit : nat) (s : string) : list string :=
  take limit (split sep s).

(** [s.startsWith(p)], returning the remainder after the prefix. *)
Fixpoint stripPrefix (p s : string) : option string :=
  match p, s with
  | EmptyString, _ => Some s
  | String a p', String b s' =>
      if Ascii.eqb a b then stripPrefix p' s' else None
  | String _ _, EmptyString => None
  end.

Definition startsWith (s p : string) : bool :=
  match stripPrefix p s with Some _ => true | None => false end.

(** [s.replace(pat, repl)] with a string pattern: only the first
    occurrence is replaced. *)
Fixpoint replaceFirst (pat repl s : string) : string :=
  match stripPrefix pat s with
  | Some rest => repl +:+ rest
  | None =>
      match s with
      | EmptyString => EmptyString
      | String c t => String c (replaceFirst pat repl t)
      end
  end.

(** [s.replace(/re/g, repl)].  The regular expression is given by its
    anchored matcher [re]: [re s = Some n] when the expression matches a
    prefix of [s] of length [n] (the greedy one), [None] when it does not
    match at the start of [s].  The scan goes left to right; after a
    match of length [S n] the replacement is emitted and the next [n]
    characters are skipped ([skip] counts them down).  Both expressions
    used by the tracker consume at least one character. *)
Fixpoint replaceAll (re : string → option nat) (repl : string)
    (skip : nat) (s : string) : string :=
  match s with
  | EmptyString => EmptyString
  | String c t =>
      match skip with
      | S k => replaceAll re repl k t
      | O =>
          match re s with
          | Some (S n) => repl +:+ replaceAll re repl n t
          | _ => String c (replaceAll re repl 0 t)
          end
      end
  end.

(** Length of the longest prefix of [s] made of characters in [cls]. *)
Fixpoint span (cls : ascii → bool) (s : string) : nat :=
  match s with
  | String c t => if cls c then S (span cls t) else O
  | EmptyString => O
  end.

(** [/\/\d+/]: a slash followed by one or more digits, greedy. *)
Definition reSlashDigits (s : string) : option nat :=
  match s with
  | String c t =>
      if Ascii.eqb c "/"
      then match span isDigit t with
           | O => None
           | S n => Some (S (S n))
           end
      else None
  | EmptyString => None
  end.

(** [/\/[a-f0-9-]{36}/]: a slash followed by exactly 36 characters of
    the class. *)
Definition reSlashUuid (s : string) : option nat :=
  match s with
  | String c t =>
      if Ascii.eqb c "/" && (36 <=? span isUuidChar t)%nat
      then Some 37%nat else None
  | EmptyString => None
  end.

End JsString.

Import JsString.

(** ** Configuration *)

Record PerformanceTracking := {
  perfEnabled : bool;
  slowThresholdMs : Z
}.

Record EndpointUsageConfig := {
  keyPrefix : string;
  trackingEnabled : bool;
  excludePaths : list string;
  includeQueryParams : bool;
  performanceTracking : PerformanceTracking
}.

(** ** Endpoint key normalisation *)

(** The path part of [normalizeEndpoint]: query stripping, then the two
    global replacements, in the order of the source. *)
Definition normalizePath (cfg : EndpointUsageConfig) (path : string) : string :=
  let path :=
    if negb (includeQueryParams cfg)
    then default EmptyString (head (split "?" path))
    else path in
  let path := replaceAll reSlashDigits "/:id" 0 path in
  let path := replaceAll reSlashUuid "/:uuid" 0 path in
  path.

Definition normalizeEndpoint (cfg : EndpointUsageConfig)
    (method path : string) : string :=
  toUpperCase method +:+ ":" +:+ normalizePath cfg path.

(** ** JavaScript numbers *)

(** A derived JavaScript number: an exact rational (kept in lowest terms),
    NaN or an infinity.  Rounding errors of the binary representation and
    the sign of zero are not modelled. *)
Inductive number :=
| Num (q : Q)
| NaN
| PosInf
| NegInf.

Module JsNumber.

Definition ofZ (z : Z) : number := Num (inject_Z z).

Definition isZero (q : Q) : bool := Z.eqb (Qnum q) 0.
Definition isPos (q : Q) : bool := Z.ltb 0 (Qnum q).

(** [a / b] *)
Definition div (a b : number) : number :=
  match a, b with
  | Num x, Num y =>
      if isZero y
      then (if isZero x then NaN else if isPos x then PosInf else NegInf)
      else Num (Qred (x / y))
  | NaN, _ | _, NaN => NaN
  | Num _, (PosInf | NegInf) => Num 0
  | (PosInf | NegInf), (PosInf | NegInf) => NaN
  | PosInf, Num y => if isPos y || isZero y then PosInf else NegInf
  | NegInf, Num y => if isPos y || isZero y then NegInf else PosInf
  end.

(** [a * b] *)
Definition mul (a b : number) : number :=
  match a, b with
  | Num x, Num y => Num (Qred (x * y))
  | NaN, _ | _, NaN => NaN
  | Num x, PosInf | PosInf, Num x =>
      if isZero x then NaN else if isPos x then PosInf else NegInf
  | Num x, NegInf | NegInf, Num x =>
      if isZero x then NaN else if isPos x then NegInf else PosInf
  | PosInf, PosInf | NegInf, NegInf => PosInf
  | PosInf, NegInf | NegInf, PosInf => NegInf
  end.

(** [a + b] *)
Definition add (a b : number) : number :=
  match a, b with
  | Num x, Num y => Num (Qred (x + y))
  | NaN, _ | _, NaN => NaN
  | PosInf, NegInf | NegInf, PosInf => NaN
  | PosInf, _ | _, PosInf => PosInf
  | NegInf, _ | _, NegInf => NegInf
  end.

(** [Math.round(a)]: the nearest integer, halves rounded up. *)
Definition round (a : number) : number :=
  match a with
  | Num x => ofZ (Qfloor (x + (1 # 2)))
  | other => other
  end.

(** [a > b] *)
Definition gtb (a b : number) : bool :=
  match a, b with
  | Num x, Num y => negb (Qle_bool x y)
  | NaN, _ | _, NaN => false
  | PosInf, PosInf | NegInf, NegInf => false
  | PosInf, _ | _, NegInf => true
  | _, PosInf | NegInf, _ => false
  end.

(** [a || 0] on a possibly undefined number. *)
Definition orZero (a : option number) : number :=
  match a with
  | Some NaN | None => Num 0
  | Some other => other
  end.

End JsNumber.

(** [array.sort(cmp)]: a stable sort; [cmp a b <= 0] keeps [a] before [b]. *)
Module JsArray.
Section Sort.
Context {A : Type} (cmp : A → A → Z).

Fixpoint insert (x : A) (l : list A) : list A :=
  match l with
  | [] => [x]
  | y :: l' => if cmp x y <=? 0 then x :: y :: l' else y :: insert x l'
  end.

Definition sort (l : list A) : list A := foldr insert [] l.
End Sort.
End JsArray.

(** ** Data model *)

Module UsageData.
Record t := {
  timestamp : Z;
  method : string;
  path : string;
  statusCode : Z;
  responseTime : option Z;
  userAgent : option string;
  ip : option string;
  memoryUsage : option Z;
  cpuUsage : option Z
}.
End UsageData.

Module PerformanceMetrics.
Record t := {
  p50ResponseTime : option Z;
  p95ResponseTime : option Z;
  p99ResponseTime : option Z;
  slowRequestCount : Z;
  errorRate : number;
  throughput : Z;
  memoryUsage : Z;
  cpuUsage : Z
}.
End PerformanceMetrics.

Module EndpointStats.
(** [path] is [None] when the destructured piece is [undefined];
    [averageResponseTime] is [None] when the property is [undefined];
    dates are instants in milliseconds. *)
Record t := {
  path : option string;
  method : string;
  count : Z;
  lastAccessed : Z;
  firstAccessed : Z;
  averageResponseTime : option number;
  statusCodes : gmap string Z;
  performance : option PerformanceMetrics.t
}.
End EndpointStats.

(** A JavaScript truthiness test on an optional number: [undefined] and
    [0] are falsy. *)
Definition truthy (x : option Z) : option Z :=
  match x with
  | Some v => if v =? 0 then None else Some v
  | None => None
  end.

(** ** The key-value store *)

(** The store with its clock.  [expiry] holds the time to live, in
    seconds, that the last [expire] gave a key; [deadline] the instant of the
    store's clock, in milliseconds, after which the key is gone; [clock] the
    instant the store's clock shows. *)
Record Redis := {
  hashes : gmap string (gmap string Z);
  lists : gmap string (list UsageData.t);
  expiry : gmap string Z;
  deadline : gmap string Z;
  clock : Z
}.

Definition emptyRedis : Redis :=
  {| hashes := ∅; lists := ∅; expiry := ∅; deadline := ∅; clock := 0 |}.

Inductive Command :=
| hincrby (key field : string) (n : Z)
| hincrbyfloat (key field : string) (x : Z)
| hsetnx (key field : string) (v : Z)
| hset (key field : string) (v : Z)
| hdel (key : string) (fields : list string)
| lpush (key : string) (v : UsageData.t)
| expire (key : string) (seconds : Z).

(** [hgetall key]: the empty object for a missing key. *)
Definition hgetall (r : Redis) (key : string) : gmap string Z :=
  default ∅ (hashes r !! key).

(** Storing a hash; a hash without fields does not exist in the store,
    and a key that is gone has no time to live any more. *)
Definition setHash (r : Redis) (key : string) (h : gmap string Z) : Redis :=
  {| hashes := if decide (h = ∅) then delete key (hashes r) else <[key := h]> (hashes r);
     lists := lists r;
     expiry := if decide (h = ∅) then delete key (expiry r) else expiry r;
     deadline := if decide (h = ∅) then delete key (deadline r) else deadline r;
     clock := clock r |}.

(** One command against the store.  [expire] gives an existing key its
    time to live, counted from the instant the store's clock shows; the
    store drops the key when that time is up ([advance] below). *)
Definition exec (r : Redis) (c : Command) : Redis :=
  match c with
  | hincrby key field n =>
      let h := hgetall r key in
      setHash r key (<[field := default 0 (h !! field) + n]> h)
  | hincrbyfloat key field x =>
      let h := hgetall r key in
      setHash r key (<[field := default 0 (h !! field) + x]> h)
  | hsetnx key field v =>
      let h := hgetall r key in
      match h !! field with
      | Some _ => r
      | None => setHash r key (<[field := v]> h)
      end
  | hset key field v =>
      setHash r key (<[field := v]> (hgetall r key))
  | hdel key fields =>
      setHash r key (foldr delete (hgetall r key) fields)
  | lpush key v =>
      {| hashes := hashes r;
         lists := <[key := v :: default [] (lists r !! key)]> (lists r);
         expiry := expiry r;
         deadline := deadline r;
         clock := clock r |}
  | expire key seconds =>
      if bool_decide (is_Some (hashes r !! key) ∨ is_Some (lists r !! key))
      then {| hashes := hashes r; lists := lists r;
              expiry := <[key := seconds]> (expiry r);
              deadline := <[key := clock r + seconds * 1000]> (deadline r);
              clock := clock r |}
      else r
  end.

(** The key has not run out of time at the instant [t]: the store drops a
    key once its clock is past the key's deadline. *)
Definition alive (t : Z) (r : Redis) (key : string) : bool :=
  match deadline r !! key with
  | Some d => negb (d <? t)
  | None => true
  end.

(** The store once its clock shows [t]: the keys whose time is up are
    gone. *)
Definition advance (t : Z) (r : Redis) : Redis :=
  {| hashes := filter (λ kv, alive t r kv.1 = true) (hashes r);
     lists := filter (λ kv, alive t r kv.1 = true) (lists r);
     expiry := filter (λ kv, alive t r kv.1 = true) (expiry r);
     deadline := filter (λ kv, alive t r kv.1 = true) (deadline r);
     clock := t |}.

(** [pipeline.exec()]: the queued commands, in order, as one batch. *)
Definition pipelineExec (r : Redis) (pipeline : list Command) : Redis :=
  foldl exec r pipeline.

(** The glob patterns of [redis.keys], as the store matches them: [*]
    for any run of characters, [?] for any one character, a bracket
    expression with ranges and a leading [^] for its complement, and a
    backslash before a character taken literally. *)
Module Glob.

Definition backslash : ascii := ascii_of_nat 92.

(** The pattern after a run of [*]. *)
Fixpoint skipStars (p : string) : string :=
  match p with
  | String "*" p' => skipStars p'
  | _ => p
  end.

(** [c] lies between the two ends of a range, given in either order. *)
Definition inRange (a b c : ascii) : bool :=
  (N.min (code a) (code b) <=? code c)%N && (code c <=? N.max (code a) (code b))%N.

(** The body of a bracket expression against the character [c]: whether
    an item matches, and the pattern after the closing bracket.  A body
    that the pattern ends in the middle of runs to the end of the
    pattern. *)
Fixpoint classScan (p : string) (c : ascii) (matched : bool) : bool * string :=
  match p with
  | EmptyString => (matched, EmptyString)
  | String x p1 =>
      match p1 with
      | String y p2 =>
          if Ascii.eqb x backslash then classScan p2 c (matched || Ascii.eqb y c)
          else if Ascii.eqb x "]" then (matched, p1)
          else match p2 with
               | String z p3 =>
                   if Ascii.eqb y "-" then classScan p3 c (matched || inRange x z c)
                   else classScan p1 c (matched || Ascii.eqb x c)
               | EmptyString => classScan p1 c (matched || Ascii.eqb x c)
               end
      | EmptyString =>
          if Ascii.eqb x "]" then (matched, p1)
          else classScan p1 c (matched || Ascii.eqb x c)
      end
  end.

(** The pattern [p] against the text [s]; [fuel] bounds the length of the
    pattern.  Against the empty text only the empty pattern matches; once
    the text is used up, what is left of the pattern may only be [*]. *)
Fixpoint matchFrom (fuel : nat) (p s : string) : bool :=
  match fuel, s with
  | O, _ => false
  | S _, EmptyString => bool_decide (p = EmptyString)
  | S fuel, String c s' =>
      let next (p' : string) : bool :=
        match s' with
        | EmptyString => bool_decide (skipStars p' = EmptyString)
        | String _ _ => matchFrom fuel p' s'
        end in
      match p with
      | EmptyString => false
      | String x p1 =>
          if Ascii.eqb x "*" then
            let rest := skipStars p1 in
            if bool_decide (rest = EmptyString) then true
            else (fix try (t : string) : bool :=
                    match t with
                    | EmptyString => false
                    | String _ t' => matchFrom fuel rest t || try t'
                    end) s
          else if Ascii.eqb x "?" then next p1
          else if Ascii.eqb x "[" then
            let complement := if p1 is String "^" _ then true else false in
            let body := if p1 is String "^" p2 then p2 else p1 in
            let '(matched, rest) := classScan body c false in
            if xorb complement matched then next rest else false
          else if Ascii.eqb x backslash then
            match p1 with
            | String y p2 => if Ascii.eqb y c then next p2 else false
            | EmptyString => if Ascii.eqb x c then next p1 else false
            end
          else if Ascii.eqb x c then next p1 else false
      end
  end.

(** [*] alone lists every key. *)
Definition globMatch (p s : string) : bool :=
  if bool_decide (p = "*") then true else matchFrom (S (String.length p)) p s.

(** The characters with a meaning of their own in a pattern. *)
Definition special (c : ascii) : bool :=
  Ascii.eqb c "*" || Ascii.eqb c "?" || Ascii.eqb c "[" || Ascii.eqb c backslash.

(** No character of [s] has a meaning of its own in a pattern. *)
Fixpoint plain (s : string) : bool :=
  match s with
  | EmptyString => true
  | String c t => negb (special c) && plain t
  end.

End Glob.

(** The pattern given to [redis.keys]: a glob pattern, or, for the
    listings, a key prefix followed by [*]; the key prefix of the
    configuration is taken to be plain text. *)
Inductive Pattern :=
| Glob (pattern : string)
| Prefix (p : string).

Definition matches (pat : Pattern) (key : string) : bool :=
  match pat with
  | Glob pattern => Glob.globMatch pattern key
  | Prefix p => startsWith key p
  end.

Definition keys (r : Redis) (pat : Pattern) : list string :=
  filter (λ k, matches pat k = true) (elements (dom (hashes r) ∪ dom (lists r))).

(** [parseInt(s)] on decimal text: an optional sign and the longest run of
    digits; [None] is NaN.  (Leading blanks and the hexadecimal prefix are
    not modelled: the tracker only parses the decimal text it wrote.) *)
Module ParseInt.
Fixpoint digits (acc : option Z) (s : string) : option Z :=
  match s with
  | String c t =>
      if isDigit c
      then digits (Some (10 * default 0 acc + Z.of_N (code c - 48))) t
      else acc
  | EmptyString => acc
  end.

Definition parseInt (s : string) : option Z :=
  match s with
  | String "-" t => Z.opp <$> digits None t
  | String "+" t => digits None t
  | _ => digits None s
  end.
End ParseInt.

Import ParseInt.

(** A [Date] is the instant it holds, in milliseconds, or [None] for an
    Invalid Date; a comparison with an Invalid Date is false. *)
Module JsDate.
Definition ltb (a b : option Z) : bool :=
  match a, b with
  | Some x, Some y => x <? y
  | _, _ => false
  end.

Definition leb (a b : option Z) : bool :=
  match a, b with
  | Some x, Some y => x <=? y
  | _, _ => false
  end.
End JsDate.

(** ** The tracker: write path *)

Section Tracker.

(** [new Date(ms).toISOString().split('T')[0]]: the UTC calendar date of
    an instant, as [YYYY-MM-DD]. *)
Variable isoDate : Z → string.

Variable cfg : EndpointUsageConfig.

Definition shouldTrackPath (path : string) : bool :=
  if negb (trackingEnabled cfg) then false
  else negb (existsb (λ excludePath, startsWith path excludePath) (excludePaths cfg)).

(** The pipeline queued by [updateDailyStats]; [today] is the instant read
    by its [new Date()]. *)
Definition dailyPipeline (today : Z) (endpoint : string) (data : UsageData.t)
    : list Command :=
  let dailyKey := keyPrefix cfg +:+ ":daily:" +:+ isoDate today +:+ ":" +:+ endpoint in
  [ hincrby dailyKey "count" 1;
    hincrby dailyKey ("status_" +:+ pretty (UsageData.statusCode data)) 1;
    hsetnx dailyKey "first_accessed" (UsageData.timestamp data);
    hset dailyKey "last_accessed" (UsageData.timestamp data) ]
  ++ match truthy (UsageData.responseTime data) with
     | Some responseTime =>
         [ hincrbyfloat dailyKey "total_response_time" responseTime;
           hincrby dailyKey "response_count" 1 ]
     | None => []
     end
  ++ [ expire dailyKey (90 * 24 * 60 * 60) ].

Definition updateDailyStats (today : Z) (endpoint : string) (data : UsageData.t)
    (r : Redis) : Redis :=
  pipelineExec r (dailyPipeline today endpoint data).

Definition countersPipeline (endpoint : string) (data : UsageData.t)
    : list Command :=
  let globalKey := keyPrefix cfg +:+ ":global:" +:+ endpoint in
  [ hincrby globalKey "count" 1;
    hsetnx globalKey "first_accessed" (UsageData.timestamp data);
    hset globalKey "last_accessed" (UsageData.timestamp data);
    hincrby globalKey ("status_" +:+ pretty (UsageData.statusCode data)) 1 ]
  ++ match truthy (UsageData.responseTime data) with
     | Some responseTime =>
         [ hincrbyfloat globalKey "total_response_time" responseTime;
           hincrby globalKey "response_count" 1 ]
     | None => []
     end.

Definition updateCounters (endpoint : string) (data : UsageData.t)
    (r : Redis) : Redis :=
  pipelineExec r (countersPipeline endpoint data).

Definition performancePipeline (endpoint : string) (data : UsageData.t)
    : list Command :=
  let perfKey := keyPrefix cfg +:+ ":performance:" +:+ endpoint in
  [ hincrby perfKey "total_requests" 1;
    hsetnx perfKey "first_accessed" (UsageData.timestamp data);
    hset perfKey "last_accessed" (UsageData.timestamp data) ]
  ++ match truthy (UsageData.responseTime data) with
     | Some responseTime =>
         [ hincrbyfloat perfKey "total_response_time" responseTime;
           hincrby perfKey "response_count" 1 ]
         ++ (if slowThresholdMs (performanceTracking cfg) <? responseTime
             then [ hincrby perfKey "slow_requests" 1 ] else [])
     | None => []
     end
  ++ (if 400 <=? UsageData.statusCode data
      then [ hincrby perfKey "error_requests" 1 ] else [])
  ++ match truthy (UsageData.memoryUsage data) with
     | Some memoryUsage =>
         [ hincrbyfloat perfKey "total_memory" memoryUsage;
           hincrby perfKey "memory_count" 1 ]
     | None => []
     end
  ++ match truthy (UsageData.cpuUsage data) with
     | Some cpuUsage =>
         [ hincrbyfloat perfKey "total_cpu" cpuUsage;
           hincrby perfKey "cpu_count" 1 ]
     | None => []
     end
  ++ (let minuteKey := UsageData.timestamp data / 60000 * 60000 in
      [ hincrby perfKey ("throughput_" +:+ pretty minuteKey) 1 ])
  ++ [ expire perfKey (90 * 24 * 60 * 60) ].

(** The field names [cleanupOldThroughputData] deletes. *)
Definition fieldsToDelete (data : gmap string Z) (currentTimestamp : Z)
    : list string :=
  let oneHourAgo := currentTimestamp - 60 * 60 * 1000 in
  filter (λ key,
            match parseInt (replaceFirst "throughput_" "" key) with
            | Some timestamp => timestamp <? oneHourAgo
            | None => false
            end = true)
    (filter (λ key, startsWith key "throughput_" = true)
       (elements (dom data))).

Definition cleanupOldThroughputData (perfKey : string) (currentTimestamp : Z)
    (r : Redis) : Redis :=
  let fields := fieldsToDelete (hgetall r perfKey) currentTimestamp in
  if (0 <? length fields)%nat then exec r (hdel perfKey fields) else r.

Definition updatePerformanceStats (endpoint : string) (data : UsageData.t)
    (r : Redis) : Redis :=
  if negb (perfEnabled (performanceTracking cfg)) then r
  else
    let perfKey := keyPrefix cfg +:+ ":performance:" +:+ endpoint in
    let r := pipelineExec r (performancePipeline endpoint data) in
    cleanupOldThroughputData perfKey (UsageData.timestamp data) r.

(** What the caller of [trackUsage] supplies: a [UsageData] without its
    timestamp. *)
Definition stamp (usageData : UsageData.t) (timestamp : Z) : UsageData.t :=
  {| UsageData.timestamp := timestamp;
     UsageData.method := UsageData.method usageData;
     UsageData.path := UsageData.path usageData;
     UsageData.statusCode := UsageData.statusCode usageData;
     UsageData.responseTime := UsageData.responseTime usageData;
     UsageData.userAgent := UsageData.userAgent usageData;
     UsageData.ip := UsageData.ip usageData;
     UsageData.memoryUsage := UsageData.memoryUsage usageData;
     UsageData.cpuUsage := UsageData.cpuUsage usageData |}.

(** [trackUsage]; [now] is the instant read by [Date.now()], [today] the
    one read later by [updateDailyStats]. *)
Definition trackUsage (now today : Z) (usageData : UsageData.t) (r : Redis)
    : Redis :=
  if negb (shouldTrackPath (UsageData.path usageData)) then r
  else
    let timestamp := now in
    let normalizedEndpoint :=
      normalizeEndpoint cfg (UsageData.method usageData) (UsageData.path usageData) in
    let data := stamp usageData timestamp in
    let rawKey := keyPrefix cfg +:+ ":raw:" +:+ normalizedEndpoint in
    let r := exec r (lpush rawKey data) in
    let r := exec r (expire rawKey (30 * 24 * 60 * 60)) in
    let r := updateDailyStats today normalizedEndpoint data r in
    let r := updateCounters normalizedEndpoint data r in
    updatePerformanceStats normalizedEndpoint data r.

(** ** The tracker: read path *)

(** [calculatePercentile]; [None] is the [undefined] of an index past the
    end of the array. *)
Definition calculatePercentile (values : list Z) (percentile : Z) : option Z :=
  if (length values =? 0)%nat then Some 0
  else
    let sorted := JsArray.sort (λ a b, a - b) values in
    let index :=
      Qceiling (inject_Z percentile / 100 * inject_Z (Z.of_nat (length sorted))) - 1 in
    sorted !! Z.to_nat (Z.max 0 index).

(** The two pieces bound by [const [a, b] = endpoint.split(':', 2)]. *)
Definition splitEndpoint (endpoint : string) : string * option string :=
  let pieces := splitLimit ":" 2 endpoint in
  (default EmptyString (pieces !! 0%nat), pieces !! 1%nat).

(** The body of the loop of [getPerformanceStats] for one key; [None]
    when the iteration is skipped. *)
Definition performanceStatsOf (r : Redis) (key : string) : option EndpointStats.t :=
  let data := hgetall r key in
  if decide (data = ∅) then None
  else
    let endpoint := replaceFirst (keyPrefix cfg +:+ ":performance:") "" key in
    let '(endpointMethod, endpointPath) := splitEndpoint endpoint in
    let rawKey := keyPrefix cfg +:+ ":raw:" +:+ endpoint in
    let rawData := default [] (lists r !! rawKey) in
    let responseTimes := omap (λ item, truthy (UsageData.responseTime item)) rawData in
    let totalRequests := default 0 (data !! "total_requests") in
    let slowRequests := default 0 (data !! "slow_requests") in
    let errorRequests := default 0 (data !! "error_requests") in
    let performance :=
      {| PerformanceMetrics.p50ResponseTime := calculatePercentile responseTimes 50;
         PerformanceMetrics.p95ResponseTime := calculatePercentile responseTimes 95;
         PerformanceMetrics.p99ResponseTime := calculatePercentile responseTimes 99;
         PerformanceMetrics.slowRequestCount := slowRequests;
         PerformanceMetrics.errorRate :=
           if 0 <? totalRequests
           then JsNumber.div (JsNumber.ofZ errorRequests) (JsNumber.ofZ totalRequests)
           else JsNumber.ofZ 0;
         PerformanceMetrics.throughput := default 0 (data !! "throughput");
         PerformanceMetrics.memoryUsage := default 0 (data !! "avg_memory");
         PerformanceMetrics.cpuUsage := default 0 (data !! "avg_cpu") |} in
    Some {| EndpointStats.path := endpointPath;
            EndpointStats.method := endpointMethod;
            EndpointStats.count := totalRequests;
            EndpointStats.lastAccessed := default 0 (data !! "last_accessed");
            EndpointStats.firstAccessed := default 0 (data !! "first_accessed");
            EndpointStats.averageResponseTime :=
              Some (JsNumber.ofZ (default 0 (data !! "avg_response_time")));
            EndpointStats.statusCodes := ∅;
            EndpointStats.performance := Some performance |}.

(** [method && path ? exact key : prefix + '*'] *)
Definition keyPattern (family : string) (method path : option string) : Pattern :=
  match method, path with
  | Some m, Some p =>
      if bool_decide (m ≠ EmptyString ∧ p ≠ EmptyString)
      then Glob (keyPrefix cfg +:+ family +:+ normalizeEndpoint cfg m p)
      else Prefix (keyPrefix cfg +:+ family)
  | _, _ => Prefix (keyPrefix cfg +:+ family)
  end.

Definition p95OrZero (stat : EndpointStats.t) : Z :=
  default 0 (truthy (EndpointStats.performance stat
                       ≫= PerformanceMetrics.p95ResponseTime)).

Definition getPerformanceStats (method path : option string) (r : Redis)
    : list EndpointStats.t :=
  let stats := omap (performanceStatsOf r) (keys r (keyPattern ":performance:" method path)) in
  JsArray.sort (λ a b, p95OrZero b - p95OrZero a) stats.

(** The [statusCodes] object built from the [status_*] fields. *)
Definition statusCodesOf (data : gmap string Z) : gmap string Z :=
  list_to_map
    (omap (λ '(field, v),
             if startsWith field "status_"
             then Some (replaceFirst "status_" "" field, v) else None)
       (map_to_list data)).

(** The body of the loop of [getEndpointStats] for one key. *)
Definition endpointStatsOf (r : Redis) (key : string) : option EndpointStats.t :=
  let data := hgetall r key in
  if decide (data = ∅) then None
  else
    let endpoint := replaceFirst (keyPrefix cfg +:+ ":global:") "" key in
    let '(endpointMethod, endpointPath) := splitEndpoint endpoint in
    let statusCodes := statusCodesOf data in
    let responseCount := default 0 (data !! "response_count") in
    let totalResponseTime := default 0 (data !! "total_response_time") in
    Some {| EndpointStats.path := endpointPath;
            EndpointStats.method := endpointMethod;
            EndpointStats.count := default 0 (data !! "count");
            EndpointStats.lastAccessed := default 0 (data !! "last_accessed");
            EndpointStats.firstAccessed := default 0 (data !! "first_accessed");
            EndpointStats.averageResponseTime :=
              if 0 <? responseCount
              then Some (JsNumber.div (JsNumber.ofZ totalResponseTime)
                           (JsNumber.ofZ responseCount))
              else None;
            EndpointStats.statusCodes := statusCodes;
            EndpointStats.performance := None |}.

Definition getEndpointStats (method path : option string) (r : Redis)
    : list EndpointStats.t :=
  let stats := omap (endpointStatsOf r) (keys r (keyPattern ":global:" method path)) in
  JsArray.sort (λ a b, EndpointStats.count b - EndpointStats.count a) stats.

(** [d.setDate(d.getDate() - days)] on a [Date] holding the instant
    [now]: the instant at the same local time of day [days] calendar days
    earlier, in the time zone of the process, or [None] when the result
    is an Invalid Date. *)
Variable daysBefore : Z → Z → option Z.

(** [getUnusedEndpoints]; [now] is the instant read by [new Date()]. *)
Definition getUnusedEndpoints (now daysThreshold : Z) (r : Redis)
    : list EndpointStats.t :=
  let allStats := getEndpointStats None None r in
  let thresholdDate := daysBefore now daysThreshold in
  filter (λ stat, JsDate.ltb (Some (EndpointStats.lastAccessed stat)) thresholdDate = true)
    allStats.

End Tracker.

(** ** Route discovery and the scheduled reporter *)

Module RouteInfo.
Record t := {
  method : string;
  path : string;
  middleware : list string;
  handler : string
}.
End RouteInfo.

Record PerformanceAlerts := {
  alertsEnabled : bool;
  slowEndpointThresholdMs : Z;
  errorRateThreshold : Q;
  throughputDropThreshold : Q
}.

Record Webhook := { url : string; headers : list (string * string) }.
Record Slack := { webhookUrl : string; channel : option string }.
Record Email := { from : string; to : list string; subject : string }.

Record Notifications := {
  webhook : option Webhook;
  email : option Email;
  slack : option Slack
}.

Record HtmlReport := { htmlEnabled : bool; outputPath : option string }.

Record ReportConfig := {
  enabled : bool;
  intervalHours : Z;
  daysThreshold : Z;
  performanceAlerts : option PerformanceAlerts;
  notifications : Notifications;
  htmlReport : option HtmlReport
}.

Module UnusedEndpoint.
(** A [RouteInfo] extended with [daysSinceLastUse] and [totalRequests]. *)
Record t := {
  route : RouteInfo.t;
  daysSinceLastUse : Z;
  totalRequests : Z
}.
End UnusedEndpoint.

Module SlowEndpoint.
(** [path] is copied from the stats and may be [undefined]. *)
Record t := {
  method : string;
  path : option string;
  middleware : list string;
  handler : string;
  averageResponseTime : number;
  p95ResponseTime : Z
}.
End SlowEndpoint.

Module HighErrorRateEndpoint.
Record t := {
  method : string;
  path : option string;
  middleware : list string;
  handler : string;
  errorRate : number;
  totalRequests : Z
}.
End HighErrorRateEndpoint.

Module Summary.
Record t := {
  totalRoutes : Z;
  activeRoutes : Z;
  unusedRoutes : Z;
  unusedPercentage : number;
  averageResponseTime : number;
  slowEndpoints : Z;
  highErrorRateEndpoints : Z
}.
End Summary.

(** The clock readings of one tick of the reporter, in the order in which
    they are taken: by the two [new Date()] at the start of
    [generateReport], in [findUnusedRoutes], by the two [new Date()] at
    the start of [getDashboardData], by [Date.now()] for each unused route
    in turn (by its position in the list) when the days since its last
    use are computed, when the report is put together, and when the HTML
    report is named. *)
Record ReportClock := {
  atEndDate : Z;
  atStartDate : Z;
  atRoutes : Z;
  atWindowEnd : Z;
  atWindowStart : Z;
  atDetails : nat → Z;
  atGenerated : Z;
  atHtml : Z
}.

Module UsageReport.
(** The report, without its texts ([recommendations]). *)
Record t := {
  generatedAt : Z;
  timeRange : option Z * Z;
  summary : Summary.t;
  unusedEndpoints : list UnusedEndpoint.t;
  topUnusedEndpoints : list UnusedEndpoint.t;
  slowEndpoints : list SlowEndpoint.t;
  highErrorRateEndpoints : list HighErrorRateEndpoint.t
}.
End UsageReport.

Module RouteUsage.
(** The object returned by [RouteDiscovery.generateUsageReport]. *)
Record t := {
  total : Z;
  used : Z;
  unused : Z;
  unusedRoutes : list RouteInfo.t;
  usageStats : list EndpointStats.t
}.
End RouteUsage.

(** What a tick does to the outside world. *)
Inductive Effect :=
| ConsoleLog (msg : string)
| ConsoleError (msg : string)
| FetchPost (url : string).

Inductive FetchResult :=
| Responded (ok : bool)
| Rejected.

Section Reporter.

Variable trackerCfg : EndpointUsageConfig.

(** [setDate(getDate() - days)], as for the tracker. *)
Variable daysBefore : Z → Z → option Z.

Variable config : ReportConfig.

(** The values of the [discoveredRoutes] map, in insertion order, when
    [findUnusedRoutes] goes through them. *)
Variable discoveredRoutes : list RouteInfo.t.

(** The values of the same map when [generateUsageReport] reads its size,
    after a further awaited read of the store: the registration of the
    discovered routes is not awaited and may still be adding routes. *)
Variable discoveredLater : list RouteInfo.t.

(** The outcome of a POST to a URL. *)
Variable fetch : string → FetchResult.

Definition statKey (stat : EndpointStats.t) : string :=
  EndpointStats.method stat +:+ ":" +:+ default "undefined" (EndpointStats.path stat).

Definition findUnusedRoutes (now daysThreshold : Z) (r : Redis) : list RouteInfo.t :=
  let allStats := getEndpointStats trackerCfg None None r in
  let statsMap : gmap string EndpointStats.t :=
    list_to_map (reverse (map (λ stat, (statKey stat, stat)) allStats)) in
  let thresholdDate := daysBefore now daysThreshold in
  filter (λ route,
            match statsMap !! (RouteInfo.method route +:+ ":" +:+ RouteInfo.path route) with
            | None => true
            | Some stats =>
                JsDate.ltb (Some (EndpointStats.lastAccessed stats)) thresholdDate
            end = true)
    discoveredRoutes.

(** [generateUsageReport]: the unused routes come from the map as
    [findUnusedRoutes] saw it, the total from its size as read
    afterwards. *)
Definition generateUsageReport (now daysThreshold : Z) (r : Redis) : RouteUsage.t :=
  let unusedRoutes := findUnusedRoutes now daysThreshold r in
  let allStats := getEndpointStats trackerCfg None None r in
  {| RouteUsage.total := Z.of_nat (length discoveredLater);
     RouteUsage.used := Z.of_nat (length discoveredLater) - Z.of_nat (length unusedRoutes);
     RouteUsage.unused := Z.of_nat (length unusedRoutes);
     RouteUsage.unusedRoutes := unusedRoutes;
     RouteUsage.usageStats := allStats |}.

(** [getDashboardData(days).performance.averageResponseTime]; [now] and
    [nowStart] are the instants read by the two [new Date()] of
    [getDashboardData]. *)
Definition dashboardAverageResponseTime (now nowStart days : Z) (r : Redis) : number :=
  let endDate := now in
  let startDate := daysBefore nowStart days in
  let allStats := getEndpointStats trackerCfg None None r in
  let recentStats :=
    filter (λ stat,
              JsDate.leb startDate (Some (EndpointStats.lastAccessed stat))
              && JsDate.leb (Some (EndpointStats.lastAccessed stat)) (Some endDate) = true)
      allStats in
  let totalRequests := foldl (λ sum stat, sum + EndpointStats.count stat) 0 recentStats in
  let totalResponseTime :=
    foldl (λ sum stat,
             JsNumber.add sum
               (JsNumber.mul (JsNumber.orZero (EndpointStats.averageResponseTime stat))
                  (JsNumber.ofZ (EndpointStats.count stat))))
      (JsNumber.ofZ 0) recentStats in
  if 0 <? totalRequests
  then JsNumber.div totalResponseTime (JsNumber.ofZ totalRequests)
  else JsNumber.ofZ 0.

(** [x || fallback] on an integer option of the configuration. *)
Definition orElse (x : option Z) (fallback : Z) : Z := default fallback (truthy x).

(** [generateReport]; [clock] holds the clock readings of the
    generation. *)
Definition generateReport (clock : ReportClock) (r : Redis) : UsageReport.t :=
  let endDate := atEndDate clock in
  let startDate := daysBefore (atStartDate clock) (daysThreshold config) in
  let usageReport := generateUsageReport (atRoutes clock) (daysThreshold config) r in
  let averageResponseTime :=
    dashboardAverageResponseTime (atWindowEnd clock) (atWindowStart clock)
      (daysThreshold config) r in
  let performanceStats := getPerformanceStats trackerCfg None None r in
  let unusedWithDetails :=
    imap (λ i route,
           let stats :=
             find (λ s, bool_decide (EndpointStats.method s = RouteInfo.method route
                                     ∧ EndpointStats.path s = Some (RouteInfo.path route)))
               (RouteUsage.usageStats usageReport) in
           {| UnusedEndpoint.route := route;
              UnusedEndpoint.daysSinceLastUse :=
                match stats with
                | Some stats =>
                    (atDetails clock i - EndpointStats.lastAccessed stats)
                    / (1000 * 60 * 60 * 24)
                | None => daysThreshold config + 1
                end;
              UnusedEndpoint.totalRequests :=
                match stats with
                | Some stats => EndpointStats.count stats
                | None => 0
                end |})
      (RouteUsage.unusedRoutes usageReport) in
  let slowThreshold :=
    orElse (slowEndpointThresholdMs <$> performanceAlerts config) 2000 in
  let errorRateThreshold :=
    match performanceAlerts config with
    | Some alerts => if JsNumber.isZero (errorRateThreshold alerts) then 5 # 100
                     else errorRateThreshold alerts
    | None => 5 # 100
    end in
  let slowEndpoints :=
    map (λ stat,
           {| SlowEndpoint.method := EndpointStats.method stat;
              SlowEndpoint.path := EndpointStats.path stat;
              SlowEndpoint.middleware := [];
              SlowEndpoint.handler := "unknown";
              SlowEndpoint.averageResponseTime :=
                JsNumber.orZero (EndpointStats.averageResponseTime stat);
              SlowEndpoint.p95ResponseTime := p95OrZero stat |})
      (filter (λ stat,
                 JsNumber.gtb (JsNumber.orZero (EndpointStats.averageResponseTime stat))
                   (JsNumber.ofZ slowThreshold) = true)
         performanceStats) in
  let errorRateOf (stat : EndpointStats.t) : number :=
    JsNumber.orZero (PerformanceMetrics.errorRate <$> EndpointStats.performance stat) in
  let highErrorRateEndpoints :=
    map (λ stat,
           {| HighErrorRateEndpoint.method := EndpointStats.method stat;
              HighErrorRateEndpoint.path := EndpointStats.path stat;
              HighErrorRateEndpoint.middleware := [];
              HighErrorRateEndpoint.handler := "unknown";
              HighErrorRateEndpoint.errorRate := errorRateOf stat;
              HighErrorRateEndpoint.totalRequests := EndpointStats.count stat |})
      (filter (λ stat, JsNumber.gtb (errorRateOf stat) (Num errorRateThreshold) = true)
         performanceStats) in
  (* [unusedWithDetails.sort(...)] sorts the array in place, and
     [unusedEndpoints] is that same array. *)
  let sortedUnused :=
    JsArray.sort (λ a b, UnusedEndpoint.daysSinceLastUse b - UnusedEndpoint.daysSinceLastUse a)
      unusedWithDetails in
  {| UsageReport.generatedAt := atGenerated clock;
     UsageReport.timeRange := (startDate, endDate);
     UsageReport.summary :=
       {| Summary.totalRoutes := RouteUsage.total usageReport;
          Summary.activeRoutes := RouteUsage.used usageReport;
          Summary.unusedRoutes := RouteUsage.unused usageReport;
          Summary.unusedPercentage :=
            JsNumber.round
              (JsNumber.mul
                 (JsNumber.div (JsNumber.ofZ (RouteUsage.unused usageReport))
                    (JsNumber.ofZ (RouteUsage.total usageReport)))
                 (JsNumber.ofZ 100));
          Summary.averageResponseTime := averageResponseTime;
          Summary.slowEndpoints := Z.of_nat (length slowEndpoints);
          Summary.highErrorRateEndpoints := Z.of_nat (length highErrorRateEndpoints) |};
     UsageReport.unusedEndpoints := sortedUnused;
     UsageReport.topUnusedEndpoints := take 10 sortedUnused;
     UsageReport.slowEndpoints := take 10 slowEndpoints;
     UsageReport.highErrorRateEndpoints := take 10 highErrorRateEndpoints |}.

(** An asynchronous call runs until it first waits and is resumed later:
    its effects are those it has at once, when it is called, and those
    it has once it is resumed. *)
Definition postAndCheck (target failure : string) : list Effect * list Effect :=
  ([FetchPost target],
   match fetch target with
   | Responded true => []
   | Responded false | Rejected => [ConsoleError failure]
   end).

Definition sendWebhookNotification (report : UsageReport.t)
    : list Effect * list Effect :=
  match webhook (notifications config) with
  | None => ([], [])
  | Some webhook => postAndCheck (url webhook) "Webhook notification failed:"
  end.

Definition sendSlackNotification (report : UsageReport.t)
    : list Effect * list Effect :=
  match slack (notifications config) with
  | None => ([], [])
  | Some slack => postAndCheck (webhookUrl slack) "Slack notification failed:"
  end.

Definition sendEmailNotification (report : UsageReport.t)
    : list Effect * list Effect :=
  ([ConsoleLog "Email notification placeholder - implement with nodemailer"], []).

(** [sendNotifications]: the channels are started one after the other,
    each up to its first wait, and all awaited; a failing channel only
    logs, when its answer is there (the failures are put in the order of
    the channels). *)
Definition sendNotifications (report : UsageReport.t) : list Effect :=
  let started :=
    ((if webhook (notifications config) is Some _
      then [sendWebhookNotification report] else [])
     ++ (if slack (notifications config) is Some _
         then [sendSlackNotification report] else [])
     ++ (if email (notifications config) is Some _
         then [sendEmailNotification report] else []))%list in
  (concat (map fst started) ++ concat (map snd started))%list.

Definition generateHtmlReport (now : Z) (report : UsageReport.t) : list Effect :=
  let path :=
    match htmlReport config ≫= outputPath with
    | Some p => if bool_decide (p = EmptyString)
                then "./endpoint-report-" +:+ pretty now +:+ ".html" else p
    | None => "./endpoint-report-" +:+ pretty now +:+ ".html"
    end in
  [ConsoleLog ("HTML report will be saved to " +:+ path)].

(** One tick of the scheduler.  [store] is [None] when the store cannot
    be read, in which case [generateReport] throws and the [catch] logs. *)
Definition generateAndSendReport (clock : ReportClock) (store : option Redis)
    : list Effect :=
  match store with
  | None => [ConsoleError "Error while generating report:"]
  | Some r =>
      let report := generateReport clock r in
      if (length (UsageReport.unusedEndpoints report) =? 0)%nat
      then [ConsoleLog "No unused endpoints found, report not sent."]
      else
        [ConsoleLog (pretty (Z.of_nat (length (UsageReport.unusedEndpoints report)))
                     +:+ " unused endpoints detected.")]
        ++ sendNotifications report
        ++ (if default false (htmlEnabled <$> htmlReport config)
            then generateHtmlReport (atHtml clock) report else [])
  end.

(** The effects that deliver a report: a POST to a channel, the e-mail
    channel, the HTML report. *)
Definition isDelivery (e : Effect) : bool :=
  match e with
  | FetchPost _ => true
  | ConsoleLog msg =>
      bool_decide (msg = "Email notification placeholder - implement with nodemailer")
      || startsWith msg "HTML report will be saved to "
  | ConsoleError _ => false
  end.

End Reporter.

(** ** Further functions of the tracker *)

(** [Math.max(...values)]: minus infinity for no argument. *)
Definition mathMax (values : list Z) : number :=
  match values with
  | [] => NegInf
  | x :: rest => JsNumber.ofZ (foldl Z.max x rest)
  end.

Module DashboardData.
Record t := {
  totalRequests : Z;
  uniqueEndpoints : Z;
  mostUsedEndpoints : list EndpointStats.t;
  leastUsedEndpoints : list EndpointStats.t;
  unusedEndpoints : list EndpointStats.t;
  slowEndpoints : list EndpointStats.t;
  timeRange : option Z * Z;
  averageResponseTime : number;
  totalSlowRequests : Z;
  averageErrorRate : number;
  peakThroughput : number
}.
End DashboardData.

(** [redis.del(key)] *)
Definition del (r : Redis) (key : string) : Redis :=
  {| hashes := delete key (hashes r);
     lists := delete key (lists r);
     expiry := delete key (expiry r);
     deadline := delete key (deadline r);
     clock := clock r |}.

Section TrackerQueries.

Variable cfg : EndpointUsageConfig.

(** [setDate(getDate() - days)], as for the tracker. *)
Variable daysBefore : Z → Z → option Z.

(** [getSlowEndpoints] *)
Definition getSlowEndpoints (thresholdMs : Z) (r : Redis) : list EndpointStats.t :=
  let allStats := getPerformanceStats cfg None None r in
  filter (λ stat,
            JsNumber.gtb (JsNumber.orZero (EndpointStats.averageResponseTime stat))
              (JsNumber.ofZ thresholdMs)
            || (thresholdMs <? p95OrZero stat) = true)
    allStats.

(** The stats of the dashboard window: last accessed between [days] days
    before [nowStart] and [now]. *)
Definition recentStats (now nowStart days : Z) (r : Redis) : list EndpointStats.t :=
  let endDate := now in
  let startDate := daysBefore nowStart days in
  filter (λ stat,
            JsDate.leb startDate (Some (EndpointStats.lastAccessed stat))
            && JsDate.leb (Some (EndpointStats.lastAccessed stat)) (Some endDate) = true)
    (getEndpointStats cfg None None r).

(** The requests of one stat that ended with a status of 400 or more. *)
Definition errorCount (stat : EndpointStats.t) : Z :=
  foldl (λ errors '(code, n), errors + n) 0
    (filter (λ '(code, n),
               match parseInt code with
               | Some c => 400 <=? c
               | None => false
               end = true)
       (map_to_list (EndpointStats.statusCodes stat))).

(** [getDashboardData]; [now] and [nowStart] are the instants read by its
    two [new Date()], for the end and for the start of the window, and
    [nowUnused] the one read later by [getUnusedEndpoints], after two
    awaited reads of the store. *)
Definition getDashboardData (now nowStart nowUnused days : Z) (r : Redis)
    : DashboardData.t :=
  let endDate := now in
  let startDate := daysBefore nowStart days in
  let recentStats := recentStats now nowStart days r in
  let totalRequests := foldl (λ sum stat, sum + EndpointStats.count stat) 0 recentStats in
  let sortedByUsage :=
    JsArray.sort (λ a b, EndpointStats.count b - EndpointStats.count a) recentStats in
  let unusedEndpoints := getUnusedEndpoints cfg daysBefore nowUnused days r in
  let slowEndpoints := getSlowEndpoints 1000 r in
  let totalSlowRequests :=
    foldl (λ sum stat,
             sum + default 0 (PerformanceMetrics.slowRequestCount
                              <$> EndpointStats.performance stat))
      0 recentStats in
  let totalErrors := foldl (λ sum stat, sum + errorCount stat) 0 recentStats in
  let averageErrorRate :=
    if 0 <? totalRequests
    then JsNumber.div (JsNumber.ofZ totalErrors) (JsNumber.ofZ totalRequests)
    else JsNumber.ofZ 0 in
  let peakThroughput :=
    mathMax (map (λ stat, default 0 (PerformanceMetrics.throughput
                                     <$> EndpointStats.performance stat))
               recentStats) in
  {| DashboardData.totalRequests := totalRequests;
     DashboardData.uniqueEndpoints := Z.of_nat (length recentStats);
     DashboardData.mostUsedEndpoints := take 10 sortedByUsage;
     DashboardData.leastUsedEndpoints :=
       reverse (drop (length sortedByUsage - 10) sortedByUsage);
     DashboardData.unusedEndpoints := unusedEndpoints;
     DashboardData.slowEndpoints := take 10 slowEndpoints;
     DashboardData.timeRange := (startDate, endDate);
     DashboardData.averageResponseTime :=
       dashboardAverageResponseTime cfg daysBefore now nowStart days r;
     DashboardData.totalSlowRequests := totalSlowRequests;
     DashboardData.averageErrorRate := averageErrorRate;
     DashboardData.peakThroughput := peakThroughput |}.

End TrackerQueries.

(** *** The route registry *)

(** The hashes under [routes:] hold text ([method], [path] and the decimal
    text of [discovered_at]); they are kept apart from the numeric
    records. *)
Record RouteRedis := {
  routeHashes : gmap string (gmap string string);
  routeExpiry : gmap string Z;
  routeDeadline : gmap string Z;
  routeClock : Z
}.

Definition emptyRoutes : RouteRedis :=
  {| routeHashes := ∅; routeExpiry := ∅; routeDeadline := ∅; routeClock := 0 |}.

(** [hsetnx] on a text hash. *)
Definition routeHsetnx (key field value : string) (rr : RouteRedis) : RouteRedis :=
  let h := default ∅ (routeHashes rr !! key) in
  match h !! field with
  | Some _ => rr
  | None => {| routeHashes := <[key := <[field := value]> h]> (routeHashes rr);
               routeExpiry := routeExpiry rr;
               routeDeadline := routeDeadline rr;
               routeClock := routeClock rr |}
  end.

Definition routeExpire (key : string) (seconds : Z) (rr : RouteRedis) : RouteRedis :=
  if bool_decide (is_Some (routeHashes rr !! key))
  then {| routeHashes := routeHashes rr;
          routeExpiry := <[key := seconds]> (routeExpiry rr);
          routeDeadline := <[key := routeClock rr + seconds * 1000]> (routeDeadline rr);
          routeClock := routeClock rr |}
  else rr.

(** The routes once the store's clock shows [t], as [advance]. *)
Definition advanceRoutes (t : Z) (rr : RouteRedis) : RouteRedis :=
  let alive (key : string) : bool :=
    match routeDeadline rr !! key with
    | Some d => negb (d <? t)
    | None => true
    end in
  {| routeHashes := filter (λ kv, alive kv.1 = true) (routeHashes rr);
     routeExpiry := filter (λ kv, alive kv.1 = true) (routeExpiry rr);
     routeDeadline := filter (λ kv, alive kv.1 = true) (routeDeadline rr);
     routeClock := t |}.

(** [x || fallback] on a possibly undefined text: the empty text is
    falsy. *)
Definition orText (x : option string) (fallback : string) : string :=
  match x with
  | Some EmptyString | None => fallback
  | Some text => text
  end.

Module RegisteredRoute.
(** [method] and [path] are [None] when the field is missing. *)
Record t := {
  method : option string;
  path : option string;
  discoveredAt : option Z
}.
End RegisteredRoute.

Section Registry.

Variable cfg : EndpointUsageConfig.

(** [setDate(getDate() - days)], as for the tracker. *)
Variable daysBefore : Z → Z → option Z.

(** [registerRoute]; [now] is the instant read by [Date.now()]. *)
Definition registerRoute (now : Z) (method path : string) (rr : RouteRedis)
    : RouteRedis :=
  if negb (shouldTrackPath cfg path) then rr
  else
    let normalizedEndpoint := normalizeEndpoint cfg method path in
    let routeKey := keyPrefix cfg +:+ ":routes:" +:+ normalizedEndpoint in
    let rr := routeHsetnx routeKey "discovered_at" (pretty now) rr in
    let rr := routeHsetnx routeKey "method" (toUpperCase method) rr in
    let rr := routeHsetnx routeKey "path" path rr in
    routeExpire routeKey (365 * 24 * 60 * 60) rr.

(** [getRegisteredRoutes]; [discoveredAt] is [None] for an invalid date. *)
Definition getRegisteredRoutes (rr : RouteRedis) : list RegisteredRoute.t :=
  let pattern := Prefix (keyPrefix cfg +:+ ":routes:") in
  let keys := filter (λ k, matches pattern k = true) (elements (dom (routeHashes rr))) in
  omap (λ key,
          let data := default ∅ (routeHashes rr !! key) in
          if decide (data = ∅) then None
          else Some {| RegisteredRoute.method := data !! "method";
                       RegisteredRoute.path := data !! "path";
                       RegisteredRoute.discoveredAt :=
                         parseInt (orText (data !! "discovered_at") "0") |})
    keys.

(** [new Date(text)] as an instant, [None] for an invalid date; the
    argument is [None] for [undefined]. *)
Variable parseDate : option string → option Z.

(** [clearStats]; [now] is the instant read by [new Date()].  The keys of
    both parts of the store are listed and deleted alike. *)
Definition clearStats (now : Z) (olderThanDays : option Z)
    (store : Redis * RouteRedis) : Redis * RouteRedis :=
  let '(r, rr) := store in
  let allKeys (pattern : Pattern) : list string :=
    (keys r pattern
     ++ filter (λ k, matches pattern k = true) (elements (dom (routeHashes rr))))%list in
  let delAll (store : Redis * RouteRedis) (key : string) : Redis * RouteRedis :=
    (del store.1 key,
     {| routeHashes := delete key (routeHashes store.2);
        routeExpiry := delete key (routeExpiry store.2);
        routeDeadline := delete key (routeDeadline store.2);
        routeClock := routeClock store.2 |}) in
  match truthy olderThanDays with
  | Some olderThanDays =>
      let thresholdDate := daysBefore now olderThanDays in
      let dailyKeys := allKeys (Prefix (keyPrefix cfg +:+ ":daily:")) in
      foldl (λ store key,
               let dateStr := split ":" key !! 2%nat in
               let keyDate := parseDate dateStr in
               if JsDate.ltb keyDate thresholdDate then delAll store key else store)
        store dailyKeys
  | None =>
      let allKeys := allKeys (Prefix (keyPrefix cfg +:+ ":")) in
      if (0 <? length allKeys)%nat then foldl delAll store allKeys else store
  end.

End Registry.

(** ** Further functions of the reporter *)

(** The recommendations of a report, by kind; [render] gives the text. *)
Inductive Recommendation :=
| AllActive
| VeryOld (n : nat)
| NeverUsed (n : nat)
| CleanupRecommended
| Slow (n : nat)
| VerySlow (n : nat)
| HighErrorRate (n : nat).

(** [generateRecommendations] *)
Definition generateRecommendations (unusedEndpoints : list UnusedEndpoint.t)
    (slowEndpoints : list SlowEndpoint.t)
    (highErrorRateEndpoints : list HighErrorRateEndpoint.t) : list Recommendation :=
  ((if (length unusedEndpoints =? 0)%nat then [AllActive]
   else
     (let veryOldEndpoints :=
        filter (λ e, 90 < UnusedEndpoint.daysSinceLastUse e) unusedEndpoints in
      if (0 <? length veryOldEndpoints)%nat then [VeryOld (length veryOldEndpoints)] else [])
     ++ (let neverUsedEndpoints :=
           filter (λ e, UnusedEndpoint.totalRequests e = 0) unusedEndpoints in
         if (0 <? length neverUsedEndpoints)%nat
         then [NeverUsed (length neverUsedEndpoints)] else [])
     ++ (if (5 <? length unusedEndpoints)%nat then [CleanupRecommended] else []))
  ++ (if (0 <? length slowEndpoints)%nat
      then Slow (length slowEndpoints)
           :: (let verySlow :=
                 filter (λ e, JsNumber.gtb (SlowEndpoint.averageResponseTime e)
                                (JsNumber.ofZ 5000) = true) slowEndpoints in
               if (0 <? length verySlow)%nat then [VerySlow (length verySlow)] else [])
      else [])
  ++ (if (0 <? length highErrorRateEndpoints)%nat
      then [HighErrorRate (length highErrorRateEndpoints)] else []))%list.

(** The text pushed for each kind of recommendation. *)
Definition render (recommendation : Recommendation) : string :=
  match recommendation with
  | AllActive => "All endpoints are actively being used. 👍"
  | VeryOld n =>
      pretty n +:+ " endpoints haven't been used for 90+ days. Consider removing them."
  | NeverUsed n =>
      pretty n +:+ " endpoints have never been used. Should be tested or removed."
  | CleanupRecommended => "Many unused endpoints detected. API cleanup recommended."
  | Slow n =>
      pretty n +:+ " endpoints have slow response times. Performance optimization needed."
  | VerySlow n =>
      pretty n +:+ " endpoints take >5s on average. Critical performance issue."
  | HighErrorRate n =>
      pretty n +:+ " endpoints have high error rates. Investigation required."
  end.

(** The colour of the Slack attachment chosen by [formatSlackMessage]. *)
Definition slackColor (summary : Summary.t) : string :=
  if JsNumber.gtb (Summary.unusedPercentage summary) (JsNumber.ofZ 30)
     || (5 <? Summary.slowEndpoints summary)
     || (3 <? Summary.highErrorRateEndpoints summary)
  then "danger"
  else if JsNumber.gtb (Summary.unusedPercentage summary) (JsNumber.ofZ 15)
          || (2 <? Summary.slowEndpoints summary)
          || (1 <? Summary.highErrorRateEndpoints summary)
  then "warning"
  else "good".

(** *** The scheduler *)

(** What [start] and [stop] do besides changing [intervalId]. *)
Inductive SchedulerEvent :=
| Logged (msg : string)
| TickFired
| IntervalSet (milliseconds : Z)
| IntervalCleared (timer : positive).

(** [start]; [timer] is the handle [setInterval] returns. *)
Definition start (config : ReportConfig) (timer : positive)
    (intervalId : option positive) : option positive * list SchedulerEvent :=
  if negb (enabled config) || bool_decide (is_Some intervalId)
  then (intervalId, [])
  else (Some timer,
        [ Logged ("Automatic reporting started. A report will be generated every "
                  +:+ pretty (intervalHours config) +:+ " hours.");
          TickFired;
          IntervalSet (intervalHours config * 60 * 60 * 1000) ]).

(** [stop] *)
Definition stop (intervalId : option positive)
    : option positive * list SchedulerEvent :=
  match intervalId with
  | Some timer => (None, [IntervalCleared timer; Logged "Automatic reporting stopped."])
  | None => (None, [])
  end.

(** *** Route paths of NestJS controllers *)

Module NestJS.
(** [normalizePath] of the NestJS discovery service. *)
Definition normalizePath (controllerPath routePath : string) : string :=
  let controller :=
    if startsWith controllerPath "/" then controllerPath else "/" +:+ controllerPath in
  let route := if startsWith routePath "/" then routePath else "/" +:+ routePath in
  if bool_decide (route = "/")
  then (if bool_decide (controller = "/") then "/" else controller)
  else (if bool_decide (controller = "/") then route else controller +:+ route).
End NestJS.

(** ** Notions used in the statements and proofs *)

(** [s.includes(ch)] *)
Fixpoint hasChar (ch : ascii) (s : string) : bool :=
  match s with
  | EmptyString => false
  | String c t => Ascii.eqb c ch || hasChar ch t
  end.

(** The expression [re] matches nowhere in [s]. *)
Fixpoint noMatch (re : string → option nat) (s : string) : bool :=
  match s with
  | EmptyString => true
  | String c t => (if re s is Some _ then false else true) && noMatch re t
  end.

(** No slash of [s] is followed by a digit; [prevSlash] tells whether the
    character before [s] is a slash. *)
Fixpoint slashDigitFree (prevSlash : bool) (s : string) : bool :=
  match s with
  | EmptyString => true
  | String c t => negb (prevSlash && isDigit c) && slashDigitFree (Ascii.eqb c "/") t
  end.

(** The index of percentile [p] among [n] sorted samples, in the words of
    the specification: [ceil(p/100 * n) - 1], clamped to [[0, n-1]]. *)
Definition percentileIndex (p : Z) (n : nat) : Z :=
  Z.max 0 (Z.min (Z.of_nat n - 1)
             (Qceiling (inject_Z p / 100 * inject_Z (Z.of_nat n)) - 1)).

(** *** A field-level view of the store commands *)

(** The hash a command writes to, if any. *)
Definition hashKey (c : Command) : option string :=
  match c with
  | hincrby k _ _ | hincrbyfloat k _ _ | hsetnx k _ _ | hset k _ _ | hdel k _ => Some k
  | lpush _ _ | expire _ _ => None
  end.

(** What a command does to field [f] of the hash it writes to, as a
    function of the field's value before. *)
Definition fieldStep (c : Command) (f : string) (v : option Z) : option Z :=
  match c with
  | hincrby _ g n | hincrbyfloat _ g n =>
      if decide (g = f) then Some (default 0 v + n) else v
  | hsetnx _ g x => if decide (g = f) then Some (default x v) else v
  | hset _ g x => if decide (g = f) then Some x else v
  | hdel _ gs => if decide (f ∈ gs) then None else v
  | lpush _ _ | expire _ _ => v
  end.

(** What a command does to field [f] of the hash stored at [key]. *)
Definition fieldAfter (c : Command) (key f : string) (v : option Z) : option Z :=
  if decide (hashKey c = Some key) then fieldStep c f v else v.

(** The command names field [f]. *)
Definition mentions (c : Command) (f : string) : bool :=
  match c with
  | hincrby _ g _ | hincrbyfloat _ g _ | hsetnx _ g _ | hset _ g _ => bool_decide (g = f)
  | hdel _ gs => bool_decide (f ∈ gs)
  | lpush _ _ | expire _ _ => false
  end.

(** The request counter and the [*Count] fields of the aggregate records,
    under their stored names. *)
Definition isCounterField (f : string) : bool :=
  bool_decide (f ∈ ["count"; "total_requests"; "response_count"; "slow_requests";
                    "error_requests"; "memory_count"; "cpu_count"])
  || startsWith f "status_".

(** The three pipelines of one [trackUsage] call. *)
Definition callPipelines (isoDate : Z → string) (cfg : EndpointUsageConfig)
    (today : Z) (endpoint : string) (data : UsageData.t) : list Command :=
  dailyPipeline isoDate cfg today endpoint data
  ++ countersPipeline cfg endpoint data
  ++ performancePipeline cfg endpoint data.

(** A sequence of [trackUsage] calls, each with its two clock readings,
    against a store whose clock agrees with the caller's: a tracked call
    finds the store as it is at the instant [now] that the call reads. *)
Definition trackAll (isoDate : Z → string) (cfg : EndpointUsageConfig)
    (calls : list (Z * Z * UsageData.t)) (r : Redis) : Redis :=
  foldl (λ r '(now, today, usageData),
           if shouldTrackPath cfg (UsageData.path usageData)
           then trackUsage isoDate cfg now today usageData (advance now r)
           else r)
    r calls.

(** The key outlives the sequence: it has not run out of time whenever a
    tracked call of the sequence arrives. *)
Fixpoint survives (isoDate : Z → string) (cfg : EndpointUsageConfig)
    (key : string) (calls : list (Z * Z * UsageData.t)) (r : Redis) : bool :=
  match calls with
  | [] => true
  | (now, today, usageData) :: rest =>
      if shouldTrackPath cfg (UsageData.path usageData)
      then alive now r key
           && survives isoDate cfg key rest
                (trackUsage isoDate cfg now today usageData (advance now r))
      else survives isoDate cfg key rest r
  end.

(** Every tracked call of the sequence reads the clock between [lo] and
    [hi]. *)
Definition inWindow (cfg : EndpointUsageConfig) (lo hi : Z)
    (calls : list (Z * Z * UsageData.t)) : Prop :=
  Forall (λ '(now, today, usageData),
            shouldTrackPath cfg (UsageData.path usageData) = true → lo ≤ now ≤ hi)
    calls.

(** The key has no deadline before [hi]. *)
Definition lastsUntil (hi : Z) (r : Redis) (key : string) : Prop :=
  ∀ d, deadline r !! key = Some d → hi ≤ d.

(** The keys of the three aggregate records of an endpoint. *)
Definition globalKey (cfg : EndpointUsageConfig) (endpoint : string) : string :=
  keyPrefix cfg +:+ ":global:" +:+ endpoint.
Definition dailyKey (isoDate : Z → string) (cfg : EndpointUsageConfig)
    (today : Z) (endpoint : string) : string :=
  keyPrefix cfg +:+ ":daily:" +:+ isoDate today +:+ ":" +:+ endpoint.
Definition performanceKey (cfg : EndpointUsageConfig) (endpoint : string) : string :=
  keyPrefix cfg +:+ ":performance:" +:+ endpoint.

(** The shapes of the commands queued by a call stamped [ts]: increments by
    one of fields other than the time stamps and sample sums, the set-once
    and the overwriting time stamp, sums of samples, and time-to-live
    settings. *)
Definition callShape (ts : Z) (c : Command) : Prop :=
  (∃ k g, c = hincrby k g 1
          ∧ g ∉ ["first_accessed"; "last_accessed"; "total_response_time";
                 "total_memory"; "total_cpu"])
  ∨ (∃ k, c = hsetnx k "first_accessed" ts)
  ∨ (∃ k, c = hset k "last_accessed" ts)
  ∨ (∃ k g x, c = hincrbyfloat k g x
              ∧ g ∈ ["total_response_time"; "total_memory"; "total_cpu"])
  ∨ (∃ k n, c = expire k n).

(** Relations between the value of a field before and after a step. *)
Definition counterLe (v v' : option Z) : Prop := default 0 v ≤ default 0 v'.
Definition keepsSet (v v' : option Z) : Prop := ∀ x, v = Some x → v' = Some x.
Definition keepsValue (x : Z) (v v' : option Z) : Prop := v = Some x → v' = Some x.


(** The sum of the throughput buckets kept in a performance record. *)
Definition bucketSum (data : gmap string Z) : Z :=
  foldr Z.add 0
    (omap (λ '(field, v), if startsWith field "throughput_" then Some v else None)
       (map_to_list data)).

(** *** Sample data *)

Definition sampleConfig : EndpointUsageConfig :=
  {| keyPrefix := "endpoint_usage";
     trackingEnabled := true;
     excludePaths := [];
     includeQueryParams := false;
     performanceTracking := {| perfEnabled := true; slowThresholdMs := 1000 |} |}.

(** [setDate(getDate() - days)] in the time zone UTC, which has no clock
    changes: whole days of 86 400 000 ms, within the range of a [Date]. *)
Definition utcDaysBefore (now days : Z) : option Z :=
  let t := now - days * 86400000 in
  if (-8640000000000000 <=? t) && (t <=? 8640000000000000) then Some t else None.

(** A tick all of whose clock readings are the same instant. *)
Definition steadyClock (now : Z) : ReportClock :=
  {| atEndDate := now; atStartDate := now; atRoutes := now;
     atWindowEnd := now; atWindowStart := now; atDetails := λ _, now;
     atGenerated := now; atHtml := now |}.

(** All sample instants fall on this day. *)
Definition sampleDate (instant : Z) : string := "1970-01-01".

Definition sampleRequest (path : string) (responseTime : option Z) : UsageData.t :=
  {| UsageData.timestamp := 0;
     UsageData.method := "GET";
     UsageData.path := path;
     UsageData.statusCode := 200;
     UsageData.responseTime := responseTime;
     UsageData.userAgent := None;
     UsageData.ip := None;
     UsageData.memoryUsage := Some 0;
     UsageData.cpuUsage := Some 0 |}.

(** Three requests to [GET /users/1] taking 100, 200 and 300 ms. *)
Definition sampleCalls : list (Z * Z * UsageData.t) :=
  [ (60000, 60000, sampleRequest "/users/1" (Some 100));
    (70000, 70000, sampleRequest "/users/1" (Some 200));
    (120000, 120000, sampleRequest "/users/1" (Some 300)) ].

Definition sampleStore : Redis :=
  trackAll sampleDate sampleConfig
    [ (60000, 60000, sampleRequest "/users/1" (Some 100));
      (70000, 70000, sampleRequest "/users/1" (Some 200));
      (120000, 120000, sampleRequest "/users/1" (Some 300)) ]
    emptyRedis.


(** One request to [GET /health]. *)
Definition healthStore : Redis :=
  trackUsage sampleDate sampleConfig 60000 60000 (sampleRequest "/health" (Some 5))
    emptyRedis.

(** Two requests whose clock readings go backwards. *)
Definition backwardsStore1 : Redis :=
  trackUsage sampleDate sampleConfig 2000 2000 (sampleRequest "/users/1" (Some 5))
    emptyRedis.
Definition backwardsStore2 : Redis :=
  trackUsage sampleDate sampleConfig 1000 1000 (sampleRequest "/users/1" (Some 5))
    backwardsStore1.

Definition sampleReportConfig : ReportConfig :=
  {| enabled := true;
     intervalHours := 24;
     daysThreshold := 30;
     performanceAlerts := None;
     notifications :=
       {| webhook := Some {| url := "https://example.org/hook"; headers := [] |};
          email := Some {| from := "a@example.org"; to := ["b@example.org"];
                           subject := "report" |};
          slack := Some {| webhookUrl := "https://example.org/slack"; channel := None |} |};
     htmlReport := Some {| htmlEnabled := true; outputPath := None |} |}.

Definition healthRoute : RouteInfo.t :=
  {| RouteInfo.method := "GET"; RouteInfo.path := "/health";
     RouteInfo.middleware := []; RouteInfo.handler := "anonymous" |}.

Definition sampleFetch (target : string) : FetchResult := Responded true.

(** *** Tallies of a sequence of calls *)

(** The key of the raw event list of an endpoint. *)
Definition rawKey (cfg : EndpointUsageConfig) (endpoint : string) : string :=
  keyPrefix cfg +:+ ":raw:" +:+ endpoint.

(** The call is tracked and normalises to [endpoint]. *)
Definition hits (cfg : EndpointUsageConfig) (endpoint : string)
    (usageData : UsageData.t) : bool :=
  shouldTrackPath cfg (UsageData.path usageData)
  && bool_decide (normalizeEndpoint cfg (UsageData.method usageData)
                    (UsageData.path usageData) = endpoint).

(** The requests of a sequence of calls that hit [endpoint], in order. *)
Definition requestsOf (cfg : EndpointUsageConfig) (endpoint : string)
    (calls : list (Z * Z * UsageData.t)) : list UsageData.t :=
  filter (λ usageData, hits cfg endpoint usageData = true) (map snd calls).

(** The response times that count: the truthy ones. *)
Definition measuredTimes (requests : list UsageData.t) : list Z :=
  omap (λ usageData, truthy (UsageData.responseTime usageData)) requests.

Definition sumZ (l : list Z) : Z := foldr Z.add 0 l.

(** The stamped events of the calls that hit [endpoint], in call order. *)
Definition stampedOf (cfg : EndpointUsageConfig) (endpoint : string)
    (calls : list (Z * Z * UsageData.t)) : list UsageData.t :=
  omap (λ '(now, today, usageData),
          if hits cfg endpoint usageData then Some (stamp usageData now) else None)
    calls.

(** The command sets or raises a field of the hash at [key]. *)
Definition writesTo (key : string) (c : Command) : Prop :=
  match c with
  | hincrby k _ _ | hincrbyfloat k _ _ | hsetnx k _ _ | hset k _ _ => k = key
  | hdel _ _ | lpush _ _ | expire _ _ => False
  end.

(** The field that counts the requests of the minute starting at
    [minute]. *)
Definition bucketField (minute : Z) : string := "throughput_" +:+ pretty minute.


(** A route with a parameter. *)
Definition userRoute : RouteInfo.t :=
  {| RouteInfo.method := "GET"; RouteInfo.path := "/users/:id";
     RouteInfo.middleware := []; RouteInfo.handler := "getUser" |}.

(** The key of a registered route. *)
Definition routeKey (cfg : EndpointUsageConfig) (endpoint : string) : string :=
  keyPrefix cfg +:+ ":routes:" +:+ endpoint.

(** The call is tracked, normalises to [endpoint] and is booked on the
    day [date]. *)
Definition hitsOn (isoDate : Z → string) (cfg : EndpointUsageConfig)
    (date endpoint : string) (call : Z * Z * UsageData.t) : bool :=
  let '(now, today, usageData) := call in
  hits cfg endpoint usageData && bool_decide (isoDate today = date).

(** The requests of a sequence of calls that hit [endpoint] and are
    booked on the day [date], in order. *)
Definition requestsOn (isoDate : Z → string) (cfg : EndpointUsageConfig)
    (date endpoint : string) (calls : list (Z * Z * UsageData.t))
    : list UsageData.t :=
  map snd (filter (λ call, hitsOn isoDate cfg date endpoint call = true) calls).

(** ** Properties of the string primitives *)

Lemma upperChar_idem (c : ascii) : upperChar (upperChar c) = upperChar c.
Proof. destruct c as [[] [] [] [] [] [] [] []]; reflexivity. Qed.

Lemma toUpperCase_idem (s : string) : toUpperCase (toUpperCase s) = toUpperCase s.
Proof.
  induction s as [|c t IH]; simpl; [reflexivity|].
  by rewrite upperChar_idem, IH.
Qed.

Lemma append_cons (c : ascii) (t s : string) : String c t +:+ s = String c (t +:+ s).
Proof. reflexivity. Qed.

Lemma append_nil (s : string) : EmptyString +:+ s = s.
Proof. reflexivity. Qed.

Lemma split_nonempty (sep : ascii) (s : string) : split sep s ≠ [].
Proof.
  destruct s as [|c t]; simpl; [discriminate|].
  destruct (Ascii.eqb c sep); [discriminate|].
  destruct (split sep t); discriminate.
Qed.

Lemma split_cons_ne (sep c : ascii) (t : string) :
  Ascii.eqb c sep = false →
  split sep (String c t)
  = String c (default EmptyString (head (split sep t))) :: tail (split sep t).
Proof.
  intros Hc. simpl. rewrite Hc.
  pose proof (split_nonempty sep t) as Hne.
  destruct (split sep t); [contradiction|reflexivity].
Qed.

Lemma split_no_sep (sep : ascii) (s : string) :
  hasChar sep s = false → split sep s = [s].
Proof.
  induction s as [|c t IH]; simpl; [reflexivity|].
  intros [Hc Ht]%orb_false_iff. rewrite Hc, (IH Ht). reflexivity.
Qed.

Lemma split_app_sep (sep : ascii) (a b : string) :
  hasChar sep a = false →
  split sep (a +:+ String sep b) = a :: split sep b.
Proof.
  induction a as [|c t IH]; simpl.
  - intros _. rewrite Ascii.eqb_refl. reflexivity.
  - intros [Hc Ht]%orb_false_iff. rewrite Hc.
    change (String.append t (String sep b)) with (t +:+ String sep b).
    rewrite (IH Ht). reflexivity.
Qed.

(** No piece of a split contains the separator. *)
Lemma split_pieces_no_sep (sep : ascii) (s piece : string) :
  piece ∈ split sep s → hasChar sep piece = false.
Proof.
  revert piece. induction s as [|c t IH]; intros piece; simpl.
  - intros ->%list_elem_of_singleton. reflexivity.
  - destruct (Ascii.eqb c sep) eqn:Hc.
    + intros [->|Hin]%elem_of_cons; [reflexivity|by apply IH].
    + pose proof (split_nonempty sep t) as Hne.
      destruct (split sep t) as [|p ps]; [contradiction|].
      intros [->|Hin]%elem_of_cons.
      * simpl. rewrite Hc. apply IH. left.
      * apply IH. by right.
Qed.

(** The first piece of a split is the text before the first separator. *)
Lemma split_head_prefix (sep : ascii) (s : string) :
  hasChar sep s = true →
  ∃ rest, s = default EmptyString (head (split sep s)) +:+ String sep rest.
Proof.
  induction s as [|c t IH]; simpl; [discriminate|].
  destruct (Ascii.eqb c sep) eqn:Hc.
  - intros _. apply Ascii.eqb_eq in Hc as ->. by exists t.
  - simpl. intros Ht. destruct (IH Ht) as [rest Hrest]. exists rest.
    pose proof (split_nonempty sep t) as Hne.
    destruct (split sep t) as [|p ps]; [contradiction|].
    simpl in *. by rewrite Hrest at 1.
Qed.

Lemma stripPrefix_app (p s : string) : stripPrefix p (p +:+ s) = Some s.
Proof.
  induction p as [|c t IH]; simpl; [by destruct s|].
  by rewrite Ascii.eqb_refl.
Qed.

Lemma replaceFirst_unfold (pat repl s : string) :
  replaceFirst pat repl s
  = match stripPrefix pat s with
    | Some rest => repl +:+ rest
    | None =>
        match s with
        | EmptyString => EmptyString
        | String c t => String c (replaceFirst pat repl t)
        end
    end.
Proof. destruct s; reflexivity. Qed.

Lemma replaceFirst_prefix (p s : string) : replaceFirst p "" (p +:+ s) = s.
Proof. rewrite replaceFirst_unfold, stripPrefix_app. reflexivity. Qed.

Lemma startsWith_app (p s : string) : startsWith (p +:+ s) p = true.
Proof. unfold startsWith. by rewrite stripPrefix_app. Qed.

Lemma hasChar_app (ch : ascii) (a b : string) :
  hasChar ch (a +:+ b) = hasChar ch a || hasChar ch b.
Proof.
  induction a as [|c t IH]; simpl; [reflexivity|].
  change (String.append t b) with (t +:+ b). by rewrite IH, orb_assoc.
Qed.

Lemma replaceAll_hasChar (ch : ascii) (re : string → option nat) (repl s : string)
    (skip : nat) :
  hasChar ch repl = false → hasChar ch s = false →
  hasChar ch (replaceAll re repl skip s) = false.
Proof.
  intros Hrepl. revert skip. induction s as [|c t IH]; intros skip; simpl; [done|].
  intros [Hc Ht]%orb_false_iff.
  destruct skip as [|k]; [|by apply IH].
  destruct (re (String c t)) as [[|n]|]; simpl.
  - rewrite Hc. by apply IH.
  - rewrite hasChar_app, Hrepl. by apply IH.
  - rewrite Hc. by apply IH.
Qed.

Lemma replaceAll_noMatch (re : string → option nat) (repl s : string) :
  noMatch re s = true → replaceAll re repl 0 s = s.
Proof.
  induction s as [|c t IH]; [reflexivity|].
  cbn [noMatch replaceAll]. intros [Hre Ht]%andb_true_iff.
  destruct (re (String c t)); [discriminate|]. by rewrite (IH Ht).
Qed.

(** ** Normalisation: the two global replacements *)

Lemma slashDigitFree_weaken (b : bool) (s : string) :
  slashDigitFree b s = true → slashDigitFree false s = true.
Proof.
  destruct s as [|c t]; [done|]. simpl.
  intros [_ Ht]%andb_true_iff. exact Ht.
Qed.

Lemma span_zero_head (cls : ascii → bool) (c : ascii) (t : string) :
  span cls (String c t) = O → cls c = false.
Proof. simpl. by destruct (cls c). Qed.

(** After the digit replacement no slash is followed by a digit.  The first
    part covers the scan resuming after a match, when exactly the digits of
    the match are skipped. *)
Lemma replaceAll_digits_free (s : string) :
  (∀ b, slashDigitFree b (replaceAll reSlashDigits "/:id" (span isDigit s) s) = true)
  ∧ slashDigitFree false (replaceAll reSlashDigits "/:id" 0 s) = true.
Proof.
  induction s as [|c t [IHskip IHscan]]; [done|].
  assert (Hstep : ∀ b, isDigit c = false →
            slashDigitFree b (replaceAll reSlashDigits "/:id" 0 (String c t)) = true).
  { intros b Hc. cbn [replaceAll reSlashDigits].
    destruct (Ascii.eqb c "/") eqn:Hslash.
    - destruct (span isDigit t) as [|n] eqn:Hspan.
      + cbn [slashDigitFree]. rewrite Hc, andb_false_r, Hslash. apply IHskip.
      + rewrite !append_cons, append_nil. destruct b; cbn; apply IHskip.
    - cbn [slashDigitFree]. rewrite Hc, andb_false_r, Hslash. apply IHscan. }
  split.
  - intros b. cbn [span]. destruct (isDigit c) eqn:Hc.
    + cbn [replaceAll]. apply IHskip.
    + by apply Hstep.
  - destruct (isDigit c) eqn:Hc; [|by apply Hstep].
    assert (Hs : Ascii.eqb c "/" = false).
    { destruct (Ascii.eqb_spec c "/") as [->|]; [discriminate Hc|done]. }
    cbn [replaceAll reSlashDigits]. rewrite Hs.
    cbn [slashDigitFree]. rewrite Hs. apply IHscan.
Qed.

Lemma slashDigitFree_noMatch (b : bool) (s : string) :
  slashDigitFree b s = true → noMatch reSlashDigits s = true.
Proof.
  revert b. induction s as [|c t IH]; intros b; [done|].
  cbn [slashDigitFree noMatch reSlashDigits].
  intros [_ Ht]%andb_true_iff. rewrite (IH _ Ht), andb_true_r.
  destruct (Ascii.eqb c "/"); [|done].
  destruct t as [|d t']; [done|]. cbn in Ht |- *.
  destruct (isDigit d); [discriminate|done].
Qed.

(** The UUID replacement does not bring a digit behind a slash. *)
Lemma replaceAll_uuid_digits_free (s : string) (skip : nat) (b : bool) :
  slashDigitFree b s = true →
  slashDigitFree (match skip with O => b | S _ => false end)
    (replaceAll reSlashUuid "/:uuid" skip s) = true.
Proof.
  revert skip b. induction s as [|c t IH]; intros skip b; [by destruct skip|].
  cbn [slashDigitFree]. intros [Hc Ht]%andb_true_iff.
  destruct skip as [|k]; cbn [replaceAll].
  - destruct (reSlashUuid (String c t)) as [[|n]|] eqn:Hre.
    + cbn [slashDigitFree]. rewrite Hc. apply (IH 0%nat _ Ht).
    + cbn in Hre. destruct (Ascii.eqb c "/" && _)%bool; [|discriminate].
      injection Hre as <-.
      pose proof (IH 36%nat _ Ht) as H36. cbn beta iota in H36.
      rewrite !append_cons, append_nil. destruct b; cbn; exact H36.
    + cbn [slashDigitFree]. rewrite Hc. apply (IH 0%nat _ Ht).
  - pose proof (IH k _ (slashDigitFree_weaken _ _ Ht)) as Hk.
    by destruct k.
Qed.

Lemma replaceAll_uuid_span (s : string) :
  span isUuidChar (replaceAll reSlashUuid "/:uuid" 0 s) = span isUuidChar s.
Proof.
  induction s as [|c t IH]; [done|].
  cbn [replaceAll reSlashUuid span].
  destruct (isUuidChar c) eqn:Hc.
  - assert (Ascii.eqb c "/" = false) as ->.
    { destruct (Ascii.eqb_spec c "/") as [->|]; [discriminate Hc|done]. }
    cbn. by rewrite Hc, IH.
  - destruct (Ascii.eqb c "/" && _)%bool; [by rewrite !append_cons|].
    cbn. by rewrite Hc.
Qed.

(** After the UUID replacement the expression matches nowhere. *)
Lemma replaceAll_uuid_noMatch (s : string) (skip : nat) :
  noMatch reSlashUuid (replaceAll reSlashUuid "/:uuid" skip s) = true.
Proof.
  revert skip. induction s as [|c t IH]; intros skip; [done|].
  destruct skip as [|k]; cbn [replaceAll]; [|apply IH].
  cbn [reSlashUuid].
  destruct (Ascii.eqb c "/") eqn:Hslash; cbn [andb].
  - destruct (36 <=? span isUuidChar t)%nat eqn:Hspan.
    + rewrite !append_cons, append_nil. cbn. apply IH.
    + cbn [noMatch reSlashUuid]. rewrite Hslash, replaceAll_uuid_span, Hspan.
      cbn. apply IH.
  - cbn [noMatch reSlashUuid]. rewrite Hslash. cbn. apply IH.
Qed.

Lemma stripQuery_no_query (s : string) :
  hasChar "?" (default EmptyString (head (split "?" s))) = false.
Proof.
  pose proof (split_nonempty "?" s) as Hne.
  destruct (split "?" s) as [|p ps] eqn:E; [contradiction|].
  apply (split_pieces_no_sep "?" s). rewrite E. left.
Qed.

Lemma normalizePath_idem (cfg : EndpointUsageConfig) (path : string) :
  normalizePath cfg (normalizePath cfg path) = normalizePath cfg path.
Proof.
  unfold normalizePath.
  set (q := if negb (includeQueryParams cfg)
            then default EmptyString (head (split "?" path)) else path).
  set (d := replaceAll reSlashDigits "/:id" 0 q).
  set (u := replaceAll reSlashUuid "/:uuid" 0 d).
  assert (Hq : (if negb (includeQueryParams cfg)
                then default EmptyString (head (split "?" u)) else u) = u).
  { destruct (includeQueryParams cfg); [done|]. cbn [negb].
    rewrite split_no_sep; [done|].
    subst u d q. cbn [negb].
    do 2 (apply replaceAll_hasChar; [done|]).
    apply stripQuery_no_query. }
  rewrite Hq.
  assert (Hd : slashDigitFree false u = true).
  { subst u. apply (replaceAll_uuid_digits_free d 0 false).
    subst d. apply replaceAll_digits_free. }
  rewrite (replaceAll_noMatch reSlashDigits) by (by eapply slashDigitFree_noMatch).
  apply replaceAll_noMatch, replaceAll_uuid_noMatch.
Qed.

(** ** Sorting *)

Section SortFacts.
Context {A : Type} (cmp : A → A → Z).

Lemma insert_perm (x : A) (l : list A) : JsArray.insert cmp x l ≡ₚ x :: l.
Proof.
  induction l as [|y l IH]; simpl; [done|].
  destruct (cmp x y <=? 0); [done|].
  rewrite IH. apply Permutation_swap.
Qed.

Lemma sort_perm (l : list A) : JsArray.sort cmp l ≡ₚ l.
Proof.
  induction l as [|x l IH]; simpl; [done|].
  by rewrite insert_perm, IH.
Qed.

Lemma sort_length (l : list A) : length (JsArray.sort cmp l) = length l.
Proof. by rewrite sort_perm. Qed.

Lemma sort_elem_of (x : A) (l : list A) : x ∈ JsArray.sort cmp l ↔ x ∈ l.
Proof. by rewrite sort_perm. Qed.

End SortFacts.

Lemma insert_ascending (x : Z) (l : list Z) :
  Sorted Z.le l → Sorted Z.le (JsArray.insert (λ a b, a - b) x l).
Proof.
  induction 1 as [|y l Hl IH Hy]; simpl.
  - by repeat constructor.
  - destruct (x - y <=? 0) eqn:Hxy.
    + apply Z.leb_le in Hxy. constructor; [by constructor|]. constructor. lia.
    + apply Z.leb_gt in Hxy. constructor; [exact IH|].
      destruct Hy as [|z l Hz]; simpl.
      * constructor. lia.
      * destruct (x - z <=? 0); constructor; lia.
Qed.

Lemma sort_ascending (l : list Z) : Sorted Z.le (JsArray.sort (λ a b, a - b) l).
Proof.
  induction l as [|x l IH]; simpl; [constructor|].
  by apply insert_ascending.
Qed.

(** ** Percentiles *)

Lemma percentile_ceiling_le (p : Z) (n : nat) :
  p ≤ 100 → Qceiling (inject_Z p / 100 * inject_Z (Z.of_nat n)) ≤ Z.of_nat n.
Proof.
  intros Hp.
  rewrite <- (Qceiling_Z (Z.of_nat n)) at 2.
  apply Qceiling_resp_le.
  rewrite <- (Qmult_1_l (inject_Z (Z.of_nat n))) at 2.
  apply Qmult_le_compat_r.
  - unfold Qle, Qdiv, Qmult, Qinv, inject_Z. simpl. lia.
  - unfold Qle, inject_Z. simpl. lia.
Qed.

(** For a percentile of at most 100 the index the code reads is the
    clamped one, and it lies inside the array. *)
Lemma calculatePercentile_index (values : list Z) (p : Z) :
  p ≤ 100 → values ≠ [] →
  calculatePercentile values p
  = JsArray.sort (λ a b, a - b) values !! Z.to_nat (percentileIndex p (length values))
  ∧ is_Some (calculatePercentile values p).
Proof.
  intros Hp Hne. unfold calculatePercentile, percentileIndex.
  destruct values as [|v values]; [done|]. clear Hne.
  cbn [length Nat.eqb]. rewrite sort_length. cbn [length].
  pose proof (percentile_ceiling_le p (S (length values)) Hp) as Hle.
  rewrite (Z.min_r (Z.of_nat (S (length values)) - 1)) by lia.
  split; [done|].
  apply lookup_lt_is_Some. rewrite sort_length. cbn [length]. lia.
Qed.

Lemma calculatePercentile_single (v p : Z) :
  p ≤ 100 → calculatePercentile [v] p = Some v.
Proof.
  intros Hp. unfold calculatePercentile. cbn [length Nat.eqb].
  pose proof (percentile_ceiling_le p 1 Hp) as Hle.
  rewrite sort_length in *. cbn [length] in *.
  replace (Z.to_nat (Z.max 0 _)) with O by lia. reflexivity.
Qed.

(** ** The store, field by field *)

(** The passing of time *)

Lemma lookup_filter_key {A : Type} (P : string → bool) (m : gmap string A)
    (k : string) :
  filter (λ kv, P kv.1 = true) m !! k = if P k then m !! k else None.
Proof.
  destruct (P k) eqn:HP.
  - destruct (m !! k) as [x|] eqn:Hm.
    + by apply map_lookup_filter_Some.
    + apply map_lookup_filter_None. by left.
  - apply map_lookup_filter_None. right. intros x _. cbn. by rewrite HP.
Qed.

Lemma hgetall_advance (t : Z) (r : Redis) (key : string) :
  hgetall (advance t r) key = if alive t r key then hgetall r key else ∅.
Proof.
  unfold hgetall, advance. cbn [hashes]. rewrite lookup_filter_key.
  by destruct (alive t r key).
Qed.

Lemma lists_advance (t : Z) (r : Redis) (key : string) :
  lists (advance t r) !! key = if alive t r key then lists r !! key else None.
Proof. apply lookup_filter_key. Qed.

Lemma deadline_advance (t : Z) (r : Redis) (key : string) :
  deadline (advance t r) !! key = if alive t r key then deadline r !! key else None.
Proof. apply lookup_filter_key. Qed.

Lemma alive_lastsUntil (t hi : Z) (r : Redis) (key : string) :
  t ≤ hi → lastsUntil hi r key → alive t r key = true.
Proof.
  intros Ht Hlast. unfold alive.
  destruct (deadline r !! key) as [d|] eqn:Hd; [|done].
  specialize (Hlast d Hd). apply negb_true_iff, Z.ltb_ge. lia.
Qed.

Lemma lastsUntil_advance (t hi : Z) (r : Redis) (key : string) :
  lastsUntil hi r key → lastsUntil hi (advance t r) key.
Proof.
  intros Hlast d. rewrite deadline_advance.
  destruct (alive t r key); [apply Hlast|done].
Qed.

Lemma hgetall_setHash_eq (r : Redis) (key : string) (h : gmap string Z) :
  hgetall (setHash r key h) key = h.
Proof.
  unfold hgetall, setHash. simpl. case_decide as Hh.
  - by rewrite lookup_delete_eq, Hh.
  - by rewrite lookup_insert_eq.
Qed.

Lemma hgetall_setHash_ne (r : Redis) (key key' : string) (h : gmap string Z) :
  key' ≠ key → hgetall (setHash r key' h) key = hgetall r key.
Proof.
  intros Hne. unfold hgetall, setHash. simpl. case_decide.
  - by rewrite lookup_delete_ne.
  - by rewrite lookup_insert_ne.
Qed.

Lemma lookup_foldr_delete (h : gmap string Z) (gs : list string) (f : string) :
  foldr delete h gs !! f = if decide (f ∈ gs) then None else h !! f.
Proof.
  induction gs as [|g gs IH]; cbn [foldr].
  - rewrite decide_False; [done|]. apply not_elem_of_nil.
  - destruct (decide (g = f)) as [->|Hne].
    + rewrite lookup_delete_eq. rewrite decide_True; [done|left].
    + rewrite lookup_delete_ne, IH by done.
      destruct (decide (f ∈ gs)) as [Hin|Hin].
      * rewrite decide_True; [done|by right].
      * rewrite decide_False; [done|].
        intros [->|?]%elem_of_cons; done.
Qed.

(** Every command acts on a field of a hash as [fieldAfter] says. *)
Lemma exec_field (r : Redis) (c : Command) (key f : string) :
  hgetall (exec r c) key !! f = fieldAfter c key f (hgetall r key !! f).
Proof.
  unfold fieldAfter.
  destruct c as [k g n|k g n|k g x|k g x|k gs|k x|k secs]; simpl.
  - case_decide as Hk; [injection Hk as ->|].
    + rewrite hgetall_setHash_eq, lookup_insert. by case_decide; subst.
    + rewrite hgetall_setHash_ne; [done|congruence].
  - case_decide as Hk; [injection Hk as ->|].
    + rewrite hgetall_setHash_eq, lookup_insert. by case_decide; subst.
    + rewrite hgetall_setHash_ne; [done|congruence].
  - destruct (hgetall r k !! g) as [y|] eqn:Hg.
    + case_decide as Hk; [injection Hk as ->|done].
      case_decide; [subst; by rewrite Hg|done].
    + case_decide as Hk; [injection Hk as ->|].
      * rewrite hgetall_setHash_eq, lookup_insert.
        case_decide; [subst; by rewrite Hg|done].
      * rewrite hgetall_setHash_ne; [done|congruence].
  - case_decide as Hk; [injection Hk as ->|].
    + rewrite hgetall_setHash_eq, lookup_insert. by case_decide; subst.
    + rewrite hgetall_setHash_ne; [done|congruence].
  - case_decide as Hk; [injection Hk as ->|].
    + by rewrite hgetall_setHash_eq, lookup_foldr_delete.
    + rewrite hgetall_setHash_ne; [done|congruence].
  - reflexivity.
  - by case_bool_decide.
Qed.

Lemma fieldAfter_untouched (c : Command) (key f : string) (v : option Z) :
  mentions c f = false → fieldAfter c key f v = v.
Proof.
  unfold fieldAfter. case_decide; [|done].
  destruct c; simpl; intros Hm; try done;
    apply bool_decide_eq_false in Hm; by rewrite decide_False.
Qed.

Section FieldInduction.
Context (P : option Z → option Z → Prop) `{!Reflexive P, !Transitive P}.
Context (key f : string).

(** A relation between the old and the new value of a field that every
    command of a pipeline respects holds across the pipeline. *)
Lemma pipeline_field (pipeline : list Command) (r : Redis) :
  (∀ c, c ∈ pipeline → ∀ v, P v (fieldAfter c key f v)) →
  P (hgetall r key !! f) (hgetall (pipelineExec r pipeline) key !! f).
Proof.
  unfold pipelineExec. revert r.
  induction pipeline as [|c pipeline IH]; intros r Hall; simpl; [done|].
  transitivity (hgetall (exec r c) key !! f).
  - rewrite exec_field. apply Hall. left.
  - apply IH. intros c' Hc'. apply Hall. by right.
Qed.

Lemma exec_field_rel (c : Command) (r : Redis) :
  (∀ v, P v (fieldAfter c key f v)) →
  P (hgetall r key !! f) (hgetall (exec r c) key !! f).
Proof. intros Hc. rewrite exec_field. apply Hc. Qed.

Context (isoDate : Z → string) (cfg : EndpointUsageConfig).

Lemma cleanup_field (perfKey : string) (currentTimestamp : Z) (r : Redis) :
  (∀ fields, Forall (λ g, startsWith g "throughput_" = true) fields →
             ∀ v, P v (fieldAfter (hdel perfKey fields) key f v)) →
  P (hgetall r key !! f)
    (hgetall (cleanupOldThroughputData perfKey currentTimestamp r) key !! f).
Proof.
  intros Hdel. unfold cleanupOldThroughputData.
  destruct (0 <? length _)%nat; [|done].
  apply exec_field_rel, Hdel.
  unfold fieldsToDelete. apply Forall_forall. intros g Hg.
  apply list_elem_of_filter in Hg as [_ Hg].
  by apply list_elem_of_filter in Hg as [Hg _].
Qed.

(** The same across a whole [trackUsage] call: it is enough to look at the
    commands of the three pipelines and at the pruning of throughput
    buckets. *)
Lemma trackUsage_field (now today : Z) (usageData : UsageData.t) (r : Redis) :
  (∀ c,
     c ∈ callPipelines isoDate cfg today
           (normalizeEndpoint cfg (UsageData.method usageData) (UsageData.path usageData))
           (stamp usageData now) →
     ∀ v, P v (fieldAfter c key f v)) →
  (∀ perfKey fields,
     Forall (λ g, startsWith g "throughput_" = true) fields →
     ∀ v, P v (fieldAfter (hdel perfKey fields) key f v)) →
  P (hgetall r key !! f)
    (hgetall (trackUsage isoDate cfg now today usageData r) key !! f).
Proof.
  intros Hpipe Hdel. unfold trackUsage.
  destruct (negb (shouldTrackPath cfg (UsageData.path usageData))); [done|].
  set (endpoint := normalizeEndpoint cfg _ _) in *.
  set (data := stamp usageData now) in *.
  unfold callPipelines in Hpipe. cbv zeta.
  set (r1 := exec r (lpush _ _)).
  set (r2 := exec r1 (expire _ _)).
  set (r3 := updateDailyStats isoDate cfg today endpoint data r2).
  set (r4 := updateCounters cfg endpoint data r3).
  transitivity (hgetall r1 key !! f).
  { apply exec_field_rel. intros v. by rewrite fieldAfter_untouched. }
  transitivity (hgetall r2 key !! f).
  { apply exec_field_rel. intros v. by rewrite fieldAfter_untouched. }
  transitivity (hgetall r3 key !! f).
  { apply pipeline_field. intros c Hc. apply Hpipe. rewrite !elem_of_app. tauto. }
  transitivity (hgetall r4 key !! f).
  { apply pipeline_field. intros c Hc. apply Hpipe. rewrite !elem_of_app. tauto. }
  unfold updatePerformanceStats.
  destruct (negb (perfEnabled (performanceTracking cfg))); [done|].
  transitivity
    (hgetall (pipelineExec r4 (performancePipeline cfg endpoint data)) key !! f).
  { apply pipeline_field. intros c Hc. apply Hpipe. rewrite !elem_of_app. tauto. }
  apply cleanup_field, Hdel.
Qed.

End FieldInduction.

(** ** The commands of a [trackUsage] call *)

(** Reduces a property of all commands of the pipelines of a call to the
    property of each queued command, branch by branch. *)
Ltac each_command tac :=
  repeat first
    [ apply Forall_nil_2
    | apply Forall_cons_2; [tac|]
    | apply Forall_app_2
    | match goal with
      | |- Forall _ (match ?x with _ => _ end) => destruct x
      end ].

Lemma callPipelines_shape (isoDate : Z → string) (cfg : EndpointUsageConfig)
    (today : Z) (endpoint : string) (data : UsageData.t) (c : Command) :
  c ∈ callPipelines isoDate cfg today endpoint data →
  callShape (UsageData.timestamp data) c.
Proof.
  revert c. apply Forall_forall.
  unfold callPipelines, dailyPipeline, countersPipeline, performancePipeline, callShape.
  each_command
    ltac:(first
            [ left; do 2 eexists; split; [reflexivity|];
              intros Hin;
              repeat (apply elem_of_cons in Hin as [Hin|Hin]; [discriminate Hin|]);
              by apply elem_of_nil in Hin
            | right; left; by eexists
            | right; right; left; by eexists
            | right; right; right; left; do 3 eexists; split; [reflexivity|];
              first [ by left | by right; left | by do 2 right; left ]
            | right; right; right; right; by do 2 eexists ]).
Qed.

Lemma startsWith_inv (s p : string) :
  startsWith s p = true → ∃ rest, s = p +:+ rest.
Proof.
  unfold startsWith. revert s. induction p as [|a p IH]; intros s; simpl.
  - intros _. by exists s.
  - destruct s as [|b s]; [done|].
    destruct (Ascii.eqb_spec a b) as [->|]; [|done].
    intros H. destruct (IH s H) as [rest ->]. by exists rest.
Qed.

Lemma isCounterField_cases (f : string) :
  isCounterField f = true →
  f ∈ ["count"; "total_requests"; "response_count"; "slow_requests";
       "error_requests"; "memory_count"; "cpu_count"]
  ∨ ∃ code, f = "status_" +:+ code.
Proof.
  unfold isCounterField. intros [H|H]%orb_true_iff.
  - left. by apply bool_decide_eq_true in H.
  - right. by apply startsWith_inv.
Qed.

Lemma counter_not_sample (f g : string) :
  isCounterField f = true →
  g ∈ ["first_accessed"; "last_accessed"; "total_response_time"; "total_memory";
       "total_cpu"] →
  g ≠ f.
Proof.
  intros Hf Hg ->. revert Hf.
  repeat (apply elem_of_cons in Hg as [->|Hg]; [by vm_compute|]).
  by apply elem_of_nil in Hg.
Qed.

Lemma counter_not_throughput (f : string) :
  isCounterField f = true → startsWith f "throughput_" = false.
Proof.
  intros Hf. destruct (startsWith f "throughput_") eqn:Ht; [|done].
  apply startsWith_inv in Ht as [rest ->].
  apply isCounterField_cases in Hf as [Hf|[code Hf]].
  - repeat (apply elem_of_cons in Hf as [Hf|Hf]; [discriminate Hf|]).
    by apply elem_of_nil in Hf.
  - discriminate Hf.
Qed.

Lemma hdel_throughput_untouched (perfKey key f : string) (fields : list string)
    (v : option Z) :
  startsWith f "throughput_" = false →
  Forall (λ g, startsWith g "throughput_" = true) fields →
  fieldAfter (hdel perfKey fields) key f v = v.
Proof.
  intros Hf Hfields. apply fieldAfter_untouched. simpl.
  apply bool_decide_eq_false. intros Hin.
  rewrite Forall_forall in Hfields. apply Hfields in Hin. congruence.
Qed.

(** ** Counters, first and last access across a call *)

#[local] Instance counterLe_refl : Reflexive counterLe.
Proof. intros v. unfold counterLe. lia. Qed.
#[local] Instance counterLe_trans : Transitive counterLe.
Proof. intros a b c. unfold counterLe. lia. Qed.
#[local] Instance keepsSet_refl : Reflexive keepsSet.
Proof. intros v x Hx. exact Hx. Qed.
#[local] Instance keepsSet_trans : Transitive keepsSet.
Proof. intros a b c Hab Hbc x Hx. apply Hbc, Hab, Hx. Qed.
#[local] Instance keepsValue_refl (x : Z) : Reflexive (keepsValue x).
Proof. intros v Hv. exact Hv. Qed.
#[local] Instance keepsValue_trans (x : Z) : Transitive (keepsValue x).
Proof. intros a b c Hab Hbc Hx. apply Hbc, Hab, Hx. Qed.

Section CallFacts.
Context (isoDate : Z → string) (cfg : EndpointUsageConfig).
Context (now today : Z) (usageData : UsageData.t) (r : Redis).

Lemma trackUsage_counter_mono (key f : string) :
  isCounterField f = true →
  default 0 (hgetall r key !! f)
  ≤ default 0 (hgetall (trackUsage isoDate cfg now today usageData r) key !! f).
Proof.
  intros Hf. apply (trackUsage_field counterLe).
  - intros c Hc v. unfold counterLe.
    apply callPipelines_shape in Hc
      as [(k & g & -> & _)|[(k & ->)|[(k & ->)|[(k & g & x & -> & Hg)|(k & n & ->)]]]].
    + unfold fieldAfter. case_decide; [|lia]. simpl. case_decide; simpl; lia.
    + rewrite fieldAfter_untouched; [lia|]. simpl. apply bool_decide_eq_false.
      apply counter_not_sample; [done|left].
    + rewrite fieldAfter_untouched; [lia|]. simpl. apply bool_decide_eq_false.
      apply counter_not_sample; [done|right; left].
    + rewrite fieldAfter_untouched; [lia|]. simpl. apply bool_decide_eq_false.
      apply counter_not_sample; [done|by do 2 right].
    + rewrite fieldAfter_untouched; [lia|done].
  - intros perfKey fields Hfields v. unfold counterLe.
    rewrite hdel_throughput_untouched; [lia| |done].
    by apply counter_not_throughput.
Qed.

Lemma trackUsage_first_accessed_kept (key : string) (x : Z) :
  hgetall r key !! "first_accessed" = Some x →
  hgetall (trackUsage isoDate cfg now today usageData r) key !! "first_accessed"
  = Some x.
Proof.
  apply (trackUsage_field keepsSet).
  - intros c Hc v y ->.
    apply callPipelines_shape in Hc
      as [(k & g & -> & Hg)|[(k & ->)|[(k & ->)|[(k & g & x' & -> & Hg)|(k & n & ->)]]]].
    + apply fieldAfter_untouched. simpl. apply bool_decide_eq_false.
      intros ->. apply Hg. left.
    + unfold fieldAfter. case_decide; [|done]. by simpl.
    + by apply fieldAfter_untouched.
    + apply fieldAfter_untouched. simpl. apply bool_decide_eq_false.
      intros ->. repeat (apply elem_of_cons in Hg as [Hg|Hg]; [discriminate Hg|]).
      by apply elem_of_nil in Hg.
    + by apply fieldAfter_untouched.
  - intros perfKey fields Hfields v y ->.
    by apply hdel_throughput_untouched.
Qed.

(** Every command of the call leaves a last-access field that already
    holds the time stamp of the call as it is. *)
Lemma call_command_keeps_last (key : string) (today' : Z) (endpoint : string)
    (data : UsageData.t) (c : Command) (v : option Z) :
  c ∈ callPipelines isoDate cfg today' endpoint data →
  keepsValue (UsageData.timestamp data) v (fieldAfter c key "last_accessed" v).
Proof.
  intros Hc Hv.
  apply callPipelines_shape in Hc
    as [(k & g & -> & Hg)|[(k & ->)|[(k & ->)|[(k & g & x' & -> & Hg)|(k & n & ->)]]]].
  - rewrite fieldAfter_untouched; [done|]. simpl. apply bool_decide_eq_false.
    intros ->. apply Hg. right; left.
  - by rewrite fieldAfter_untouched.
  - unfold fieldAfter. case_decide; [|done]. by simpl.
  - rewrite fieldAfter_untouched; [done|]. simpl. apply bool_decide_eq_false.
    intros ->. repeat (apply elem_of_cons in Hg as [Hg|Hg]; [discriminate Hg|]).
    by apply elem_of_nil in Hg.
  - by rewrite fieldAfter_untouched.
Qed.

(** A pipeline that overwrites a field and afterwards keeps it. *)
Lemma pipeline_sets (before after : list Command) (key f : string) (x : Z)
    (r0 : Redis) :
  (∀ c, c ∈ after → ∀ v, keepsValue x v (fieldAfter c key f v)) →
  hgetall (pipelineExec r0 (before ++ hset key f x :: after)) key !! f = Some x.
Proof.
  intros Hafter. unfold pipelineExec. rewrite foldl_app. cbn [foldl].
  apply (pipeline_field (keepsValue x) key f after _ Hafter).
  rewrite exec_field. unfold fieldAfter. rewrite decide_True by done.
  simpl. by rewrite decide_True.
Qed.

Lemma updateDailyStats_last_accessed (endpoint : string) (data : UsageData.t)
    (r0 : Redis) :
  hgetall (updateDailyStats isoDate cfg today endpoint data r0)
    (dailyKey isoDate cfg today endpoint) !! "last_accessed"
  = Some (UsageData.timestamp data).
Proof.
  unfold updateDailyStats, dailyKey.
  set (k := keyPrefix cfg +:+ ":daily:" +:+ isoDate today +:+ ":" +:+ endpoint).
  pose proof (call_command_keeps_last k today endpoint data) as Hkeep.
  unfold callPipelines, dailyPipeline in *. fold k in Hkeep |- *.
  match goal with
  | |- context [pipelineExec _ ([?a; ?b; ?c; hset k _ ?x] ++ ?rest)%list] =>
      change ([a; b; c; hset k "last_accessed" x] ++ rest)%list
        with ([a; b; c] ++ hset k "last_accessed" x :: rest)%list
  end.
  apply pipeline_sets. intros c Hc v. apply Hkeep.
  rewrite !elem_of_app in *. tauto.
Qed.

Lemma updateCounters_last_accessed (endpoint : string) (data : UsageData.t)
    (r0 : Redis) :
  hgetall (updateCounters cfg endpoint data r0) (globalKey cfg endpoint)
    !! "last_accessed"
  = Some (UsageData.timestamp data).
Proof.
  unfold updateCounters, globalKey.
  set (k := keyPrefix cfg +:+ ":global:" +:+ endpoint).
  pose proof (call_command_keeps_last k today endpoint data) as Hkeep.
  unfold callPipelines, countersPipeline in *. fold k in Hkeep |- *.
  match goal with
  | |- context [pipelineExec _ ([?a; ?b; hset k _ ?x; ?d] ++ ?rest)%list] =>
      change ([a; b; hset k "last_accessed" x; d] ++ rest)%list
        with ([a; b] ++ hset k "last_accessed" x :: ([d] ++ rest))%list
  end.
  apply pipeline_sets. intros c Hc v. apply Hkeep.
  rewrite !elem_of_app in *. rewrite !elem_of_cons in *. tauto.
Qed.

Lemma updatePerformanceStats_last_accessed (endpoint : string) (data : UsageData.t)
    (r0 : Redis) :
  perfEnabled (performanceTracking cfg) = true →
  hgetall (updatePerformanceStats cfg endpoint data r0) (performanceKey cfg endpoint)
    !! "last_accessed"
  = Some (UsageData.timestamp data).
Proof.
  intros Hen. unfold updatePerformanceStats, performanceKey. rewrite Hen. cbn [negb].
  set (k := keyPrefix cfg +:+ ":performance:" +:+ endpoint).
  apply (cleanup_field (keepsValue (UsageData.timestamp data))).
  { intros fields Hfields v Hv. by rewrite hdel_throughput_untouched. }
  pose proof (call_command_keeps_last k today endpoint data) as Hkeep.
  unfold callPipelines, performancePipeline in *. fold k in Hkeep |- *.
  match goal with
  | |- context [pipelineExec _ ([?a; ?b; hset k _ ?x] ++ ?rest)%list] =>
      change ([a; b; hset k "last_accessed" x] ++ rest)%list
        with ([a; b] ++ hset k "last_accessed" x :: rest)%list
  end.
  apply pipeline_sets. intros c Hc v. apply Hkeep.
  rewrite !elem_of_app in *. rewrite !elem_of_cons in *. tauto.
Qed.

Lemma updateCounters_keeps_last (key endpoint : string) (data : UsageData.t)
    (r0 : Redis) :
  keepsValue (UsageData.timestamp data) (hgetall r0 key !! "last_accessed")
    (hgetall (updateCounters cfg endpoint data r0) key !! "last_accessed").
Proof.
  apply (pipeline_field (keepsValue (UsageData.timestamp data))).
  intros c Hc v. apply (call_command_keeps_last key today endpoint data).
  unfold callPipelines. rewrite !elem_of_app. tauto.
Qed.

Lemma updatePerformanceStats_keeps_last (key endpoint : string) (data : UsageData.t)
    (r0 : Redis) :
  keepsValue (UsageData.timestamp data) (hgetall r0 key !! "last_accessed")
    (hgetall (updatePerformanceStats cfg endpoint data r0) key !! "last_accessed").
Proof.
  unfold updatePerformanceStats.
  destruct (negb (perfEnabled (performanceTracking cfg))); [done|].
  transitivity
    (hgetall (pipelineExec r0 (performancePipeline cfg endpoint data)) key
       !! "last_accessed").
  - apply (pipeline_field (keepsValue (UsageData.timestamp data))).
    intros c Hc v. apply (call_command_keeps_last key today endpoint data).
    unfold callPipelines. rewrite !elem_of_app. tauto.
  - apply (cleanup_field (keepsValue (UsageData.timestamp data))).
    intros fields Hfields v Hv. by rewrite hdel_throughput_untouched.
Qed.

(** After a tracked call the last-access field of the endpoint's three
    records holds the time stamp of the call. *)
Lemma trackUsage_last_accessed :
  shouldTrackPath cfg (UsageData.path usageData) = true →
  let endpoint :=
    normalizeEndpoint cfg (UsageData.method usageData) (UsageData.path usageData) in
  let r' := trackUsage isoDate cfg now today usageData r in
  hgetall r' (globalKey cfg endpoint) !! "last_accessed" = Some now
  ∧ hgetall r' (dailyKey isoDate cfg today endpoint) !! "last_accessed" = Some now
  ∧ (perfEnabled (performanceTracking cfg) = true →
     hgetall r' (performanceKey cfg endpoint) !! "last_accessed" = Some now).
Proof.
  intros Htrack endpoint r'. subst r'. unfold trackUsage.
  rewrite Htrack. cbn [negb]. cbv zeta. fold endpoint.
  set (data := stamp usageData now).
  change (Some now) with (Some (UsageData.timestamp data)).
  split; [|split].
  - apply updatePerformanceStats_keeps_last, updateCounters_last_accessed.
  - apply updatePerformanceStats_keeps_last, updateCounters_keeps_last,
      updateDailyStats_last_accessed.
  - intros Hen. by apply updatePerformanceStats_last_accessed.
Qed.

Ltac unmentioned :=
  cbn [mentions]; first [ reflexivity | apply bool_decide_eq_false; discriminate ].

(** A falsy response time: no command of the call names the response-time
    sum, the response count or the slow-request count. *)
Lemma trackUsage_falsy_responseTime (key f : string) :
  truthy (UsageData.responseTime usageData) = None →
  f ∈ ["total_response_time"; "response_count"; "slow_requests"] →
  hgetall (trackUsage isoDate cfg now today usageData r) key !! f
  = hgetall r key !! f.
Proof.
  intros Hfalsy Hf. symmetry. apply (trackUsage_field eq).
  - intros c Hc v. symmetry. apply fieldAfter_untouched.
    revert c Hc. apply Forall_forall.
    unfold callPipelines, dailyPipeline, countersPipeline, performancePipeline.
    cbn [stamp UsageData.responseTime]. rewrite Hfalsy.
    repeat (apply elem_of_cons in Hf as [->|Hf]);
      [..|by apply elem_of_nil in Hf];
      each_command unmentioned.
  - intros perfKey fields Hfields v. symmetry.
    apply hdel_throughput_untouched; [|done].
    repeat (apply elem_of_cons in Hf as [->|Hf]; [reflexivity|]).
    by apply elem_of_nil in Hf.
Qed.

(** A falsy memory sample: no command names its sum or its count. *)
Lemma trackUsage_falsy_memoryUsage (key f : string) :
  truthy (UsageData.memoryUsage usageData) = None →
  f ∈ ["total_memory"; "memory_count"] →
  hgetall (trackUsage isoDate cfg now today usageData r) key !! f
  = hgetall r key !! f.
Proof.
  intros Hfalsy Hf. symmetry. apply (trackUsage_field eq).
  - intros c Hc v. symmetry. apply fieldAfter_untouched.
    revert c Hc. apply Forall_forall.
    unfold callPipelines, dailyPipeline, countersPipeline, performancePipeline.
    cbn [stamp UsageData.memoryUsage]. rewrite Hfalsy.
    repeat (apply elem_of_cons in Hf as [->|Hf]);
      [..|by apply elem_of_nil in Hf];
      each_command unmentioned.
  - intros perfKey fields Hfields v. symmetry.
    apply hdel_throughput_untouched; [|done].
    repeat (apply elem_of_cons in Hf as [->|Hf]; [reflexivity|]).
    by apply elem_of_nil in Hf.
Qed.

(** A falsy CPU sample: no command names its sum or its count. *)
Lemma trackUsage_falsy_cpuUsage (key f : string) :
  truthy (UsageData.cpuUsage usageData) = None →
  f ∈ ["total_cpu"; "cpu_count"] →
  hgetall (trackUsage isoDate cfg now today usageData r) key !! f
  = hgetall r key !! f.
Proof.
  intros Hfalsy Hf. symmetry. apply (trackUsage_field eq).
  - intros c Hc v. symmetry. apply fieldAfter_untouched.
    revert c Hc. apply Forall_forall.
    unfold callPipelines, dailyPipeline, countersPipeline, performancePipeline.
    cbn [stamp UsageData.cpuUsage]. rewrite Hfalsy.
    repeat (apply elem_of_cons in Hf as [->|Hf]);
      [..|by apply elem_of_nil in Hf];
      each_command unmentioned.
  - intros perfKey fields Hfields v. symmetry.
    apply hdel_throughput_untouched; [|done].
    repeat (apply elem_of_cons in Hf as [->|Hf]; [reflexivity|]).
    by apply elem_of_nil in Hf.
Qed.

(** No call writes the fields the performance reader takes the average,
    the throughput, the memory and the CPU figures from. *)
Lemma trackUsage_derived_fields_unwritten (key f : string) :
  f ∈ ["avg_response_time"; "throughput"; "avg_memory"; "avg_cpu"] →
  hgetall (trackUsage isoDate cfg now today usageData r) key !! f
  = hgetall r key !! f.
Proof.
  intros Hf. symmetry. apply (trackUsage_field eq).
  - intros c Hc v. symmetry. apply fieldAfter_untouched.
    revert c Hc. apply Forall_forall.
    unfold callPipelines, dailyPipeline, countersPipeline, performancePipeline.
    repeat (apply elem_of_cons in Hf as [->|Hf]);
      [..|by apply elem_of_nil in Hf];
      each_command unmentioned.
  - intros perfKey fields Hfields v. symmetry.
    apply hdel_throughput_untouched; [|done].
    repeat (apply elem_of_cons in Hf as [->|Hf]; [reflexivity|]).
    by apply elem_of_nil in Hf.
Qed.

End CallFacts.

(** ** Sequences of calls *)

Lemma trackAll_counter_mono (isoDate : Z → string) (cfg : EndpointUsageConfig)
    (calls : list (Z * Z * UsageData.t)) (r : Redis) (key f : string) :
  isCounterField f = true →
  survives isoDate cfg key calls r = true →
  default 0 (hgetall r key !! f)
  ≤ default 0 (hgetall (trackAll isoDate cfg calls r) key !! f).
Proof.
  intros Hf. unfold trackAll. revert r.
  induction calls as [|[[now today] usageData] calls IH]; intros r Hlife;
    cbn [foldl survives] in *; [lia|].
  destruct (shouldTrackPath cfg (UsageData.path usageData)); [|by apply IH].
  apply andb_true_iff in Hlife as [Halive Hlife].
  etransitivity; [|by apply IH].
  etransitivity; [|by apply trackUsage_counter_mono].
  by rewrite hgetall_advance, Halive.
Qed.

Lemma trackAll_first_accessed_kept (isoDate : Z → string) (cfg : EndpointUsageConfig)
    (calls : list (Z * Z * UsageData.t)) (r : Redis) (key : string) (x : Z) :
  survives isoDate cfg key calls r = true →
  hgetall r key !! "first_accessed" = Some x →
  hgetall (trackAll isoDate cfg calls r) key !! "first_accessed" = Some x.
Proof.
  unfold trackAll. revert r.
  induction calls as [|[[now today] usageData] calls IH]; intros r Hlife Hx;
    cbn [foldl survives] in *; [done|].
  destruct (shouldTrackPath cfg (UsageData.path usageData)); [|by apply IH].
  apply andb_true_iff in Hlife as [Halive Hlife].
  apply IH; [done|]. apply trackUsage_first_accessed_kept.
  by rewrite hgetall_advance, Halive.
Qed.

(** ** The read path *)

Lemma append_assoc (a b c : string) : (a +:+ b) +:+ c = a +:+ b +:+ c.
Proof.
  induction a as [|x a IH]; [done|].
  rewrite !append_cons. by rewrite IH.
Qed.


Lemma splitEndpoint_no_colon (endpoint piece : string) :
  (splitEndpoint endpoint).2 = Some piece → hasChar ":" piece = false.
Proof.
  unfold splitEndpoint, splitLimit. simpl. intros Hp.
  apply (split_pieces_no_sep ":" endpoint).
  apply list_elem_of_lookup_2, elem_of_take in Hp as (i & Hi & _).
  by apply list_elem_of_lookup_2 in Hi.
Qed.

Lemma hasChar_true_ne (ch : ascii) (s t : string) :
  hasChar ch s = true → hasChar ch t = false → t ≠ s.
Proof. intros Hs Ht ->. congruence. Qed.

Section ReadFacts.
Context (cfg : EndpointUsageConfig) (r : Redis).



Lemma getPerformanceStats_elem (stat : EndpointStats.t) :
  stat ∈ getPerformanceStats cfg None None r
  ↔ ∃ key, key ∈ keys r (keyPattern cfg ":performance:" None None)
           ∧ performanceStatsOf cfg r key = Some stat.
Proof. unfold getPerformanceStats. by rewrite sort_elem_of, list_elem_of_omap. Qed.



End ReadFacts.

(** ** The claims *)

(** C9.  Endpoint-key normalisation is idempotent: normalising the method
    and the path produced by a normalisation gives the same key again. *)
Theorem C9_normalizeEndpoint_idempotent (cfg : EndpointUsageConfig)
    (method path : string) :
  normalizeEndpoint cfg (toUpperCase method) (normalizePath cfg path)
  = normalizeEndpoint cfg method path.
Proof.
  unfold normalizeEndpoint.
  by rewrite toUpperCase_idem, normalizePath_idem.
Qed.

(** C5.  For a percentile among 50, 95 and 99 the computed value is the
    element of the ascending-sorted samples at index [ceil(p/100 * n) - 1]
    clamped to [[0, n-1]]; an empty list gives 0 and a single sample gives
    that sample. *)
Theorem C5_calculatePercentile (values : list Z) (p : Z) :
  p = 50 ∨ p = 95 ∨ p = 99 →
  let sorted := JsArray.sort (λ a b, a - b) values in
  Sorted Z.le sorted
  ∧ sorted ≡ₚ values
  ∧ (values = [] → calculatePercentile values p = Some 0)
  ∧ (values ≠ [] →
     calculatePercentile values p
     = sorted !! Z.to_nat (percentileIndex p (length values))
     ∧ is_Some (calculatePercentile values p))
  ∧ (∀ v, values = [v] → calculatePercentile values p = Some v).
Proof.
  intros Hp sorted.
  assert (p ≤ 100) as Hle by lia.
  split; [apply sort_ascending|].
  split; [apply sort_perm|].
  split; [by intros ->|].
  split; [by apply calculatePercentile_index|].
  intros v ->. by apply calculatePercentile_single.
Qed.

Lemma C5_witness :
  (95 = 50 ∨ 95 = 95 ∨ 95 = 99)
  ∧ calculatePercentile [300; 100; 200] 95 = Some 300.
Proof.
  split; [by right; left|].
  destruct (C5_calculatePercentile [300; 100; 200] 95) as (_ & _ & _ & Hidx & _);
    [by right; left|].
  destruct Hidx as [-> _]; [done|]. reflexivity.
Defined.




(** C7, as the code has it.  Over every sequence of calls and for every
    record that outlives the sequence — no tracked call arrives after the
    record's time to live has run out — the request counter and every count
    field never decrease and a first-access time that is set never changes;
    after a tracked call the last-access time of the endpoint's global,
    daily and (when enabled) performance record is the time stamp of that
    call, which is the maximum of the previous last access and the time
    stamp whenever the time stamp is not the earlier of the two. *)
Theorem C7_aggregate_invariants (isoDate : Z → string) (cfg : EndpointUsageConfig)
    (calls : list (Z * Z * UsageData.t)) (now today : Z) (usageData : UsageData.t)
    (r : Redis) (key : string) :
  (∀ f, isCounterField f = true →
        survives isoDate cfg key calls r = true →
        default 0 (hgetall r key !! f)
        ≤ default 0 (hgetall (trackAll isoDate cfg calls r) key !! f))
  ∧ (∀ x, survives isoDate cfg key calls r = true →
          hgetall r key !! "first_accessed" = Some x →
          hgetall (trackAll isoDate cfg calls r) key !! "first_accessed" = Some x)
  ∧ (shouldTrackPath cfg (UsageData.path usageData) = true →
     let endpoint :=
       normalizeEndpoint cfg (UsageData.method usageData) (UsageData.path usageData) in
     let r' := trackUsage isoDate cfg now today usageData r in
     ∀ record,
       record ∈ ([globalKey cfg endpoint; dailyKey isoDate cfg today endpoint]
                 ++ (if perfEnabled (performanceTracking cfg)
                     then [performanceKey cfg endpoint] else []))%list →
       hgetall r' record !! "last_accessed" = Some now
       ∧ ∀ previous, hgetall r record !! "last_accessed" = Some previous →
                     previous ≤ now →
                     hgetall r' record !! "last_accessed" = Some (Z.max previous now)).
Proof.
  split; [intros f Hf Hlife; by apply trackAll_counter_mono|].
  split; [intros x Hlife Hx; by apply trackAll_first_accessed_kept|].
  intros Htrack endpoint r' record Hrecord.
  destruct (trackUsage_last_accessed isoDate cfg now today usageData r Htrack)
    as (Hglobal & Hdaily & Hperf).
  fold endpoint r' in Hglobal, Hdaily, Hperf.
  assert (Hnow : hgetall r' record !! "last_accessed" = Some now).
  { apply elem_of_app in Hrecord as [Hrecord|Hrecord].
    - apply elem_of_cons in Hrecord as [->|Hrecord]; [done|].
      by apply list_elem_of_singleton in Hrecord as ->.
    - destruct (perfEnabled (performanceTracking cfg)).
      + apply list_elem_of_singleton in Hrecord as ->. by apply Hperf.
      + by apply elem_of_nil in Hrecord. }
  split; [exact Hnow|].
  intros previous _ Hle. by rewrite Z.max_r.
Qed.

Lemma C7_witness :
  isCounterField "count" = true
  ∧ survives sampleDate sampleConfig
      (dailyKey sampleDate sampleConfig 3000 "GET:/users/:id")
      [(3000, 3000, sampleRequest "/users/1" (Some 5))] backwardsStore1 = true
  ∧ hgetall backwardsStore1 (dailyKey sampleDate sampleConfig 3000 "GET:/users/:id")
      !! "first_accessed" = Some 2000
  ∧ shouldTrackPath sampleConfig "/users/1" = true
  ∧ hgetall backwardsStore1 (dailyKey sampleDate sampleConfig 3000 "GET:/users/:id")
      !! "last_accessed" = Some 2000
  ∧ 2000 ≤ 3000
  ∧ default 0 (hgetall backwardsStore1
                 (dailyKey sampleDate sampleConfig 3000 "GET:/users/:id") !! "count")
    ≤ default 0 (hgetall (trackAll sampleDate sampleConfig
                            [(3000, 3000, sampleRequest "/users/1" (Some 5))]
                            backwardsStore1)
                   (dailyKey sampleDate sampleConfig 3000 "GET:/users/:id") !! "count")
  ∧ hgetall (trackAll sampleDate sampleConfig
               [(3000, 3000, sampleRequest "/users/1" (Some 5))] backwardsStore1)
      (dailyKey sampleDate sampleConfig 3000 "GET:/users/:id") !! "first_accessed"
    = Some 2000
  ∧ hgetall (trackUsage sampleDate sampleConfig 3000 3000
               (sampleRequest "/users/1" (Some 5)) backwardsStore1)
      (dailyKey sampleDate sampleConfig 3000 "GET:/users/:id") !! "last_accessed"
    = Some (Z.max 2000 3000).
Proof.
  assert (Hlife : survives sampleDate sampleConfig
                    (dailyKey sampleDate sampleConfig 3000 "GET:/users/:id")
                    [(3000, 3000, sampleRequest "/users/1" (Some 5))] backwardsStore1
                  = true) by (by vm_compute).
  assert (Hfirst : hgetall backwardsStore1
                     (dailyKey sampleDate sampleConfig 3000 "GET:/users/:id")
                     !! "first_accessed" = Some 2000) by (by vm_compute).
  assert (Hlast : hgetall backwardsStore1
                    (dailyKey sampleDate sampleConfig 3000 "GET:/users/:id")
                    !! "last_accessed" = Some 2000) by (by vm_compute).
  assert (Hle : 2000 ≤ 3000) by lia.
  destruct (C7_aggregate_invariants sampleDate sampleConfig
              [(3000, 3000, sampleRequest "/users/1" (Some 5))] 3000 3000
              (sampleRequest "/users/1" (Some 5)) backwardsStore1
              (dailyKey sampleDate sampleConfig 3000 "GET:/users/:id"))
    as (Hcount & Hkept & Hmax).
  split; [reflexivity|]. split; [exact Hlife|]. split; [exact Hfirst|].
  split; [reflexivity|]. split; [exact Hlast|]. split; [exact Hle|].
  split; [exact (Hcount "count" eq_refl Hlife)|].
  split; [exact (Hkept 2000 Hlife Hfirst)|].
  refine (proj2 (Hmax eq_refl (dailyKey sampleDate sampleConfig 3000 "GET:/users/:id") _)
            2000 Hlast Hle).
  right. left.
Defined.

(** The claim C7 as it is written fails on the last-access time: with a
    clock reading that goes backwards between two calls the stored value is
    the later call's time stamp, not the maximum. *)
Lemma C7_counterexample :
  hgetall backwardsStore1 (globalKey sampleConfig "GET:/users/:id") !! "last_accessed"
  = Some 2000
  ∧ hgetall backwardsStore2 (globalKey sampleConfig "GET:/users/:id") !! "last_accessed"
    = Some 1000
  ∧ Some 1000 ≠ Some (Z.max 2000 1000).
Proof. split; [|split]; [by vm_compute..|discriminate]. Qed.

(** C10.  A response time of 0 is treated as absent in every aggregate
    record: the call leaves the response-time sum, the response count and
    the slow-request count of every hash as they were; a memory or CPU
    sample of 0 likewise leaves its sum and count as they were. *)
Theorem C10_zero_samples_ignored (isoDate : Z → string) (cfg : EndpointUsageConfig)
    (now today : Z) (usageData : UsageData.t) (r : Redis) (key : string) :
  let r' := trackUsage isoDate cfg now today usageData r in
  (UsageData.responseTime usageData = Some 0 →
   ∀ f, f ∈ ["total_response_time"; "response_count"; "slow_requests"] →
        hgetall r' key !! f = hgetall r key !! f)
  ∧ (UsageData.memoryUsage usageData = Some 0 →
     ∀ f, f ∈ ["total_memory"; "memory_count"] →
          hgetall r' key !! f = hgetall r key !! f)
  ∧ (UsageData.cpuUsage usageData = Some 0 →
     ∀ f, f ∈ ["total_cpu"; "cpu_count"] →
          hgetall r' key !! f = hgetall r key !! f).
Proof.
  intros r'. subst r'. split; [|split]; intros Hzero f Hf.
  - apply trackUsage_falsy_responseTime; [by rewrite Hzero|done].
  - apply trackUsage_falsy_memoryUsage; [by rewrite Hzero|done].
  - apply trackUsage_falsy_cpuUsage; [by rewrite Hzero|done].
Qed.

Lemma C10_witness :
  UsageData.responseTime (sampleRequest "/users/1" (Some 0)) = Some 0
  ∧ hgetall (trackUsage sampleDate sampleConfig 130000 130000
               (sampleRequest "/users/1" (Some 0)) sampleStore)
      (performanceKey sampleConfig "GET:/users/:id") !! "response_count"
    = hgetall sampleStore (performanceKey sampleConfig "GET:/users/:id")
        !! "response_count".
Proof.
  split; [reflexivity|].
  refine (proj1 (C10_zero_samples_ignored sampleDate sampleConfig 130000 130000
                   (sampleRequest "/users/1" (Some 0)) sampleStore
                   (performanceKey sampleConfig "GET:/users/:id"))
            _ "response_count" _); [reflexivity|right; left].
Defined.




(** ** Averages and throughput *)





Lemma trackAll_derived_fields_unwritten (isoDate : Z → string)
    (cfg : EndpointUsageConfig) (calls : list (Z * Z * UsageData.t))
    (key f : string) :
  f ∈ ["avg_response_time"; "throughput"; "avg_memory"; "avg_cpu"] →
  hgetall (trackAll isoDate cfg calls emptyRedis) key !! f = None.
Proof.
  intros Hf. unfold trackAll.
  assert (Hstart : hgetall emptyRedis key !! f = None) by done.
  revert Hstart. generalize emptyRedis.
  induction calls as [|[[now today] usageData] calls IH]; intros r Hr; simpl; [done|].
  apply IH. destruct (shouldTrackPath cfg (UsageData.path usageData)); [|done].
  rewrite trackUsage_derived_fields_unwritten by done.
  rewrite hgetall_advance. by destruct (alive now r key).
Qed.

(** Whatever was tracked, the performance reader reports a throughput of 0
    and an average response time of 0. *)
Lemma getPerformanceStats_derived_zero (isoDate : Z → string)
    (cfg : EndpointUsageConfig) (calls : list (Z * Z * UsageData.t))
    (stat : EndpointStats.t) :
  stat ∈ getPerformanceStats cfg None None (trackAll isoDate cfg calls emptyRedis) →
  (PerformanceMetrics.throughput <$> EndpointStats.performance stat) = Some 0
  ∧ EndpointStats.averageResponseTime stat = Some (JsNumber.ofZ 0).
Proof.
  intros (key & _ & Hstat)%getPerformanceStats_elem.
  unfold performanceStatsOf in Hstat. case_decide; [done|].
  destruct (splitEndpoint _) as [m p]. injection Hstat as <-. simpl.
  rewrite !(trackAll_derived_fields_unwritten isoDate cfg calls key);
    [done|left|right; left].
Qed.

(** C2 fails on the code: the record of the sample endpoint keeps two
    throughput buckets holding 3 requests, and the reader reports a
    throughput of 0. *)
Theorem C2_throughput_ignores_buckets :
  hgetall sampleStore (performanceKey sampleConfig "GET:/users/:id")
    !! "throughput_60000" = Some 2
  ∧ hgetall sampleStore (performanceKey sampleConfig "GET:/users/:id")
      !! "throughput_120000" = Some 1
  ∧ bucketSum (hgetall sampleStore (performanceKey sampleConfig "GET:/users/:id")) = 3
  ∧ map (λ stat, PerformanceMetrics.throughput <$> EndpointStats.performance stat)
      (getPerformanceStats sampleConfig None None sampleStore)
    = [Some 0].
Proof. repeat split; by vm_compute. Qed.

(** ** The report *)

(** C3 fails on the code: with no route known the ratio is 0/0 and the
    percentage of the report is NaN, not 0. *)
Theorem C3_unusedPercentage_no_routes (trackerCfg : EndpointUsageConfig)
    (daysBefore : Z → Z → option Z) (config : ReportConfig) (clock : ReportClock)
    (r : Redis) :
  Summary.totalRoutes
    (UsageReport.summary (generateReport trackerCfg daysBefore config [] [] clock r)) = 0
  ∧ Summary.unusedPercentage
      (UsageReport.summary (generateReport trackerCfg daysBefore config [] [] clock r))
    = NaN.
Proof. split; reflexivity. Qed.

(** A tick that found unused endpoints posts to the configured webhook. *)
Lemma generateAndSendReport_delivers (trackerCfg : EndpointUsageConfig)
    (daysBefore : Z → Z → option Z) (config : ReportConfig)
    (routes later : list RouteInfo.t) (fetch : string → FetchResult)
    (clock : ReportClock) (r : Redis) (hook : Webhook) :
  UsageReport.unusedEndpoints
    (generateReport trackerCfg daysBefore config routes later clock r) ≠ [] →
  webhook (notifications config) = Some hook →
  FetchPost (url hook)
  ∈ generateAndSendReport trackerCfg daysBefore config routes later fetch clock (Some r).
Proof.
  intros Hunused Hhook. unfold generateAndSendReport.
  destruct (UsageReport.unusedEndpoints _) as [|e es]; [done|].
  cbn [length Nat.eqb]. unfold sendNotifications, sendWebhookNotification, postAndCheck.
  rewrite Hhook. rewrite !elem_of_app. right. left. left.
  cbn [app map fst concat]. left.
Qed.

(** C8.  When the generated report has no unused endpoint the tick only
    logs that nothing is sent: no POST to the webhook or to Slack, no
    e-mail, no HTML report. *)
Theorem C8_no_unused_no_notification (trackerCfg : EndpointUsageConfig)
    (daysBefore : Z → Z → option Z) (config : ReportConfig)
    (routes later : list RouteInfo.t) (fetch : string → FetchResult)
    (clock : ReportClock) (r : Redis) :
  UsageReport.unusedEndpoints
    (generateReport trackerCfg daysBefore config routes later clock r) = [] →
  let effects :=
    generateAndSendReport trackerCfg daysBefore config routes later fetch clock (Some r) in
  effects = [ConsoleLog "No unused endpoints found, report not sent."]
  ∧ Forall (λ e, isDelivery e = false) effects.
Proof.
  intros Hunused effects. subst effects. unfold generateAndSendReport.
  rewrite Hunused. cbn [length Nat.eqb]. split; [done|].
  by repeat constructor.
Qed.

Lemma C8_witness :
  UsageReport.unusedEndpoints
    (generateReport sampleConfig utcDaysBefore sampleReportConfig
       [healthRoute] [healthRoute] (steadyClock 86460000) healthStore) = []
  ∧ generateAndSendReport sampleConfig utcDaysBefore sampleReportConfig
      [healthRoute] [healthRoute] sampleFetch (steadyClock 86460000) (Some healthStore)
    = [ConsoleLog "No unused endpoints found, report not sent."].
Proof.
  assert (H : UsageReport.unusedEndpoints
                (generateReport sampleConfig utcDaysBefore sampleReportConfig
                   [healthRoute] [healthRoute] (steadyClock 86460000) healthStore) = [])
    by (by vm_compute).
  split; [exact H|].
  exact (proj1 (C8_no_unused_no_notification sampleConfig utcDaysBefore
                  sampleReportConfig [healthRoute] [healthRoute] sampleFetch
                  (steadyClock 86460000) healthStore H)).
Defined.

(** The same configuration does deliver once the route has gone stale. *)
Example stale_route_is_delivered :
  generateAndSendReport sampleConfig utcDaysBefore sampleReportConfig
    [healthRoute] [healthRoute] sampleFetch
    (steadyClock (60000 + 31 * 86400000)) (Some healthStore)
  = [ ConsoleLog "1 unused endpoints detected.";
      FetchPost "https://example.org/hook";
      FetchPost "https://example.org/slack";
      ConsoleLog "Email notification placeholder - implement with nodemailer";
      ConsoleLog "HTML report will be saved to ./endpoint-report-2678460000.html" ].
Proof. by vm_compute. Qed.

(** ** The model on the scenarios of the specification *)

Example normalize_numeric_segments :
  normalizeEndpoint sampleConfig "get" "/posts/9/comments/7?page=2"
  = "GET:/posts/:id/comments/:id".
Proof. reflexivity. Qed.

Example normalize_uuid_segment :
  normalizeEndpoint sampleConfig "GET" "/files/abcdefab-abcd-abcd-abcd-abcdefabcdef/raw"
  = "GET:/files/:uuid/raw".
Proof. reflexivity. Qed.

Example sample_global_record :
  map (λ f, hgetall sampleStore (globalKey sampleConfig "GET:/users/:id") !! f)
    ["count"; "status_200"; "first_accessed"; "last_accessed";
     "total_response_time"; "response_count"]
  = [Some 3; Some 3; Some 60000; Some 120000; Some 600; Some 3].
Proof. by vm_compute. Qed.

Example sample_global_stats :
  map (λ stat, (EndpointStats.method stat, EndpointStats.path stat,
                EndpointStats.count stat, EndpointStats.averageResponseTime stat))
    (getEndpointStats sampleConfig None None sampleStore)
  = [("GET", Some "/users/", 3, Some (Num 200))].
Proof. by vm_compute. Qed.

Example sample_percentiles :
  map (λ stat, EndpointStats.performance stat ≫= PerformanceMetrics.p50ResponseTime)
    (getPerformanceStats sampleConfig None None sampleStore)
  = [Some 200].
Proof. by vm_compute. Qed.

Example sample_unused_after_45_days :
  length (getUnusedEndpoints sampleConfig utcDaysBefore
            (120000 + 45 * 86400000) 30 sampleStore) = 1%nat
  ∧ length (getUnusedEndpoints sampleConfig utcDaysBefore
              (120000 + 45 * 86400000) 50 sampleStore) = 0%nat.
Proof. split; by vm_compute. Qed.

Example pruning_drops_old_buckets :
  let later :=
    trackUsage sampleDate sampleConfig 4000000 4000000
      (sampleRequest "/users/1" (Some 150)) sampleStore in
  map (λ f, hgetall later (performanceKey sampleConfig "GET:/users/:id") !! f)
    ["throughput_60000"; "throughput_120000"; "throughput_3960000"; "total_requests"]
  = [None; None; Some 1; Some 4].
Proof. by vm_compute. Qed.

Example excluded_path_is_not_tracked :
  let cfg :=
    {| keyPrefix := "endpoint_usage"; trackingEnabled := true;
       excludePaths := ["/health"]; includeQueryParams := false;
       performanceTracking := {| perfEnabled := true; slowThresholdMs := 1000 |} |} in
  trackUsage sampleDate cfg 60000 60000 (sampleRequest "/healthz" (Some 5)) emptyRedis
  = emptyRedis.
Proof. reflexivity. Qed.

(** ** Decimal text *)

Lemma pretty_N_char_digit (n : N) :
  (n < 10)%N →
  isDigit (pretty_N_char n) = true ∧ (code (pretty_N_char n) - 48)%N = n.
Proof.
  intros Hn.
  assert (n = 0 ∨ n = 1 ∨ n = 2 ∨ n = 3 ∨ n = 4 ∨ n = 5 ∨ n = 6 ∨ n = 7
          ∨ n = 8 ∨ n = 9)%N as Hcases by lia.
  destruct_or!; subst; by vm_compute.
Qed.

(** Reading the digits written for a positive number gives it back. *)
Lemma digits_pretty_N_go (x : N) (acc : option Z) (s : string) :
  (0 < x)%N → default 0 acc = 0 →
  digits acc (pretty_N_go x s) = digits (Some (Z.of_N x)) s.
Proof.
  revert acc s. induction (N.lt_wf_0 x) as [x _ IH]. intros acc s Hx Hacc.
  rewrite pretty_N_go_step by done.
  destruct (pretty_N_char_digit (x `mod` 10)) as [Hd Hc];
    [by apply N.mod_lt|].
  pose proof (N.div_mod x 10 ltac:(done)) as Hx10.
  assert (Hlt : (x `div` 10 < x)%N) by (by apply N.div_lt).
  set (q := (x `div` 10)%N) in *. set (m := (x `mod` 10)%N) in *.
  destruct (decide (q = 0)%N) as [Hz|Hnz].
  - rewrite Hz, pretty_N_go_0. cbn [digits]. rewrite Hd, Hc, Hacc.
    clearbody q m. do 2 f_equal. clear -Hx10 Hz. lia.
  - rewrite IH; [|done|clearbody q m; clear -Hnz; lia|done].
    cbn [digits]. rewrite Hd, Hc. cbn [default].
    clearbody q m. do 2 f_equal. clear -Hx10. unfold id. lia.
Qed.

(** The text of a positive number starts with a digit. *)
Lemma pretty_N_go_head (x : N) (s : string) :
  (0 < x)%N → ∃ d t, pretty_N_go x s = String d t ∧ isDigit d = true.
Proof.
  revert s. induction (N.lt_wf_0 x) as [x _ IH]. intros s Hx.
  rewrite pretty_N_go_step by done.
  destruct (pretty_N_char_digit (x `mod` 10)) as [Hd _];
    [by apply N.mod_lt|].
  assert (Hlt : (x `div` 10 < x)%N) by (by apply N.div_lt).
  set (q := (x `div` 10)%N) in *.
  destruct (decide (q = 0)%N) as [Hz|Hnz].
  - rewrite Hz, pretty_N_go_0. eauto.
  - apply IH; [done|clearbody q; clear -Hnz; lia].
Qed.

Lemma parseInt_digit_led (d : ascii) (t : string) :
  isDigit d = true → parseInt (String d t) = digits None (String d t).
Proof.
  destruct d as [[] [] [] [] [] [] [] []]; first [discriminate|reflexivity].
Qed.

Lemma parseInt_pretty_pos (p : positive) :
  parseInt (pretty (N.pos p)) = Some (Z.pos p)
  ∧ digits None (pretty (N.pos p)) = Some (Z.pos p).
Proof.
  unfold pretty, pretty_N. rewrite decide_False by done.
  assert (Hd : digits None (pretty_N_go (N.pos p) "") = Some (Z.pos p)).
  { by rewrite digits_pretty_N_go. }
  split; [|done].
  destruct (pretty_N_go_head (N.pos p) "") as (d & t & Heq & Hdigit); [done|].
  rewrite Heq in *. by rewrite parseInt_digit_led.
Qed.

Lemma parseInt_pretty (z : Z) : parseInt (pretty z) = Some z.
Proof.
  destruct z as [|p|p]; [done|..]; unfold pretty, pretty_Z.
  - apply parseInt_pretty_pos.
  - change (pretty p) with (pretty (N.pos p)).
    destruct (pretty (N.pos p)) eqn:E.
    + pose proof (proj2 (parseInt_pretty_pos p)) as H. by rewrite E in H.
    + rewrite append_cons, append_nil. cbn [parseInt].
      rewrite <- E, (proj2 (parseInt_pretty_pos p)). done.
Qed.

(** ** Keys *)

Lemma append_inj_r (a b c : string) : a +:+ b = a +:+ c → b = c.
Proof.
  induction a as [|x a IH]; [done|].
  rewrite !append_cons. intros [= H]. by apply IH.
Qed.

Lemma globalKey_inj (cfg : EndpointUsageConfig) (e e' : string) :
  globalKey cfg e = globalKey cfg e' → e = e'.
Proof. unfold globalKey. intros H%append_inj_r. by apply (append_inj_r ":global:"). Qed.

Lemma performanceKey_inj (cfg : EndpointUsageConfig) (e e' : string) :
  performanceKey cfg e = performanceKey cfg e' → e = e'.
Proof.
  unfold performanceKey. intros H%append_inj_r. by apply (append_inj_r ":performance:").
Qed.

Lemma rawKey_inj (cfg : EndpointUsageConfig) (e e' : string) :
  rawKey cfg e = rawKey cfg e' → e = e'.
Proof. unfold rawKey. intros H%append_inj_r. by apply (append_inj_r ":raw:"). Qed.

(** The keys of the four families never coincide. *)
Lemma family_keys_distinct (isoDate : Z → string) (cfg : EndpointUsageConfig)
    (today : Z) (e1 e2 e3 e4 : string) :
  globalKey cfg e1 ≠ dailyKey isoDate cfg today e2
  ∧ globalKey cfg e1 ≠ performanceKey cfg e3
  ∧ globalKey cfg e1 ≠ rawKey cfg e4
  ∧ dailyKey isoDate cfg today e2 ≠ performanceKey cfg e3
  ∧ dailyKey isoDate cfg today e2 ≠ rawKey cfg e4
  ∧ performanceKey cfg e3 ≠ rawKey cfg e4.
Proof.
  unfold globalKey, dailyKey, performanceKey, rawKey.
  repeat split; intros H%append_inj_r; discriminate H.
Qed.

(** ** Pipelines at their own key and at other keys *)

Lemma exec_other_key (r : Redis) (c : Command) (key : string) :
  hashKey c ≠ Some key → hgetall (exec r c) key = hgetall r key.
Proof.
  intros Hk. apply map_eq. intros f. rewrite exec_field.
  unfold fieldAfter. by rewrite decide_False.
Qed.

Lemma pipeline_other_key (pipeline : list Command) (r : Redis) (key : string) :
  Forall (λ c, hashKey c ≠ Some key) pipeline →
  hgetall (pipelineExec r pipeline) key = hgetall r key.
Proof.
  unfold pipelineExec. revert r.
  induction pipeline as [|c pipeline IH]; intros r Hall; [done|].
  apply Forall_cons in Hall as [Hc Hall]. cbn [foldl].
  by rewrite IH, exec_other_key.
Qed.

Lemma pipeline_own_key (pipeline : list Command) (r : Redis) (key f : string) :
  Forall (λ c, hashKey c = Some key ∨ hashKey c = None) pipeline →
  hgetall (pipelineExec r pipeline) key !! f
  = foldl (λ v c, fieldStep c f v) (hgetall r key !! f) pipeline.
Proof.
  unfold pipelineExec. revert r.
  induction pipeline as [|c pipeline IH]; intros r Hall; [done|].
  apply Forall_cons in Hall as [Hc Hall]. cbn [foldl].
  rewrite IH by done. f_equal. rewrite exec_field. unfold fieldAfter.
  case_decide as Hk; [done|]. destruct Hc as [Hc|Hc]; [done|].
  by destruct c.
Qed.

Lemma foldl_fieldStep_unmentioned (pipeline : list Command) (f : string)
    (v : option Z) :
  Forall (λ c, mentions c f = false) pipeline →
  foldl (λ v c, fieldStep c f v) v pipeline = v.
Proof.
  revert v. induction pipeline as [|c pipeline IH]; intros v Hall; [done|].
  apply Forall_cons in Hall as [Hc Hall]. cbn [foldl]. rewrite IH by done.
  destruct c; simpl in *; try done;
    apply bool_decide_eq_false in Hc; by rewrite decide_False.
Qed.

Section OwnKeys.
Context (isoDate : Z → string) (cfg : EndpointUsageConfig).
Context (today : Z) (endpoint : string) (data : UsageData.t).

Lemma dailyPipeline_keys :
  Forall (λ c, hashKey c = Some (dailyKey isoDate cfg today endpoint)
               ∨ hashKey c = None)
    (dailyPipeline isoDate cfg today endpoint data).
Proof.
  unfold dailyPipeline, dailyKey.
  each_command ltac:(first [by left | by right]).
Qed.

Lemma countersPipeline_keys :
  Forall (λ c, hashKey c = Some (globalKey cfg endpoint) ∨ hashKey c = None)
    (countersPipeline cfg endpoint data).
Proof.
  unfold countersPipeline, globalKey.
  each_command ltac:(first [by left | by right]).
Qed.

Lemma performancePipeline_keys :
  Forall (λ c, hashKey c = Some (performanceKey cfg endpoint) ∨ hashKey c = None)
    (performancePipeline cfg endpoint data).
Proof.
  unfold performancePipeline, performanceKey.
  each_command ltac:(first [by left | by right]).
Qed.

End OwnKeys.

Lemma keys_elsewhere (pipeline : list Command) (own key : string) :
  own ≠ key →
  Forall (λ c, hashKey c = Some own ∨ hashKey c = None) pipeline →
  Forall (λ c, hashKey c ≠ Some key) pipeline.
Proof.
  intros Hne Hall. eapply Forall_impl; [exact Hall|].
  intros c [Hc|Hc]; rewrite Hc; congruence.
Qed.

Lemma cleanup_other_key (perfKey key : string) (currentTimestamp : Z) (r : Redis) :
  perfKey ≠ key →
  hgetall (cleanupOldThroughputData perfKey currentTimestamp r) key = hgetall r key.
Proof.
  intros Hne. unfold cleanupOldThroughputData.
  destruct (0 <? length _)%nat; [|done].
  apply exec_other_key. simpl. congruence.
Qed.

Lemma cleanup_other_field (perfKey key f : string) (currentTimestamp : Z) (r : Redis) :
  startsWith f "throughput_" = false →
  hgetall (cleanupOldThroughputData perfKey currentTimestamp r) key !! f
  = hgetall r key !! f.
Proof.
  intros Hf. symmetry. apply (cleanup_field eq).
  intros fields Hfields v. symmetry. by apply hdel_throughput_untouched.
Qed.

(** ** What one pipeline does to the fields of its record *)

Ltac field_steps :=
  cbn [foldl app fieldStep];
  repeat first [ rewrite decide_True by reflexivity
               | rewrite decide_False by discriminate ].

Ltac not_named :=
  cbn [mentions]; first [ reflexivity | apply bool_decide_eq_false; discriminate ].

(** Drops from a fold over a pipeline the segments that do not name [f]. *)
Ltac skip_segments f :=
  rewrite ?foldl_app;
  repeat match goal with
         | |- context [foldl ?F ?x ?seg] =>
             rewrite (foldl_fieldStep_unmentioned seg f x)
               by (each_command not_named)
         end.

Lemma status_field_eq (a b : Z) :
  "status_" +:+ pretty a = "status_" +:+ pretty b ↔ a = b.
Proof.
  split; [|by intros ->].
  intros H%append_inj_r. by apply (inj pretty).
Qed.

Section PipelineEffects.
Context (isoDate : Z → string) (cfg : EndpointUsageConfig).
Context (today : Z) (endpoint : string) (data : UsageData.t) (v : option Z).

Let step (pipeline : list Command) (f : string) : option Z :=
  foldl (λ v c, fieldStep c f v) v pipeline.

Let measured : Z :=
  match truthy (UsageData.responseTime data) with Some _ => 1 | None => 0 end.

Lemma counters_count :
  step (countersPipeline cfg endpoint data) "count" = Some (default 0 v + 1).
Proof.
  unfold step, countersPipeline.
  destruct (truthy (UsageData.responseTime data)); by field_steps.
Qed.



Lemma counters_response_count :
  default 0 (step (countersPipeline cfg endpoint data) "response_count")
  = default 0 v + measured.
Proof.
  unfold step, measured, countersPipeline.
  destruct (truthy (UsageData.responseTime data)); field_steps; simpl; lia.
Qed.

Lemma counters_total_response_time :
  default 0 (step (countersPipeline cfg endpoint data) "total_response_time")
  = default 0 v + default 0 (truthy (UsageData.responseTime data)).
Proof.
  unfold step, countersPipeline.
  destruct (truthy (UsageData.responseTime data)); field_steps; simpl; lia.
Qed.

Lemma counters_status (code : Z) :
  default 0 (step (countersPipeline cfg endpoint data) ("status_" +:+ pretty code))
  = default 0 v + (if decide (UsageData.statusCode data = code) then 1 else 0).
Proof.
  unfold step, countersPipeline.
  destruct (decide (UsageData.statusCode data = code)) as [->|Hne];
    destruct (truthy (UsageData.responseTime data)); field_steps.
  1,2: simpl; lia.
  all: rewrite decide_False by (by rewrite status_field_eq); simpl; lia.
Qed.

Lemma performance_total_requests :
  step (performancePipeline cfg endpoint data) "total_requests"
  = Some (default 0 v + 1).
Proof.
  unfold step, performancePipeline. skip_segments "total_requests".
  by field_steps.
Qed.

Lemma performance_error_requests :
  default 0 (step (performancePipeline cfg endpoint data) "error_requests")
  = default 0 v + (if 400 <=? UsageData.statusCode data then 1 else 0).
Proof.
  unfold step, performancePipeline. skip_segments "error_requests".
  destruct (400 <=? UsageData.statusCode data); field_steps; simpl; lia.
Qed.

Lemma performance_slow_requests :
  default 0 (step (performancePipeline cfg endpoint data) "slow_requests")
  = default 0 v
    + match truthy (UsageData.responseTime data) with
      | Some x => if slowThresholdMs (performanceTracking cfg) <? x then 1 else 0
      | None => 0
      end.
Proof.
  unfold step, performancePipeline. skip_segments "slow_requests".
  destruct (truthy (UsageData.responseTime data)) as [x|];
    [destruct (slowThresholdMs _ <? x)|]; field_steps; simpl; lia.
Qed.

Lemma performance_response_count :
  default 0 (step (performancePipeline cfg endpoint data) "response_count")
  = default 0 v + measured.
Proof.
  unfold step, measured, performancePipeline. skip_segments "response_count".
  destruct (truthy (UsageData.responseTime data)) as [x|];
    [destruct (slowThresholdMs _ <? x)|]; field_steps; simpl; lia.
Qed.

Lemma performance_bucket :
  step (performancePipeline cfg endpoint data)
    ("throughput_" +:+ pretty (UsageData.timestamp data / 60000 * 60000))
  = Some (default 0 v + 1).
Proof.
  unfold step, performancePipeline.
  set (bucket := "throughput_" +:+ pretty (UsageData.timestamp data / 60000 * 60000)).
  rewrite ?foldl_app.
  repeat match goal with
         | |- context [foldl ?F ?x ?seg] =>
             rewrite (foldl_fieldStep_unmentioned seg bucket x)
               by (subst bucket; each_command not_named)
         end.
  cbn [foldl fieldStep]. by rewrite decide_True.
Qed.

End PipelineEffects.

(** ** One call, record by record *)

Lemma updatePerformanceStats_other_key (cfg : EndpointUsageConfig)
    (endpoint : string) (data : UsageData.t) (r : Redis) (key : string) :
  performanceKey cfg endpoint ≠ key →
  hgetall (updatePerformanceStats cfg endpoint data r) key = hgetall r key.
Proof.
  intros Hne. unfold updatePerformanceStats.
  destruct (negb _); [done|].
  rewrite cleanup_other_key by done.
  apply pipeline_other_key.
  eapply keys_elsewhere; [exact Hne|apply performancePipeline_keys].
Qed.

Section CallRecords.
Context (isoDate : Z → string) (cfg : EndpointUsageConfig).
Context (now today : Z) (usageData : UsageData.t) (r : Redis).

Let endpoint : string :=
  normalizeEndpoint cfg (UsageData.method usageData) (UsageData.path usageData).
Let data : UsageData.t := stamp usageData now.
Let r' : Redis := trackUsage isoDate cfg now today usageData r.

Lemma trackUsage_untracked :
  shouldTrackPath cfg (UsageData.path usageData) = false → r' = r.
Proof. intros H. unfold r', trackUsage. by rewrite H. Qed.

(** The global record of [endpoint'] after a tracked call: the counters
    pipeline applied to it when the call is for that endpoint, the record
    as it was otherwise. *)
Lemma trackUsage_at_global (endpoint' f : string) :
  shouldTrackPath cfg (UsageData.path usageData) = true →
  hgetall r' (globalKey cfg endpoint') !! f
  = if decide (endpoint = endpoint')
    then foldl (λ v c, fieldStep c f v) (hgetall r (globalKey cfg endpoint') !! f)
           (countersPipeline cfg endpoint data)
    else hgetall r (globalKey cfg endpoint') !! f.
Proof.
  intros Htrack. unfold r', trackUsage. rewrite Htrack. cbn [negb]. cbv zeta.
  fold endpoint data.
  destruct (family_keys_distinct isoDate cfg today endpoint' endpoint endpoint endpoint)
    as (Hdaily & Hperf & Hraw & _).
  rewrite updatePerformanceStats_other_key by done.
  assert (Hbefore :
            hgetall (updateDailyStats isoDate cfg today endpoint data
                       (exec (exec r (lpush (keyPrefix cfg +:+ ":raw:" +:+ endpoint) data))
                          (expire (keyPrefix cfg +:+ ":raw:" +:+ endpoint)
                             (30 * 24 * 60 * 60))))
              (globalKey cfg endpoint')
            = hgetall r (globalKey cfg endpoint')).
  { unfold updateDailyStats. rewrite pipeline_other_key.
    - by rewrite !exec_other_key.
    - eapply keys_elsewhere; [|apply dailyPipeline_keys]. done. }
  unfold updateCounters. case_decide as He.
  - subst endpoint'. rewrite pipeline_own_key by apply countersPipeline_keys.
    by rewrite Hbefore.
  - rewrite pipeline_other_key; [by rewrite Hbefore|].
    eapply keys_elsewhere; [|apply countersPipeline_keys].
    intros Heq%globalKey_inj. done.
Qed.

(** The same for the performance record, for the fields other than the
    throughput buckets. *)
Lemma trackUsage_at_performance (endpoint' f : string) :
  shouldTrackPath cfg (UsageData.path usageData) = true →
  perfEnabled (performanceTracking cfg) = true →
  startsWith f "throughput_" = false →
  hgetall r' (performanceKey cfg endpoint') !! f
  = if decide (endpoint = endpoint')
    then foldl (λ v c, fieldStep c f v)
           (hgetall r (performanceKey cfg endpoint') !! f)
           (performancePipeline cfg endpoint data)
    else hgetall r (performanceKey cfg endpoint') !! f.
Proof.
  intros Htrack Hen Hf. unfold r', trackUsage. rewrite Htrack. cbn [negb]. cbv zeta.
  fold endpoint data.
  destruct (family_keys_distinct isoDate cfg today endpoint endpoint endpoint' endpoint)
    as (_ & Hglobal & _ & Hdaily & _ & Hraw).
  set (r4 := updateCounters cfg endpoint data _).
  assert (Hbefore : hgetall r4 (performanceKey cfg endpoint')
                    = hgetall r (performanceKey cfg endpoint')).
  { unfold r4, updateCounters, updateDailyStats.
    rewrite pipeline_other_key
      by (eapply keys_elsewhere; [|apply countersPipeline_keys]; done).
    rewrite pipeline_other_key
      by (eapply keys_elsewhere; [|apply dailyPipeline_keys]; done).
    by rewrite !exec_other_key. }
  case_decide as He.
  - unfold updatePerformanceStats. rewrite Hen. cbn [negb].
    rewrite cleanup_other_field by done.
    subst endpoint'. rewrite pipeline_own_key by apply performancePipeline_keys.
    by rewrite Hbefore.
  - rewrite updatePerformanceStats_other_key; [by rewrite Hbefore|].
    intros Heq%performanceKey_inj. done.
Qed.

End CallRecords.

(** ** Lists and times to live *)

Lemma exec_lists (r : Redis) (c : Command) :
  lists (exec r c)
  = match c with
    | lpush k v => <[k := v :: default [] (lists r !! k)]> (lists r)
    | _ => lists r
    end.
Proof.
  destruct c; simpl; try done.
  - by destruct (hgetall r key !! field).
  - by case_bool_decide.
Qed.

Lemma exec_clock (r : Redis) (c : Command) : clock (exec r c) = clock r.
Proof.
  destruct c; simpl; try done.
  - by destruct (hgetall r key !! field).
  - by case_bool_decide.
Qed.

Lemma pipelineExec_app (r : Redis) (p1 p2 : list Command) :
  pipelineExec r (p1 ++ p2) = pipelineExec (pipelineExec r p1) p2.
Proof. apply foldl_app. Qed.

Lemma pipeline_lists (pipeline : list Command) (r : Redis) :
  Forall (λ c, ∀ k v, c ≠ lpush k v) pipeline →
  lists (pipelineExec r pipeline) = lists r.
Proof.
  unfold pipelineExec. revert r.
  induction pipeline as [|c pipeline IH]; intros r Hall; [done|].
  apply Forall_cons in Hall as [Hc Hall]. cbn [foldl].
  rewrite IH, exec_lists by done. destruct c; try done. by destruct (Hc key v).
Qed.

Lemma pipeline_clock (pipeline : list Command) (r : Redis) :
  clock (pipelineExec r pipeline) = clock r.
Proof.
  unfold pipelineExec. revert r.
  induction pipeline as [|c pipeline IH]; intros r; [done|].
  cbn [foldl]. by rewrite IH, exec_clock.
Qed.

(** Pruning buckets leaves the record in existence, as it has a field
    that is no bucket, and so changes no list and no time to live. *)
Lemma cleanup_store (perfKey f : string) (currentTimestamp : Z) (r : Redis) :
  startsWith f "throughput_" = false →
  is_Some (hgetall r perfKey !! f) →
  lists (cleanupOldThroughputData perfKey currentTimestamp r) = lists r
  ∧ expiry (cleanupOldThroughputData perfKey currentTimestamp r) = expiry r
  ∧ deadline (cleanupOldThroughputData perfKey currentTimestamp r) = deadline r
  ∧ clock (cleanupOldThroughputData perfKey currentTimestamp r) = clock r.
Proof.
  intros Hf Hsome. unfold cleanupOldThroughputData.
  destruct (0 <? length _)%nat; [|done].
  cbn [exec]. unfold setHash. cbn [lists expiry deadline clock].
  rewrite !decide_False; [done|..];
    intros Hempty;
    assert (Hnone : foldr delete (hgetall r perfKey)
                      (fieldsToDelete (hgetall r perfKey) currentTimestamp) !! f = None)
      by (by rewrite Hempty);
    rewrite lookup_foldr_delete in Hnone;
    (destruct (decide (f ∈ fieldsToDelete (hgetall r perfKey) currentTimestamp))
       as [Hin|_]; [|by rewrite Hnone in Hsome; destruct Hsome]);
    unfold fieldsToDelete in Hin;
    apply list_elem_of_filter in Hin as [_ Hin];
    apply list_elem_of_filter in Hin as [Hin _]; congruence.
Qed.

Lemma exec_writesTo (r : Redis) (c : Command) (key : string) :
  writesTo key c →
  is_Some (hashes (exec r c) !! key)
  ∧ expiry (exec r c) = expiry r
  ∧ lists (exec r c) = lists r
  ∧ deadline (exec r c) = deadline r.
Proof.
  assert (Hset : ∀ f v h,
            is_Some (hashes (setHash r key (<[f := v]> h)) !! key)
            ∧ expiry (setHash r key (<[f := v]> h)) = expiry r
            ∧ lists (setHash r key (<[f := v]> h)) = lists r
            ∧ deadline (setHash r key (<[f := v]> h)) = deadline r).
  { intros f v h. unfold setHash. simpl.
    rewrite !decide_False by apply insert_non_empty.
    rewrite lookup_insert_eq. split; [by eexists|done]. }
  destruct c; simpl; try done; intros ->; try apply Hset.
  destruct (hgetall r key !! field) as [y|] eqn:Hf; [|apply Hset].
  split; [|done]. unfold hgetall in Hf.
  destruct (hashes r !! key); [by eexists|done].
Qed.

(** A run of writes to one hash leaves it in existence and changes neither
    a time to live nor a list. *)
Lemma writes_alive (pipeline : list Command) (key : string) (r : Redis) :
  Forall (writesTo key) pipeline →
  pipeline ≠ [] ∨ is_Some (hashes r !! key) →
  is_Some (hashes (pipelineExec r pipeline) !! key)
  ∧ expiry (pipelineExec r pipeline) = expiry r
  ∧ lists (pipelineExec r pipeline) = lists r
  ∧ deadline (pipelineExec r pipeline) = deadline r.
Proof.
  unfold pipelineExec. revert r.
  induction pipeline as [|c pipeline IH]; intros r Hall Hstart.
  { by destruct Hstart. }
  apply Forall_cons in Hall as [Hc Hall]. cbn [foldl].
  destruct (exec_writesTo r c key Hc) as (Halive & Hexp & Hlists & Hdead).
  destruct (IH (exec r c) Hall (or_intror Halive)) as (? & -> & -> & ->). done.
Qed.

(** A non-empty run of writes to one hash followed by [expire] on it sets
    its time to live, counted from the instant the clock shows, and
    nothing else in the table of times to live. *)
Lemma pipeline_then_expire (body : list Command) (key : string) (seconds : Z)
    (r : Redis) :
  Forall (writesTo key) body → body ≠ [] →
  expiry (pipelineExec r (body ++ [expire key seconds]))
  = <[key := seconds]> (expiry r)
  ∧ deadline (pipelineExec r (body ++ [expire key seconds]))
    = <[key := clock r + seconds * 1000]> (deadline r).
Proof.
  intros Hbody Hne. rewrite pipelineExec_app.
  destruct (writes_alive body key r Hbody (or_introl Hne)) as (Halive & Hexp & _ & Hdead).
  unfold pipelineExec at 1 3. cbn [foldl exec].
  rewrite bool_decide_eq_true_2 by (by left). simpl.
  by rewrite Hexp, Hdead, pipeline_clock.
Qed.

Ltac not_push := let k := fresh in let v := fresh in intros k v; discriminate.

Section StageStores.
Context (isoDate : Z → string) (cfg : EndpointUsageConfig).
Context (today : Z) (endpoint : string) (data : UsageData.t) (r : Redis).

Lemma updateDailyStats_store :
  lists (updateDailyStats isoDate cfg today endpoint data r) = lists r
  ∧ expiry (updateDailyStats isoDate cfg today endpoint data r)
    = <[dailyKey isoDate cfg today endpoint := 90 * 24 * 60 * 60]> (expiry r)
  ∧ deadline (updateDailyStats isoDate cfg today endpoint data r)
    = <[dailyKey isoDate cfg today endpoint := clock r + 7776000000]> (deadline r)
  ∧ clock (updateDailyStats isoDate cfg today endpoint data r) = clock r.
Proof.
  unfold updateDailyStats. split; [|split; [|split]].
  - apply pipeline_lists. unfold dailyPipeline. each_command not_push.
  - unfold dailyPipeline, dailyKey. rewrite app_assoc.
    apply pipeline_then_expire; [|done].
    each_command ltac:(reflexivity).
  - unfold dailyPipeline, dailyKey. rewrite app_assoc.
    apply pipeline_then_expire; [|done].
    each_command ltac:(reflexivity).
  - apply pipeline_clock.
Qed.

Lemma updateCounters_store :
  lists (updateCounters cfg endpoint data r) = lists r
  ∧ expiry (updateCounters cfg endpoint data r) = expiry r
  ∧ deadline (updateCounters cfg endpoint data r) = deadline r
  ∧ clock (updateCounters cfg endpoint data r) = clock r.
Proof.
  unfold updateCounters.
  destruct (writes_alive (countersPipeline cfg endpoint data)
              (keyPrefix cfg +:+ ":global:" +:+ endpoint) r) as (_ & ? & ? & ?);
    [|by left|by rewrite pipeline_clock].
  unfold countersPipeline. each_command ltac:(reflexivity).
Qed.

Lemma updatePerformanceStats_store :
  lists (updatePerformanceStats cfg endpoint data r) = lists r
  ∧ expiry (updatePerformanceStats cfg endpoint data r)
    = (if perfEnabled (performanceTracking cfg)
       then <[performanceKey cfg endpoint := 90 * 24 * 60 * 60]> (expiry r)
       else expiry r)
  ∧ deadline (updatePerformanceStats cfg endpoint data r)
    = (if perfEnabled (performanceTracking cfg)
       then <[performanceKey cfg endpoint := clock r + 7776000000]> (deadline r)
       else deadline r)
  ∧ clock (updatePerformanceStats cfg endpoint data r) = clock r.
Proof.
  unfold updatePerformanceStats.
  destruct (perfEnabled (performanceTracking cfg)); [|done]. cbn [negb].
  destruct (cleanup_store (keyPrefix cfg +:+ ":performance:" +:+ endpoint)
              "total_requests" (UsageData.timestamp data)
              (pipelineExec r (performancePipeline cfg endpoint data)))
    as (-> & -> & -> & ->); [done| |].
  { fold (performanceKey cfg endpoint).
    rewrite pipeline_own_key by apply performancePipeline_keys.
    rewrite performance_total_requests. by eexists. }
  split; [|split; [|split]].
  - apply pipeline_lists. unfold performancePipeline. each_command not_push.
  - unfold performancePipeline, performanceKey. rewrite !app_assoc.
    apply pipeline_then_expire.
    + each_command ltac:(reflexivity).
    + rewrite <- !app_assoc. done.
  - unfold performancePipeline, performanceKey. rewrite !app_assoc.
    apply pipeline_then_expire.
    + each_command ltac:(reflexivity).
    + rewrite <- !app_assoc. done.
  - apply pipeline_clock.
Qed.

End StageStores.

Section CallStores.
Context (isoDate : Z → string) (cfg : EndpointUsageConfig).
Context (now today : Z) (usageData : UsageData.t) (r : Redis).

Let endpoint : string :=
  normalizeEndpoint cfg (UsageData.method usageData) (UsageData.path usageData).
Let r' : Redis := trackUsage isoDate cfg now today usageData r.

(** A call leaves the clock of the store alone. *)
Lemma trackUsage_clock : clock r' = clock r.
Proof.
  unfold r', trackUsage.
  destruct (shouldTrackPath cfg (UsageData.path usageData)); [|done].
  cbn [negb]. cbv zeta.
  rewrite (proj2 (proj2 (proj2 (updatePerformanceStats_store _ _ _ _)))).
  rewrite (proj2 (proj2 (proj2 (updateCounters_store _ _ _ _)))).
  rewrite (proj2 (proj2 (proj2 (updateDailyStats_store _ _ _ _ _ _)))).
  by rewrite !exec_clock.
Qed.

(** A tracked call changes exactly one list: it puts the stamped event at
    the head of the raw list of its endpoint. *)
Lemma trackUsage_lists :
  shouldTrackPath cfg (UsageData.path usageData) = true →
  lists r'
  = <[rawKey cfg endpoint :=
        stamp usageData now :: default [] (lists r !! rawKey cfg endpoint)]> (lists r).
Proof.
  intros Htrack. unfold r', trackUsage. rewrite Htrack. cbn [negb]. cbv zeta.
  fold endpoint.
  rewrite (proj1 (updatePerformanceStats_store _ _ _ _)).
  rewrite (proj1 (updateCounters_store _ _ _ _)).
  rewrite (proj1 (updateDailyStats_store _ _ _ _ _ _)).
  by rewrite !exec_lists.
Qed.

(** The times to live a tracked call sets. *)
Lemma trackUsage_expiry :
  shouldTrackPath cfg (UsageData.path usageData) = true →
  expiry r'
  = (if perfEnabled (performanceTracking cfg)
     then <[performanceKey cfg endpoint := 90 * 24 * 60 * 60]>
     else id)
      (<[dailyKey isoDate cfg today endpoint := 90 * 24 * 60 * 60]>
         (<[rawKey cfg endpoint := 30 * 24 * 60 * 60]> (expiry r))).
Proof.
  intros Htrack. unfold r', trackUsage. rewrite Htrack. cbn [negb]. cbv zeta.
  fold endpoint.
  rewrite (proj1 (proj2 (updatePerformanceStats_store _ _ _ _))).
  rewrite (proj1 (proj2 (updateCounters_store _ _ _ _))).
  rewrite (proj1 (proj2 (updateDailyStats_store _ _ _ _ _ _))).
  assert (Hraw : expiry (exec (exec r (lpush (keyPrefix cfg +:+ ":raw:" +:+ endpoint)
                                         (stamp usageData now)))
                           (expire (keyPrefix cfg +:+ ":raw:" +:+ endpoint)
                              (30 * 24 * 60 * 60)))
                 = <[rawKey cfg endpoint := 30 * 24 * 60 * 60]> (expiry r)).
  { cbn [exec]. rewrite bool_decide_eq_true_2; [done|].
    right. simpl. rewrite lookup_insert_eq. by eexists. }
  rewrite Hraw. by destruct (perfEnabled (performanceTracking cfg)).
Qed.

(** The instants at which the keys a tracked call has written run out of
    time: 30 days after the call for the raw list, 90 days after it for
    the daily and the performance record. *)
Lemma trackUsage_deadline :
  shouldTrackPath cfg (UsageData.path usageData) = true →
  deadline r'
  = (if perfEnabled (performanceTracking cfg)
     then <[performanceKey cfg endpoint := clock r + 7776000000]>
     else id)
      (<[dailyKey isoDate cfg today endpoint := clock r + 7776000000]>
         (<[rawKey cfg endpoint := clock r + 2592000000]> (deadline r))).
Proof.
  intros Htrack. unfold r', trackUsage. rewrite Htrack. cbn [negb]. cbv zeta.
  fold endpoint.
  rewrite (proj1 (proj2 (proj2 (updatePerformanceStats_store _ _ _ _)))).
  rewrite (proj1 (proj2 (proj2 (updateCounters_store _ _ _ _)))).
  rewrite (proj1 (proj2 (proj2 (updateDailyStats_store _ _ _ _ _ _)))).
  rewrite (proj2 (proj2 (proj2 (updateCounters_store _ _ _ _)))).
  rewrite (proj2 (proj2 (proj2 (updateDailyStats_store _ _ _ _ _ _)))).
  rewrite !exec_clock.
  assert (Hraw : deadline (exec (exec r (lpush (keyPrefix cfg +:+ ":raw:" +:+ endpoint)
                                           (stamp usageData now)))
                             (expire (keyPrefix cfg +:+ ":raw:" +:+ endpoint)
                                (30 * 24 * 60 * 60)))
                 = <[rawKey cfg endpoint := clock r + 2592000000]> (deadline r)).
  { cbn [exec]. rewrite bool_decide_eq_true_2; [done|].
    right. simpl. rewrite lookup_insert_eq. by eexists. }
  rewrite Hraw. by destruct (perfEnabled (performanceTracking cfg)).
Qed.

End CallStores.

(** ** Records that outlive a sequence of calls *)

Section Survival.
Context (isoDate : Z → string) (cfg : EndpointUsageConfig).



(** A call leaves a key no deadline earlier than the one it had, or than
    30 days after the instant its store shows. *)
Lemma trackUsage_lastsUntil (now today hi : Z) (usageData : UsageData.t)
    (r : Redis) (key : string) :
  hi ≤ clock r + 2592000000 →
  lastsUntil hi r key →
  lastsUntil hi (trackUsage isoDate cfg now today usageData r) key.
Proof.
  intros Hhi Hlast.
  destruct (shouldTrackPath cfg (UsageData.path usageData)) eqn:Htrack;
    [|by rewrite trackUsage_untracked].
  unfold lastsUntil. rewrite trackUsage_deadline by done.
  set (e := normalizeEndpoint cfg _ _).
  assert (Hbelow : ∀ (m : gmap string Z) k x,
            (∀ d, m !! key = Some d → hi ≤ d) → hi ≤ x →
            ∀ d, <[k := x]> m !! key = Some d → hi ≤ d).
  { intros m k x Hm Hx d'. destruct (decide (k = key)) as [->|Hne].
    - rewrite lookup_insert_eq. intros [= <-]. done.
    - rewrite lookup_insert_ne by done. apply Hm. }
  destruct (perfEnabled (performanceTracking cfg)); cbn [id];
    repeat (apply Hbelow; [|lia]); exact Hlast.
Qed.

(** Calls that all arrive within 30 days of the first of them find a key
    alive that had no deadline before the end of that window. *)
Lemma inWindow_survives (lo hi : Z) (key : string)
    (calls : list (Z * Z * UsageData.t)) (r : Redis) :
  inWindow cfg lo hi calls →
  hi ≤ lo + 2592000000 →
  lastsUntil hi r key →
  survives isoDate cfg key calls r = true.
Proof.
  intros Hwin Hhi. revert r.
  induction Hwin as [|[[now today] usageData] calls Hcall Hwin IH]; intros r Hlast;
    cbn [survives]; [done|].
  destruct (shouldTrackPath cfg (UsageData.path usageData)); [|by apply IH].
  specialize (Hcall eq_refl).
  rewrite (alive_lastsUntil now hi) by (done || lia). cbn [andb].
  apply IH. apply trackUsage_lastsUntil.
  - cbn [advance clock]. lia.
  - by apply lastsUntil_advance.
Qed.

End Survival.

(** ** Tallies over a sequence of calls *)

Lemma requestsOf_cons (cfg : EndpointUsageConfig) (endpoint : string)
    (now today : Z) (usageData : UsageData.t) (calls : list (Z * Z * UsageData.t)) :
  requestsOf cfg endpoint ((now, today, usageData) :: calls)
  = if hits cfg endpoint usageData
    then usageData :: requestsOf cfg endpoint calls
    else requestsOf cfg endpoint calls.
Proof.
  unfold requestsOf. cbn [map snd]. rewrite filter_cons.
  destruct (hits cfg endpoint usageData); by case_decide.
Qed.

Lemma sumZ_ones {A : Type} (l : list A) : sumZ (map (λ _, 1) l) = Z.of_nat (length l).
Proof.
  unfold sumZ. induction l as [|x l IH]; [done|]. cbn [map foldr length]. lia.
Qed.

Lemma sumZ_indicator {A : Type} (P : A → Prop) `{!∀ x, Decision (P x)} (l : list A) :
  sumZ (map (λ x, if decide (P x) then 1 else 0) l) = Z.of_nat (length (filter P l)).
Proof.
  unfold sumZ. induction l as [|x l IH]; [done|].
  rewrite filter_cons. cbn [map foldr].
  case_decide; cbn [length]; lia.
Qed.

Lemma sumZ_measured (l : list UsageData.t) :
  sumZ (map (λ u, default 0 (truthy (UsageData.responseTime u))) l)
  = sumZ (measuredTimes l)
  ∧ sumZ (map (λ u, match truthy (UsageData.responseTime u) with
                    | Some _ => 1 | None => 0 end) l)
    = Z.of_nat (length (measuredTimes l)).
Proof.
  unfold measuredTimes, sumZ.
  induction l as [|u l [IH1 IH2]]; [done|].
  cbn [map foldr omap list_omap].
  destruct (truthy (UsageData.responseTime u)); simpl in *; split; lia.
Qed.

Lemma sumZ_slow (threshold : Z) (l : list UsageData.t) :
  sumZ (map (λ u, match truthy (UsageData.responseTime u) with
                  | Some x => if threshold <? x then 1 else 0
                  | None => 0
                  end) l)
  = Z.of_nat (length (filter (λ x, threshold < x) (measuredTimes l))).
Proof.
  unfold measuredTimes, sumZ.
  induction l as [|u l IH]; [done|].
  cbn [map foldr omap list_omap].
  destruct (truthy (UsageData.responseTime u)) as [x|]; [|lia].
  rewrite filter_cons. destruct (Z.ltb_spec threshold x).
  - rewrite decide_True by done. cbn [length]. lia.
  - rewrite decide_False by lia. lia.
Qed.

Section Tallies.
Context (isoDate : Z → string) (cfg : EndpointUsageConfig) (endpoint : string).

(** A field every call for the endpoint raises by [delta] is raised, over
    a sequence of calls the global record outlives, by the sum of [delta]
    over the requests that hit the endpoint. *)
Lemma trackAll_global_tally (f : string) (delta : UsageData.t → Z)
    (calls : list (Z * Z * UsageData.t)) (r : Redis) :
  (∀ e data v,
     default 0 (foldl (λ v c, fieldStep c f v) v (countersPipeline cfg e data))
     = default 0 v + delta data) →
  (∀ u now, delta (stamp u now) = delta u) →
  survives isoDate cfg (globalKey cfg endpoint) calls r = true →
  default 0 (hgetall (trackAll isoDate cfg calls r) (globalKey cfg endpoint) !! f)
  = default 0 (hgetall r (globalKey cfg endpoint) !! f)
    + sumZ (map delta (requestsOf cfg endpoint calls)).
Proof.
  intros Hstep Hstamp. unfold trackAll. revert r.
  induction calls as [|[[now today] u] calls IH]; intros r Hlife.
  { cbn. lia. }
  cbn [foldl survives] in *. rewrite requestsOf_cons. unfold hits.
  destruct (shouldTrackPath cfg (UsageData.path u)) eqn:Htrack; cbn [andb];
    [|by apply IH].
  apply andb_true_iff in Hlife as [Halive Hlife].
  rewrite IH by done. rewrite trackUsage_at_global by done.
  rewrite hgetall_advance, Halive.
  case_decide as He.
  - rewrite bool_decide_eq_true_2 by done.
    rewrite Hstep, Hstamp. unfold sumZ. cbn [map foldr]. lia.
  - by rewrite bool_decide_eq_false_2.
Qed.

Lemma trackAll_performance_tally (f : string) (delta : UsageData.t → Z)
    (calls : list (Z * Z * UsageData.t)) (r : Redis) :
  perfEnabled (performanceTracking cfg) = true →
  startsWith f "throughput_" = false →
  (∀ e data v,
     default 0 (foldl (λ v c, fieldStep c f v) v (performancePipeline cfg e data))
     = default 0 v + delta data) →
  (∀ u now, delta (stamp u now) = delta u) →
  survives isoDate cfg (performanceKey cfg endpoint) calls r = true →
  default 0 (hgetall (trackAll isoDate cfg calls r) (performanceKey cfg endpoint) !! f)
  = default 0 (hgetall r (performanceKey cfg endpoint) !! f)
    + sumZ (map delta (requestsOf cfg endpoint calls)).
Proof.
  intros Hen Hf Hstep Hstamp. unfold trackAll. revert r.
  induction calls as [|[[now today] u] calls IH]; intros r Hlife.
  { cbn. lia. }
  cbn [foldl survives] in *. rewrite requestsOf_cons. unfold hits.
  destruct (shouldTrackPath cfg (UsageData.path u)) eqn:Htrack; cbn [andb];
    [|by apply IH].
  apply andb_true_iff in Hlife as [Halive Hlife].
  rewrite IH by done. rewrite trackUsage_at_performance by done.
  rewrite hgetall_advance, Halive.
  case_decide as He.
  - rewrite bool_decide_eq_true_2 by done.
    rewrite Hstep, Hstamp. unfold sumZ. cbn [map foldr]. lia.
  - by rewrite bool_decide_eq_false_2.
Qed.

End Tallies.

(** X1.  Over a sequence of calls that the global record of an endpoint
    outlives (as it does when it has no time to live: no call gives it
    one) the record counts exactly the tracked requests that normalise to
    the endpoint: [count] rises by their number, [response_count] by the
    number of them with a non-zero response time, [total_response_time]
    by the sum of those times, and each [status_{code}] by the number of
    them with that status.  Requests for other endpoints and untracked
    requests change none of these. *)
Theorem X1_global_totals (isoDate : Z → string) (cfg : EndpointUsageConfig)
    (endpoint : string) (calls : list (Z * Z * UsageData.t)) (r : Redis) :
  survives isoDate cfg (globalKey cfg endpoint) calls r = true →
  let requests := requestsOf cfg endpoint calls in
  let before f := default 0 (hgetall r (globalKey cfg endpoint) !! f) in
  let after f :=
    default 0 (hgetall (trackAll isoDate cfg calls r) (globalKey cfg endpoint) !! f) in
  after "count" = before "count" + Z.of_nat (length requests)
  ∧ after "response_count"
    = before "response_count" + Z.of_nat (length (measuredTimes requests))
  ∧ after "total_response_time"
    = before "total_response_time" + sumZ (measuredTimes requests)
  ∧ ∀ code,
      after ("status_" +:+ pretty code)
      = before ("status_" +:+ pretty code)
        + Z.of_nat (length (filter (λ u, UsageData.statusCode u = code) requests)).
Proof.
  intros Hlife requests before after. subst requests before after. cbv beta.
  split; [|split; [|split]].
  - rewrite (trackAll_global_tally isoDate cfg endpoint "count" (λ _, 1));
      [by rewrite sumZ_ones| |done|done].
    intros e data v. by rewrite counters_count.
  - rewrite (trackAll_global_tally isoDate cfg endpoint "response_count"
               (λ u, match truthy (UsageData.responseTime u) with
                     | Some _ => 1 | None => 0 end));
      [by rewrite (proj2 (sumZ_measured _))| |done|done].
    intros e data v. apply counters_response_count.
  - rewrite (trackAll_global_tally isoDate cfg endpoint "total_response_time"
               (λ u, default 0 (truthy (UsageData.responseTime u))));
      [by rewrite (proj1 (sumZ_measured _))| |done|done].
    intros e data v. apply counters_total_response_time.
  - intros code.
    rewrite (trackAll_global_tally isoDate cfg endpoint ("status_" +:+ pretty code)
               (λ u, if decide (UsageData.statusCode u = code) then 1 else 0));
      [by rewrite sumZ_indicator| |done|done].
    intros e data v. apply counters_status.
Qed.

Lemma X1_witness :
  survives sampleDate sampleConfig (globalKey sampleConfig "GET:/users/:id")
    sampleCalls emptyRedis = true
  ∧ default 0 (hgetall (trackAll sampleDate sampleConfig sampleCalls emptyRedis)
                 (globalKey sampleConfig "GET:/users/:id") !! "count")
    = default 0 (hgetall emptyRedis (globalKey sampleConfig "GET:/users/:id") !! "count")
      + Z.of_nat (length (requestsOf sampleConfig "GET:/users/:id" sampleCalls)).
Proof.
  assert (H : survives sampleDate sampleConfig
                (globalKey sampleConfig "GET:/users/:id") sampleCalls emptyRedis = true)
    by (by vm_compute).
  split; [exact H|].
  exact (proj1 (X1_global_totals sampleDate sampleConfig "GET:/users/:id"
                  sampleCalls emptyRedis H)).
Defined.

(** X2.  With performance tracking enabled the performance record of an
    endpoint counts, over a sequence of calls that it outlives (no tracked
    call arrives after its 90 days to live, renewed by every call for the
    endpoint, have run out), exactly the tracked requests that normalise
    to the endpoint: [total_requests] rises by their number,
    [error_requests] by the number with a status of 400 or more,
    [response_count] by the number with a non-zero response time and
    [slow_requests] by the number whose non-zero response time exceeds the
    slow threshold. *)
Theorem X2_performance_totals (isoDate : Z → string) (cfg : EndpointUsageConfig)
    (endpoint : string) (calls : list (Z * Z * UsageData.t)) (r : Redis) :
  perfEnabled (performanceTracking cfg) = true →
  survives isoDate cfg (performanceKey cfg endpoint) calls r = true →
  let requests := requestsOf cfg endpoint calls in
  let before f := default 0 (hgetall r (performanceKey cfg endpoint) !! f) in
  let after f :=
    default 0 (hgetall (trackAll isoDate cfg calls r) (performanceKey cfg endpoint) !! f) in
  after "total_requests" = before "total_requests" + Z.of_nat (length requests)
  ∧ after "error_requests"
    = before "error_requests"
      + Z.of_nat (length (filter (λ u, 400 ≤ UsageData.statusCode u) requests))
  ∧ after "response_count"
    = before "response_count" + Z.of_nat (length (measuredTimes requests))
  ∧ after "slow_requests"
    = before "slow_requests"
      + Z.of_nat (length (filter (λ x, slowThresholdMs (performanceTracking cfg) < x)
                            (measuredTimes requests))).
Proof.
  intros Hen Hlife requests before after. subst requests before after. cbv beta.
  split; [|split; [|split]].
  - rewrite (trackAll_performance_tally isoDate cfg endpoint "total_requests" (λ _, 1));
      [by rewrite sumZ_ones|done|done| |done|done].
    intros e data v. by rewrite performance_total_requests.
  - rewrite (trackAll_performance_tally isoDate cfg endpoint "error_requests"
               (λ u, if decide (400 ≤ UsageData.statusCode u) then 1 else 0));
      [by rewrite sumZ_indicator|done|done| |done|done].
    intros e data v. rewrite performance_error_requests.
    destruct (Z.leb_spec 400 (UsageData.statusCode data)).
    + by rewrite decide_True.
    + by rewrite decide_False by lia.
  - rewrite (trackAll_performance_tally isoDate cfg endpoint "response_count"
               (λ u, match truthy (UsageData.responseTime u) with
                     | Some _ => 1 | None => 0 end));
      [by rewrite (proj2 (sumZ_measured _))|done|done| |done|done].
    intros e data v. apply performance_response_count.
  - rewrite (trackAll_performance_tally isoDate cfg endpoint "slow_requests"
               (λ u, match truthy (UsageData.responseTime u) with
                     | Some x => if slowThresholdMs (performanceTracking cfg) <? x
                                 then 1 else 0
                     | None => 0
                     end));
      [by rewrite sumZ_slow|done|done| |done|done].
    intros e data v. apply performance_slow_requests.
Qed.

Lemma X2_witness :
  perfEnabled (performanceTracking sampleConfig) = true
  ∧ survives sampleDate sampleConfig (performanceKey sampleConfig "GET:/users/:id")
      sampleCalls emptyRedis = true
  ∧ default 0 (hgetall (trackAll sampleDate sampleConfig sampleCalls emptyRedis)
                 (performanceKey sampleConfig "GET:/users/:id") !! "total_requests")
    = default 0 (hgetall emptyRedis (performanceKey sampleConfig "GET:/users/:id")
                   !! "total_requests")
      + Z.of_nat (length (requestsOf sampleConfig "GET:/users/:id" sampleCalls)).
Proof.
  assert (H : survives sampleDate sampleConfig
                (performanceKey sampleConfig "GET:/users/:id") sampleCalls emptyRedis
              = true)
    by (by vm_compute).
  split; [reflexivity|]. split; [exact H|].
  exact (proj1 (X2_performance_totals sampleDate sampleConfig "GET:/users/:id"
                  sampleCalls emptyRedis eq_refl H)).
Defined.

(** ** More on percentiles *)

Lemma sorted_lookup_le (l : list Z) (i j : nat) (a b : Z) :
  Sorted Z.le l → (i ≤ j)%nat → l !! i = Some a → l !! j = Some b → a ≤ b.
Proof.
  intros Hsorted%Sorted_StronglySorted; [|apply _].
  revert i j. induction Hsorted as [|x l Hl IH Hx]; intros i j Hij Hi Hj; [done|].
  destruct i as [|i], j as [|j]; simplify_eq/=; [lia| |lia|].
  - rewrite Forall_forall in Hx. apply Hx. by eapply list_elem_of_lookup_2.
  - apply (IH i j); [lia|done..].
Qed.

Lemma percentile_ceiling_mono (p q : Z) (n : nat) :
  p ≤ q →
  Qceiling (inject_Z p / 100 * inject_Z (Z.of_nat n))
  ≤ Qceiling (inject_Z q / 100 * inject_Z (Z.of_nat n)).
Proof.
  intros Hpq. apply Qceiling_resp_le, Qmult_le_compat_r.
  - unfold Qle, Qdiv, Qmult, Qinv, inject_Z. simpl. lia.
  - unfold Qle, inject_Z. simpl. lia.
Qed.

Lemma percentile_ceiling_above (p : Z) (n : nat) :
  100 < p → (0 < n)%nat →
  Z.of_nat n < Qceiling (inject_Z p / 100 * inject_Z (Z.of_nat n)).
Proof.
  intros Hp Hn.
  pose proof (Qle_ceiling (inject_Z p / 100 * inject_Z (Z.of_nat n))) as Hle.
  assert (Hlt : (inject_Z (Z.of_nat n) < inject_Z p / 100 * inject_Z (Z.of_nat n))%Q).
  { unfold Qlt, Qdiv, Qmult, Qinv, inject_Z. simpl. nia. }
  rewrite Zlt_Qlt. exact (Qlt_le_trans _ _ _ Hlt Hle).
Qed.

Lemma sort_of_permutation (l l' : list Z) :
  l ≡ₚ l' → JsArray.sort (λ a b, a - b) l = JsArray.sort (λ a b, a - b) l'.
Proof.
  intros Hperm. apply (Sorted_unique Z.le); [apply sort_ascending..|].
  by rewrite !sort_perm.
Qed.

(** X3.  Percentiles are monotone: for any samples and percentiles
    [p ≤ q ≤ 100], both are defined and the [p]-th is at most the [q]-th;
    in particular p50 ≤ p95 ≤ p99. *)
Theorem X3_percentiles_monotone (values : list Z) (p q : Z) :
  p ≤ q → q ≤ 100 →
  ∃ a b, calculatePercentile values p = Some a
         ∧ calculatePercentile values q = Some b
         ∧ a ≤ b.
Proof.
  intros Hpq Hq.
  destruct values as [|v values]; [by exists 0, 0|].
  destruct (calculatePercentile_index (v :: values) p) as [Hp [a Ha]]; [lia|done|].
  destruct (calculatePercentile_index (v :: values) q) as [Hq' [b Hb]]; [lia|done|].
  exists a, b. split; [done|]. split; [done|].
  rewrite Ha in Hp. rewrite Hb in Hq'. symmetry in Hp, Hq'.
  eapply sorted_lookup_le; [apply sort_ascending| |exact Hp|exact Hq'].
  unfold percentileIndex.
  pose proof (percentile_ceiling_mono p q (length (v :: values)) Hpq). lia.
Qed.

Lemma X3_witness :
  50 ≤ 95 ∧ 95 ≤ 100
  ∧ ∃ a b, calculatePercentile [300; 100; 200] 50 = Some a
           ∧ calculatePercentile [300; 100; 200] 95 = Some b
           ∧ a ≤ b.
Proof.
  split; [lia|]. split; [lia|].
  apply (X3_percentiles_monotone [300; 100; 200] 50 95); lia.
Defined.

(** X4.  For a non-empty list of samples the computed percentile is one of
    the samples when the percentile is at most 100, and is undefined (the
    index lies past the end of the sorted array) when it is above 100. *)
Theorem X4_percentile_is_a_sample (values : list Z) (p : Z) :
  values ≠ [] →
  (p ≤ 100 → ∃ x, calculatePercentile values p = Some x ∧ x ∈ values)
  ∧ (100 < p → calculatePercentile values p = None).
Proof.
  intros Hne. split.
  - intros Hp.
    destruct (calculatePercentile_index values p Hp Hne) as [Hidx [x Hx]].
    exists x. split; [done|].
    rewrite Hx in Hidx. symmetry in Hidx.
    apply list_elem_of_lookup_2 in Hidx. by apply sort_elem_of in Hidx.
  - intros Hp. unfold calculatePercentile.
    destruct values as [|v values]; [done|]. cbn [length Nat.eqb].
    apply lookup_ge_None. rewrite !sort_length.
    pose proof (percentile_ceiling_above p (length (v :: values)) Hp) as Habove.
    cbn [length] in *. lia.
Qed.

Lemma X4_witness :
  [300; 100; 200] ≠ []
  ∧ calculatePercentile [300; 100; 200] 150 = None.
Proof.
  split; [done|].
  apply (X4_percentile_is_a_sample [300; 100; 200] 150); [done|lia].
Defined.

(** X5.  A percentile does not depend on the order of the samples. *)
Theorem X5_percentile_order_independent (values values' : list Z) (p : Z) :
  values ≡ₚ values' → calculatePercentile values p = calculatePercentile values' p.
Proof.
  intros Hperm. unfold calculatePercentile.
  rewrite !sort_length, (sort_of_permutation _ _ Hperm).
  by rewrite (Permutation_length Hperm).
Qed.

Lemma X5_witness :
  [300; 100; 200] ≡ₚ [100; 200; 300]
  ∧ calculatePercentile [300; 100; 200] 95 = calculatePercentile [100; 200; 300] 95.
Proof.
  assert (H : [300; 100; 200] ≡ₚ [100; 200; 300]).
  { change [300; 100; 200] with ([300] ++ [100; 200])%list.
    change [100; 200; 300] with ([100; 200] ++ [300])%list.
    apply Permutation_app_comm. }
  split; [exact H|].
  exact (X5_percentile_order_independent _ _ 95 H).
Defined.

(** ** More on normalisation and on the readers *)

(** X6.  A normalised path has no slash followed by a digit, no slash
    followed by 36 characters of a UUID, and, unless query parameters are
    kept, no question mark. *)
Theorem X6_normalizePath_clean (cfg : EndpointUsageConfig) (path : string) :
  slashDigitFree false (normalizePath cfg path) = true
  ∧ noMatch reSlashDigits (normalizePath cfg path) = true
  ∧ noMatch reSlashUuid (normalizePath cfg path) = true
  ∧ (includeQueryParams cfg = false → hasChar "?" (normalizePath cfg path) = false).
Proof.
  unfold normalizePath.
  set (q := if negb (includeQueryParams cfg)
            then default EmptyString (head (split "?" path)) else path).
  assert (Hd : slashDigitFree false
                 (replaceAll reSlashUuid "/:uuid" 0 (replaceAll reSlashDigits "/:id" 0 q))
               = true).
  { apply (replaceAll_uuid_digits_free _ 0 false), replaceAll_digits_free. }
  split; [done|]. split; [by eapply slashDigitFree_noMatch|].
  split; [apply replaceAll_uuid_noMatch|].
  intros Hq. subst q. rewrite Hq. cbn [negb].
  do 2 (apply replaceAll_hasChar; [done|]). apply stripQuery_no_query.
Qed.

Lemma X6_witness :
  includeQueryParams sampleConfig = false
  ∧ hasChar "?" (normalizePath sampleConfig "/users/42?tab=1") = false.
Proof.
  split; [reflexivity|].
  exact (proj2 (proj2 (proj2 (X6_normalizePath_clean sampleConfig "/users/42?tab=1")))
           eq_refl).
Defined.

(** X7.  A path without a question mark in which neither expression
    matches is its own normalisation. *)
Theorem X7_normalizePath_fixed (cfg : EndpointUsageConfig) (path : string) :
  hasChar "?" path = false →
  noMatch reSlashDigits path = true →
  noMatch reSlashUuid path = true →
  normalizePath cfg path = path.
Proof.
  intros Hq Hd Hu. unfold normalizePath.
  assert ((if negb (includeQueryParams cfg)
           then default EmptyString (head (split "?" path)) else path) = path) as ->.
  { destruct (includeQueryParams cfg); [done|]. cbn [negb]. by rewrite split_no_sep. }
  rewrite (replaceAll_noMatch reSlashDigits) by done.
  by rewrite replaceAll_noMatch.
Qed.

Lemma X7_witness :
  hasChar "?" "/users/:id/avatar" = false
  ∧ noMatch reSlashDigits "/users/:id/avatar" = true
  ∧ noMatch reSlashUuid "/users/:id/avatar" = true
  ∧ normalizePath sampleConfig "/users/:id/avatar" = "/users/:id/avatar".
Proof.
  split; [reflexivity|]. split; [reflexivity|]. split; [reflexivity|].
  apply X7_normalizePath_fixed; reflexivity.
Defined.



(** ** The raw lists *)

Lemma stampedOf_cons (cfg : EndpointUsageConfig) (endpoint : string)
    (now today : Z) (usageData : UsageData.t) (calls : list (Z * Z * UsageData.t)) :
  stampedOf cfg endpoint ((now, today, usageData) :: calls)
  = if hits cfg endpoint usageData
    then stamp usageData now :: stampedOf cfg endpoint calls
    else stampedOf cfg endpoint calls.
Proof.
  unfold stampedOf. cbn [omap list_omap].
  by destruct (hits cfg endpoint usageData).
Qed.

Lemma trackAll_raw_list (isoDate : Z → string) (cfg : EndpointUsageConfig)
    (endpoint : string) (calls : list (Z * Z * UsageData.t)) (r : Redis) :
  survives isoDate cfg (rawKey cfg endpoint) calls r = true →
  default [] (lists (trackAll isoDate cfg calls r) !! rawKey cfg endpoint)
  = (reverse (stampedOf cfg endpoint calls)
     ++ default [] (lists r !! rawKey cfg endpoint))%list.
Proof.
  unfold trackAll. revert r.
  induction calls as [|[[now today] u] calls IH]; intros r Hlife; [done|].
  cbn [foldl survives] in *. rewrite stampedOf_cons. unfold hits.
  destruct (shouldTrackPath cfg (UsageData.path u)) eqn:Htrack; cbn [andb];
    [|by apply IH].
  apply andb_true_iff in Hlife as [Halive Hlife].
  rewrite IH by done. rewrite trackUsage_lists by done.
  case_bool_decide as He.
  - rewrite He, lookup_insert_eq, reverse_cons, <- app_assoc.
    by rewrite lists_advance, Halive.
  - rewrite lookup_insert_ne; [|intros Heq%rawKey_inj; done].
    by rewrite lists_advance, Halive.
Qed.

(** X9.  The raw list of an endpoint holds the tracked events for it, the
    most recent first: after a sequence of calls that the list outlives
    (no tracked call arrives after its 30 days to live, renewed by every
    call for the endpoint, have run out) it is the stamped events of the
    calls that hit the endpoint, in reverse call order, in front of what
    the list held before. *)
Theorem X9_raw_list_most_recent_first (isoDate : Z → string)
    (cfg : EndpointUsageConfig) (endpoint : string)
    (calls : list (Z * Z * UsageData.t)) (r : Redis) :
  survives isoDate cfg (rawKey cfg endpoint) calls r = true →
  default [] (lists (trackAll isoDate cfg calls r) !! rawKey cfg endpoint)
  = (reverse (stampedOf cfg endpoint calls)
     ++ default [] (lists r !! rawKey cfg endpoint))%list.
Proof. apply trackAll_raw_list. Qed.

Lemma X9_witness :
  survives sampleDate sampleConfig (rawKey sampleConfig "GET:/users/:id")
    sampleCalls emptyRedis = true
  ∧ default [] (lists (trackAll sampleDate sampleConfig sampleCalls emptyRedis)
                  !! rawKey sampleConfig "GET:/users/:id")
    = (reverse (stampedOf sampleConfig "GET:/users/:id" sampleCalls)
       ++ default [] (lists emptyRedis !! rawKey sampleConfig "GET:/users/:id"))%list.
Proof.
  assert (H : survives sampleDate sampleConfig
                (rawKey sampleConfig "GET:/users/:id") sampleCalls emptyRedis = true)
    by (by vm_compute).
  split; [exact H|].
  exact (X9_raw_list_most_recent_first sampleDate sampleConfig "GET:/users/:id"
           sampleCalls emptyRedis H).
Defined.

(** X10.  A tracked call sets the time to live of the raw list of its
    endpoint to 30 days, of its daily record to 90 days and, with
    performance tracking enabled, of its performance record to 90 days; it
    never sets or changes a time to live of a global record. *)
Theorem X10_times_to_live (isoDate : Z → string) (cfg : EndpointUsageConfig)
    (now today : Z) (usageData : UsageData.t) (r : Redis) :
  shouldTrackPath cfg (UsageData.path usageData) = true →
  let endpoint :=
    normalizeEndpoint cfg (UsageData.method usageData) (UsageData.path usageData) in
  let r' := trackUsage isoDate cfg now today usageData r in
  expiry r' !! rawKey cfg endpoint = Some 2592000
  ∧ expiry r' !! dailyKey isoDate cfg today endpoint = Some 7776000
  ∧ (perfEnabled (performanceTracking cfg) = true →
     expiry r' !! performanceKey cfg endpoint = Some 7776000)
  ∧ ∀ other, expiry r' !! globalKey cfg other = expiry r !! globalKey cfg other.
Proof.
  intros Htrack endpoint r'. subst r'.
  rewrite (trackUsage_expiry isoDate cfg now today usageData r Htrack).
  fold endpoint.
  assert (Hkeys : ∀ other,
            globalKey cfg other ≠ dailyKey isoDate cfg today endpoint
            ∧ globalKey cfg other ≠ performanceKey cfg endpoint
            ∧ globalKey cfg other ≠ rawKey cfg endpoint
            ∧ dailyKey isoDate cfg today endpoint ≠ performanceKey cfg endpoint
            ∧ dailyKey isoDate cfg today endpoint ≠ rawKey cfg endpoint
            ∧ performanceKey cfg endpoint ≠ rawKey cfg endpoint).
  { intros other. apply family_keys_distinct. }
  destruct (Hkeys endpoint) as (_ & _ & _ & Hdp & Hdr & Hpr).
  destruct (perfEnabled (performanceTracking cfg)); cbn [id];
    repeat split; try done;
    try (intros other; destruct (Hkeys other) as (Hgd & Hgp & Hgr & _));
    by simplify_map_eq.
Qed.

Lemma X10_witness :
  shouldTrackPath sampleConfig "/health" = true
  ∧ expiry healthStore !! rawKey sampleConfig "GET:/health" = Some 2592000.
Proof.
  split; [reflexivity|].
  exact (proj1 (X10_times_to_live sampleDate sampleConfig 60000 60000
                  (sampleRequest "/health" (Some 5)) emptyRedis eq_refl)).
Defined.

(** ** Pruning of the throughput buckets *)

Lemma cleanup_own_field (perfKey f : string) (currentTimestamp : Z) (r : Redis) :
  hgetall (cleanupOldThroughputData perfKey currentTimestamp r) perfKey !! f
  = if decide (f ∈ fieldsToDelete (hgetall r perfKey) currentTimestamp)
    then None else hgetall r perfKey !! f.
Proof.
  unfold cleanupOldThroughputData.
  destruct (fieldsToDelete (hgetall r perfKey) currentTimestamp) as [|g fields] eqn:Hfields.
  - cbn. rewrite decide_False; [done|]. by intros ?%elem_of_nil.
  - cbn [length Nat.ltb Nat.leb]. rewrite exec_field. unfold fieldAfter.
    cbn [hashKey fieldStep]. by rewrite decide_True.
Qed.

Lemma elem_of_fieldsToDelete_bucket (data : gmap string Z) (currentTimestamp t : Z) :
  bucketField t ∈ fieldsToDelete data currentTimestamp
  ↔ t < currentTimestamp - 3600000 ∧ is_Some (data !! bucketField t).
Proof.
  unfold fieldsToDelete. cbv zeta.
  rewrite !list_elem_of_filter, elem_of_elements, elem_of_dom.
  unfold bucketField.
  rewrite replaceFirst_prefix, parseInt_pretty, startsWith_app, Z.ltb_lt.
  change (60 * 60 * 1000) with 3600000. tauto.
Qed.

Lemma bucketField_inj (a b : Z) : bucketField a = bucketField b → a = b.
Proof. unfold bucketField. intros H%append_inj_r. by apply (inj pretty). Qed.

Lemma performancePipeline_bucket (cfg : EndpointUsageConfig) (endpoint : string)
    (data : UsageData.t) (t : Z) (v : option Z) :
  foldl (λ v c, fieldStep c (bucketField t) v) v (performancePipeline cfg endpoint data)
  = if decide (t = UsageData.timestamp data / 60000 * 60000)
    then Some (default 0 v + 1) else v.
Proof.
  unfold performancePipeline. cbv zeta.
  rewrite ?foldl_app.
  repeat match goal with
         | |- context [foldl ?F ?x ?seg] =>
             rewrite (foldl_fieldStep_unmentioned seg (bucketField t) x)
               by (unfold bucketField; each_command not_named)
         end.
  cbn [foldl fieldStep]. fold (bucketField (UsageData.timestamp data / 60000 * 60000)).
  destruct (decide (t = UsageData.timestamp data / 60000 * 60000)) as [->|Ht].
  - by rewrite decide_True.
  - rewrite decide_False; [done|]. intros Heq%bucketField_inj. done.
Qed.

Lemma updatePerformanceStats_bucket (cfg : EndpointUsageConfig) (endpoint : string)
    (data : UsageData.t) (r : Redis) (t : Z) :
  perfEnabled (performanceTracking cfg) = true →
  hgetall (updatePerformanceStats cfg endpoint data r) (performanceKey cfg endpoint)
    !! bucketField t
  = if decide (t < UsageData.timestamp data - 3600000) then None
    else if decide (t = UsageData.timestamp data / 60000 * 60000)
         then Some (default 0 (hgetall r (performanceKey cfg endpoint) !! bucketField t) + 1)
         else hgetall r (performanceKey cfg endpoint) !! bucketField t.
Proof.
  intros Hen. unfold updatePerformanceStats. rewrite Hen. cbn [negb]. cbv zeta.
  fold (performanceKey cfg endpoint).
  rewrite cleanup_own_field.
  case_decide as Hin.
  - apply elem_of_fieldsToDelete_bucket in Hin as [Hold _]. by rewrite decide_True.
  - rewrite pipeline_own_key in * by apply performancePipeline_keys.
    rewrite performancePipeline_bucket in *.
    destruct (decide (t < UsageData.timestamp data - 3600000)) as [Hold|]; [|done].
    set (v := if decide (t = _) then _ else _) in *.
    destruct v as [x|] eqn:Hv; [|done].
    exfalso. apply Hin. apply elem_of_fieldsToDelete_bucket. split; [done|].
    rewrite pipeline_own_key by apply performancePipeline_keys.
    rewrite performancePipeline_bucket. fold v. by rewrite Hv.
Qed.

Lemma trackUsage_performance_before (isoDate : Z → string) (cfg : EndpointUsageConfig)
    (today : Z) (endpoint endpoint' : string) (data : UsageData.t) (r : Redis) :
  hgetall (updateCounters cfg endpoint data
             (updateDailyStats isoDate cfg today endpoint data
                (exec (exec r (lpush (keyPrefix cfg +:+ ":raw:" +:+ endpoint) data))
                   (expire (keyPrefix cfg +:+ ":raw:" +:+ endpoint) (30 * 24 * 60 * 60)))))
    (performanceKey cfg endpoint')
  = hgetall r (performanceKey cfg endpoint').
Proof.
  destruct (family_keys_distinct isoDate cfg today endpoint endpoint endpoint' endpoint)
    as (_ & Hglobal & _ & Hdaily & _ & Hraw).
  unfold updateCounters, updateDailyStats.
  rewrite pipeline_other_key
    by (eapply keys_elsewhere; [|apply countersPipeline_keys]; done).
  rewrite pipeline_other_key
    by (eapply keys_elsewhere; [|apply dailyPipeline_keys]; done).
  by rewrite !exec_other_key.
Qed.

(** X11.  With performance tracking enabled, after a tracked call at time
    [now] the performance record of the endpoint holds no throughput
    bucket that starts more than an hour before [now]; the bucket of the
    minute of the call is one higher than before, and every other bucket
    within the hour is as it was. *)
Theorem X11_throughput_buckets_pruned (isoDate : Z → string)
    (cfg : EndpointUsageConfig) (now today : Z) (usageData : UsageData.t)
    (r : Redis) (t : Z) :
  shouldTrackPath cfg (UsageData.path usageData) = true →
  perfEnabled (performanceTracking cfg) = true →
  let endpoint :=
    normalizeEndpoint cfg (UsageData.method usageData) (UsageData.path usageData) in
  let before := hgetall r (performanceKey cfg endpoint) !! bucketField t in
  let after :=
    hgetall (trackUsage isoDate cfg now today usageData r) (performanceKey cfg endpoint)
      !! bucketField t in
  (t < now - 3600000 → after = None)
  ∧ (now - 3600000 ≤ t → t = now / 60000 * 60000 → after = Some (default 0 before + 1))
  ∧ (now - 3600000 ≤ t → t ≠ now / 60000 * 60000 → after = before).
Proof.
  intros Htrack Hen endpoint before after.
  assert (Hafter : after
                   = if decide (t < now - 3600000) then None
                     else if decide (t = now / 60000 * 60000)
                          then Some (default 0 before + 1) else before).
  { unfold after, before, trackUsage. rewrite Htrack. cbn [negb]. cbv zeta.
    fold endpoint.
    rewrite updatePerformanceStats_bucket by done.
    rewrite (trackUsage_performance_before isoDate cfg today endpoint endpoint).
    done. }
  rewrite Hafter. repeat split; intros; repeat case_decide; done || lia.
Qed.

Lemma X11_witness :
  shouldTrackPath sampleConfig "/health" = true
  ∧ perfEnabled (performanceTracking sampleConfig) = true
  ∧ hgetall (trackUsage sampleDate sampleConfig 7200000 7200000
               (sampleRequest "/health" (Some 5)) healthStore)
      (performanceKey sampleConfig "GET:/health") !! bucketField 60000 = None.
Proof.
  split; [reflexivity|]. split; [reflexivity|].
  apply (X11_throughput_buckets_pruned sampleDate sampleConfig 7200000 7200000
           (sampleRequest "/health" (Some 5)) healthStore 60000 eq_refl eq_refl).
  reflexivity.
Defined.

(** ** From tracking to the listing of the global records *)







(** ** From tracking to the listing of the performance records *)







(** ** Order of the listings *)

Section SortByKey.
Context {A : Type} (key : A → Z).

Lemma insert_descending (x : A) (l : list A) :
  Sorted (λ a b, key b ≤ key a) l →
  Sorted (λ a b, key b ≤ key a) (JsArray.insert (λ a b, key b - key a) x l).
Proof.
  induction 1 as [|y l Hl IH Hy]; simpl.
  - by repeat constructor.
  - destruct (key y - key x <=? 0) eqn:Hxy.
    + apply Z.leb_le in Hxy. constructor; [by constructor|]. constructor. lia.
    + apply Z.leb_gt in Hxy. constructor; [exact IH|].
      destruct Hy as [|z l Hz]; simpl.
      * constructor. lia.
      * destruct (key z - key x <=? 0); constructor; lia.
Qed.

Lemma sort_descending (l : list A) :
  StronglySorted (λ a b, key b ≤ key a) (JsArray.sort (λ a b, key b - key a) l).
Proof.
  apply Sorted_StronglySorted.
  - intros a b c Hab Hbc. lia.
  - induction l as [|x l IH]; simpl; [constructor|].
    by apply insert_descending.
Qed.

End SortByKey.

(** X14.  The listings are ordered: [getEndpointStats] returns the
    records by falling request count and [getPerformanceStats] by falling
    95th percentile (taken as 0 where it is missing or 0), whatever the
    store holds and whether or not an endpoint is given. *)
Theorem X14_listings_ordered (cfg : EndpointUsageConfig) (method path : option string)
    (r : Redis) :
  StronglySorted (λ a b, EndpointStats.count b ≤ EndpointStats.count a)
    (getEndpointStats cfg method path r)
  ∧ StronglySorted (λ a b, p95OrZero b ≤ p95OrZero a)
      (getPerformanceStats cfg method path r).
Proof.
  split.
  - apply (sort_descending EndpointStats.count).
  - apply (sort_descending p95OrZero).
Qed.

(** ** The dashboard *)

Lemma getEndpointStats_no_performance (cfg : EndpointUsageConfig)
    (method path : option string) (r : Redis) :
  Forall (λ stat, EndpointStats.performance stat = None)
    (getEndpointStats cfg method path r).
Proof.
  apply Forall_forall. intros stat Hin.
  unfold getEndpointStats in Hin.
  apply sort_elem_of, list_elem_of_omap in Hin as (key & _ & Hstat).
  unfold endpointStatsOf in Hstat.
  destruct (decide _); [done|]. destruct (splitEndpoint _).
  by injection Hstat as <-.
Qed.

Lemma foldl_add_zero {A : Type} (f : A → Z) (l : list A) (acc : Z) :
  Forall (λ x, f x = 0) l → foldl (λ sum x, sum + f x) acc l = acc.
Proof.
  intros Hall. revert acc.
  induction Hall as [|x l Hx _ IH]; intros acc; [done|].
  cbn [foldl]. rewrite IH. lia.
Qed.

Lemma mathMax_zeros {A : Type} (f : A → Z) (l : list A) :
  Forall (λ x, f x = 0) l →
  mathMax (map f l) = if decide (l = []) then NegInf else JsNumber.ofZ 0.
Proof.
  destruct 1 as [|x l' Hx Hl]; [done|].
  rewrite decide_False by done. cbn [map mathMax]. rewrite Hx. f_equal.
  induction Hl as [|y l'' Hy _ IH]; [done|].
  cbn [map foldl]. by rewrite Hy.
Qed.

(** X15.  The dashboard is computed from the global records only, which
    carry no performance part: its [totalSlowRequests] is always 0, and
    its [peakThroughput] is 0, or minus infinity when no endpoint was last
    accessed within the window. *)
Theorem X15_dashboard_performance_blank (cfg : EndpointUsageConfig)
    (daysBefore : Z → Z → option Z) (now nowStart nowUnused days : Z) (r : Redis) :
  let dashboard := getDashboardData cfg daysBefore now nowStart nowUnused days r in
  DashboardData.totalSlowRequests dashboard = 0
  ∧ DashboardData.peakThroughput dashboard
    = if decide (DashboardData.uniqueEndpoints dashboard = 0)
      then NegInf else JsNumber.ofZ 0.
Proof.
  cbv zeta. unfold getDashboardData. cbn [DashboardData.totalSlowRequests
    DashboardData.peakThroughput DashboardData.uniqueEndpoints].
  assert (Hnone : Forall (λ stat, EndpointStats.performance stat = None)
                    (recentStats cfg daysBefore now nowStart days r)).
  { unfold recentStats. apply Forall_forall.
    intros stat [_ Hin]%list_elem_of_filter.
    pose proof (getEndpointStats_no_performance cfg None None r) as Hall.
    rewrite Forall_forall in Hall. by apply Hall. }
  split.
  - apply foldl_add_zero. eapply Forall_impl; [exact Hnone|].
    intros stat Hstat. cbv beta in *. by rewrite Hstat.
  - rewrite mathMax_zeros.
    + destruct (recentStats cfg daysBefore now nowStart days r); [done|].
      rewrite decide_False by done. by rewrite decide_False.
    + eapply Forall_impl; [exact Hnone|].
      intros stat Hstat. cbv beta in *. by rewrite Hstat.
Qed.

Lemma take_strongly_sorted {A : Type} (R : relation A) (n : nat) (l : list A) :
  StronglySorted R l → StronglySorted R (take n l).
Proof.
  intros Hl. rewrite <- (take_drop n l) in Hl.
  by apply StronglySorted_app_1_l in Hl.
Qed.

Lemma drop_strongly_sorted {A : Type} (R : relation A) (n : nat) (l : list A) :
  StronglySorted R l → StronglySorted R (drop n l).
Proof.
  intros Hl. rewrite <- (take_drop n l) in Hl.
  by apply StronglySorted_app_1_r in Hl.
Qed.

(** X16.  The dashboard's [mostUsedEndpoints] are at most ten records by
    falling request count and its [leastUsedEndpoints] at most ten by
    rising count; both are drawn from the records last accessed within the
    window, from [days] calendar days before the second clock reading of
    [getDashboardData] up to its first.  [getUnusedEndpoints] reads the
    clock again, later: a ranked record is among the [unusedEndpoints]
    exactly when it was last accessed before the threshold of that later
    reading, so none is when the two readings give the same threshold. *)
Theorem X16_dashboard_rankings (cfg : EndpointUsageConfig)
    (daysBefore : Z → Z → option Z) (now nowStart nowUnused days : Z) (r : Redis) :
  let dashboard := getDashboardData cfg daysBefore now nowStart nowUnused days r in
  let ranked :=
    (DashboardData.mostUsedEndpoints dashboard
     ++ DashboardData.leastUsedEndpoints dashboard)%list in
  (length (DashboardData.mostUsedEndpoints dashboard) ≤ 10)%nat
  ∧ (length (DashboardData.leastUsedEndpoints dashboard) ≤ 10)%nat
  ∧ StronglySorted (λ a b, EndpointStats.count b ≤ EndpointStats.count a)
      (DashboardData.mostUsedEndpoints dashboard)
  ∧ StronglySorted (λ a b, EndpointStats.count a ≤ EndpointStats.count b)
      (DashboardData.leastUsedEndpoints dashboard)
  ∧ Forall (λ stat,
              (∃ start, daysBefore nowStart days = Some start
                        ∧ start ≤ EndpointStats.lastAccessed stat ≤ now)
              ∧ (stat ∈ DashboardData.unusedEndpoints dashboard
                 ↔ ∃ threshold, daysBefore nowUnused days = Some threshold
                                ∧ EndpointStats.lastAccessed stat < threshold))
      ranked
  ∧ (daysBefore nowUnused days = daysBefore nowStart days →
     Forall (λ stat, stat ∉ DashboardData.unusedEndpoints dashboard) ranked).
Proof.
  cbv zeta. unfold getDashboardData. cbn [DashboardData.mostUsedEndpoints
    DashboardData.leastUsedEndpoints DashboardData.unusedEndpoints].
  set (sorted := JsArray.sort _ (recentStats cfg daysBefore now nowStart days r)).
  assert (Hsorted : StronglySorted (λ a b, EndpointStats.count b ≤ EndpointStats.count a)
                      sorted)
    by apply (sort_descending EndpointStats.count).
  assert (Hranked : ∀ stat,
            stat ∈ (take 10 sorted ++ reverse (drop (length sorted - 10) sorted))%list →
            stat ∈ getEndpointStats cfg None None r
            ∧ ∃ start, daysBefore nowStart days = Some start
                       ∧ start ≤ EndpointStats.lastAccessed stat ≤ now).
  { intros stat Hin. apply elem_of_app in Hin.
    assert (Hrecent : stat ∈ recentStats cfg daysBefore now nowStart days r).
    { apply (sort_elem_of (λ a b, EndpointStats.count b - EndpointStats.count a)).
      fold sorted. destruct Hin as [Hin|Hin].
      - eapply elem_of_sublist; [exact Hin|apply sublist_take].
      - rewrite elem_of_reverse in Hin.
        eapply elem_of_sublist; [exact Hin|apply sublist_drop]. }
    unfold recentStats in Hrecent.
    apply list_elem_of_filter in Hrecent as [Hwindow Hall].
    split; [done|].
    apply andb_true_iff in Hwindow as [Hlo Hhi].
    destruct (daysBefore nowStart days) as [start|]; [|done].
    exists start. split; [done|]. cbn in Hlo, Hhi. lia. }
  assert (Hunused : ∀ stat,
            stat ∈ getEndpointStats cfg None None r →
            stat ∈ getUnusedEndpoints cfg daysBefore nowUnused days r
            ↔ ∃ threshold, daysBefore nowUnused days = Some threshold
                           ∧ EndpointStats.lastAccessed stat < threshold).
  { intros stat Hall. unfold getUnusedEndpoints. rewrite list_elem_of_filter.
    destruct (daysBefore nowUnused days) as [threshold|]; cbn [JsDate.ltb].
    - split.
      + intros [Hlt _]. exists threshold. split; [done|lia].
      + intros (t & [= <-] & Hlt). split; [lia|done].
    - split; [by intros [? _]|by intros (t & ? & _)]. }
  split; [rewrite length_take; lia|].
  split; [rewrite length_reverse, length_drop; lia|].
  split; [by apply take_strongly_sorted|].
  split; [|split].
  - apply Sorted_StronglySorted; [intros a b c ??; lia|].
    apply (Sorted_reverse (λ a b, EndpointStats.count b ≤ EndpointStats.count a)).
    by apply StronglySorted_Sorted, drop_strongly_sorted.
  - apply Forall_forall. intros stat Hin.
    destruct (Hranked stat Hin) as [Hall Hwindow].
    split; [done|by apply Hunused].
  - intros Hsame. apply Forall_forall. intros stat Hin.
    destruct (Hranked stat Hin) as [Hall (start & Hstart & Hwindow)].
    rewrite (Hunused stat Hall), Hsame, Hstart.
    intros (threshold & [= <-] & Hlt). lia.
Qed.

Lemma X16_witness :
  utcDaysBefore (120000 + 86400000) 30 = utcDaysBefore (120000 + 86400000) 30
  ∧ Forall (λ stat,
              stat ∉ DashboardData.unusedEndpoints
                       (getDashboardData sampleConfig utcDaysBefore
                          (120000 + 86400000) (120000 + 86400000)
                          (120000 + 86400000) 30 sampleStore))
      (DashboardData.mostUsedEndpoints
         (getDashboardData sampleConfig utcDaysBefore
            (120000 + 86400000) (120000 + 86400000) (120000 + 86400000) 30
            sampleStore)
       ++ DashboardData.leastUsedEndpoints
            (getDashboardData sampleConfig utcDaysBefore
               (120000 + 86400000) (120000 + 86400000) (120000 + 86400000) 30
               sampleStore))%list.
Proof.
  split; [reflexivity|].
  exact (proj2 (proj2 (proj2 (proj2 (proj2
           (X16_dashboard_rankings sampleConfig utcDaysBefore
              (120000 + 86400000) (120000 + 86400000) (120000 + 86400000) 30
              sampleStore))))) eq_refl).
Defined.

(** A record can be ranked and listed as unused at once: here it was last
    accessed on the very instant the window starts, and the clock has
    moved on by a millisecond when [getUnusedEndpoints] reads it. *)
Example ranked_and_unused :
  let dashboard :=
    getDashboardData sampleConfig utcDaysBefore
      (120000 + 30 * 86400000) (120000 + 30 * 86400000) (120001 + 30 * 86400000) 30
      sampleStore in
  length (DashboardData.mostUsedEndpoints dashboard) = 1%nat
  ∧ DashboardData.unusedEndpoints dashboard = DashboardData.mostUsedEndpoints dashboard.
Proof. split; by vm_compute. Qed.

(** ** Routes and the keys of the records *)

Lemma split_length_app (sep : ascii) (a b : string) :
  length (split sep (a +:+ String sep b))
  = (length (split sep a) + length (split sep b))%nat.
Proof.
  induction a as [|c t IH].
  - rewrite append_nil. simpl. by rewrite Ascii.eqb_refl.
  - rewrite append_cons. simpl. destruct (Ascii.eqb c sep); simpl.
    + by rewrite IH.
    + pose proof (split_nonempty sep t) as Ht.
      pose proof (split_nonempty sep (t +:+ String sep b)) as Htb.
      destruct (split sep t), (split sep (t +:+ String sep b));
        try done; simpl in *; lia.
Qed.

Lemma split_length_pos (sep : ascii) (s : string) : (1 ≤ length (split sep s))%nat.
Proof.
  pose proof (split_nonempty sep s). destruct (split sep s); [done|simpl; lia].
Qed.

Lemma split_length_sep (sep : ascii) (s : string) :
  hasChar sep s = true → (2 ≤ length (split sep s))%nat.
Proof.
  intros [rest Hrest]%split_head_prefix. rewrite Hrest, split_length_app.
  pose proof (split_length_pos sep (default EmptyString (head (split sep s)))).
  pose proof (split_length_pos sep rest). lia.
Qed.

Lemma splitEndpoint_method_no_colon (endpoint : string) :
  hasChar ":" (splitEndpoint endpoint).1 = false.
Proof.
  unfold splitEndpoint, splitLimit. cbn [fst].
  destruct (take 2 (split ":" endpoint) !! 0%nat) as [piece|] eqn:Hp; [|done].
  apply (split_pieces_no_sep ":" endpoint).
  apply list_elem_of_lookup_2, elem_of_take in Hp as (i & Hi & _).
  by apply list_elem_of_lookup_2 in Hi.
Qed.

(** The key of a listed record has exactly one colon. *)
Lemma statKey_pieces (cfg : EndpointUsageConfig) (method path : option string)
    (r : Redis) (stat : EndpointStats.t) :
  stat ∈ getEndpointStats cfg method path r →
  length (split ":" (statKey stat)) = 2%nat.
Proof.
  intros Hin. unfold getEndpointStats in Hin.
  apply sort_elem_of, list_elem_of_omap in Hin as (key & _ & Hstat).
  unfold endpointStatsOf in Hstat.
  destruct (decide _); [done|].
  destruct (splitEndpoint _) as [m p] eqn:Hsplit.
  injection Hstat as <-. unfold statKey. cbn [EndpointStats.method EndpointStats.path].
  pose proof (splitEndpoint_method_no_colon
                (replaceFirst (keyPrefix cfg +:+ ":global:") "" key)) as Hm.
  rewrite Hsplit in Hm. cbn [fst] in Hm.
  change (":" +:+ default "undefined" p) with (String ":" (default "undefined" p)).
  rewrite split_app_sep by done. cbn [length]. f_equal.
  rewrite split_no_sep; [done|].
  destruct p as [piece|]; [|done].
  eapply splitEndpoint_no_colon. by rewrite Hsplit.
Qed.

Lemma findUnusedRoutes_colon (trackerCfg : EndpointUsageConfig)
    (daysBefore : Z → Z → option Z)
    (discoveredRoutes : list RouteInfo.t) (now daysThreshold : Z) (r : Redis)
    (route : RouteInfo.t) :
  route ∈ discoveredRoutes →
  hasChar ":" (RouteInfo.path route) = true →
  route ∈ findUnusedRoutes trackerCfg daysBefore discoveredRoutes now daysThreshold r.
Proof.
  intros Hin Hcolon. unfold findUnusedRoutes.
  apply list_elem_of_filter. split; [|done].
  rewrite (not_elem_of_list_to_map_1 _ (RouteInfo.method route +:+ ":" +:+ RouteInfo.path route));
    [done|].
  rewrite fmap_reverse, elem_of_reverse, <- list_fmap_compose.
  intros (stat & Hkey & Hstat)%list_elem_of_fmap. cbn in Hkey.
  apply statKey_pieces in Hstat. rewrite <- Hkey in Hstat.
  change (":" +:+ RouteInfo.path route) with (String ":" (RouteInfo.path route)) in Hstat.
  rewrite split_length_app in Hstat.
  pose proof (split_length_pos ":" (RouteInfo.method route)).
  pose proof (split_length_sep ":" (RouteInfo.path route) Hcolon). lia.
Qed.

(** X17.  A discovered route whose path contains a colon, as a route with
    a parameter does ([/users/:id]), is always reported unused, whatever
    the store holds: the listed records are keyed by a method and a path
    without colon. *)
Theorem X17_routes_with_colon_unused (trackerCfg : EndpointUsageConfig)
    (daysBefore : Z → Z → option Z)
    (discoveredRoutes : list RouteInfo.t) (now daysThreshold : Z) (r : Redis)
    (route : RouteInfo.t) :
  route ∈ discoveredRoutes →
  hasChar ":" (RouteInfo.path route) = true →
  route ∈ findUnusedRoutes trackerCfg daysBefore discoveredRoutes now daysThreshold r.
Proof. apply findUnusedRoutes_colon. Qed.

Lemma X17_witness :
  userRoute ∈ [userRoute]
  ∧ hasChar ":" (RouteInfo.path userRoute) = true
  ∧ userRoute ∈ findUnusedRoutes sampleConfig utcDaysBefore [userRoute] 60000 30
                  (trackUsage sampleDate sampleConfig 60000 60000
                     (sampleRequest "/users/:id" (Some 5)) emptyRedis).
Proof.
  assert (Hin : userRoute ∈ [userRoute]) by left.
  split; [exact Hin|]. split; [reflexivity|].
  exact (X17_routes_with_colon_unused sampleConfig utcDaysBefore [userRoute] 60000 30
           _ userRoute Hin eq_refl).
Defined.

(** ** Consistency of the report *)

(** X18.  The parts of a report agree: the total is the number of routes
    discovered when it is read, after the unused routes were found; the
    active and the unused routes add up to it, and the active ones are at
    least 0 since no route is ever removed from the discovered ones; the
    list of unused endpoints holds exactly the routes found unused among
    those discovered when [findUnusedRoutes] went through them, ordered by
    falling days since the last use, with its first ten as the top list;
    the lists of slow and of failing endpoints hold at most ten of the
    endpoints the summary counts. *)
Theorem X18_report_consistent (trackerCfg : EndpointUsageConfig)
    (daysBefore : Z → Z → option Z) (config : ReportConfig)
    (discoveredRoutes discoveredLater : list RouteInfo.t) (clock : ReportClock)
    (r : Redis) :
  let report :=
    generateReport trackerCfg daysBefore config discoveredRoutes discoveredLater
      clock r in
  let summary := UsageReport.summary report in
  Summary.totalRoutes summary = Z.of_nat (length discoveredLater)
  ∧ Summary.activeRoutes summary + Summary.unusedRoutes summary
    = Summary.totalRoutes summary
  ∧ ((length discoveredRoutes ≤ length discoveredLater)%nat →
     0 ≤ Summary.activeRoutes summary)
  ∧ Summary.unusedRoutes summary
    = Z.of_nat (length (UsageReport.unusedEndpoints report))
  ∧ map UnusedEndpoint.route (UsageReport.unusedEndpoints report)
    ≡ₚ findUnusedRoutes trackerCfg daysBefore discoveredRoutes (atRoutes clock)
         (daysThreshold config) r
  ∧ StronglySorted (λ a b, UnusedEndpoint.daysSinceLastUse b
                           ≤ UnusedEndpoint.daysSinceLastUse a)
      (UsageReport.unusedEndpoints report)
  ∧ UsageReport.topUnusedEndpoints report = take 10 (UsageReport.unusedEndpoints report)
  ∧ Z.of_nat (length (UsageReport.slowEndpoints report))
    = Z.min 10 (Summary.slowEndpoints summary)
  ∧ Z.of_nat (length (UsageReport.highErrorRateEndpoints report))
    = Z.min 10 (Summary.highErrorRateEndpoints summary).
Proof.
  cbv zeta. unfold generateReport, generateUsageReport.
  cbn [UsageReport.summary UsageReport.unusedEndpoints UsageReport.topUnusedEndpoints
       UsageReport.slowEndpoints UsageReport.highErrorRateEndpoints
       Summary.totalRoutes Summary.activeRoutes Summary.unusedRoutes
       Summary.slowEndpoints Summary.highErrorRateEndpoints
       RouteUsage.total RouteUsage.used RouteUsage.unused RouteUsage.unusedRoutes
       RouteUsage.usageStats].
  set (unused := findUnusedRoutes trackerCfg daysBefore discoveredRoutes
                   (atRoutes clock) (daysThreshold config) r).
  assert (Hle : (length unused ≤ length discoveredRoutes)%nat).
  { unfold unused, findUnusedRoutes. apply length_filter. }
  split; [done|]. split; [lia|]. split; [lia|].
  split; [by rewrite sort_length, length_imap|].
  split.
  { rewrite sort_perm. apply reflexive_eq.
    apply list_eq. intros i. rewrite list_lookup_fmap, list_lookup_imap.
    by destruct (unused !! i). }
  split; [apply (sort_descending UnusedEndpoint.daysSinceLastUse)|].
  split; [done|].
  rewrite !length_take. lia.
Qed.

Lemma X18_witness :
  (length [healthRoute] ≤ length [healthRoute; userRoute])%nat
  ∧ 0 ≤ Summary.activeRoutes
          (UsageReport.summary
             (generateReport sampleConfig utcDaysBefore sampleReportConfig
                [healthRoute] [healthRoute; userRoute] (steadyClock 86460000)
                healthStore)).
Proof.
  assert (H : (length [healthRoute] ≤ length [healthRoute; userRoute])%nat)
    by (cbn; lia).
  split; [exact H|].
  exact (proj1 (proj2 (proj2
           (X18_report_consistent sampleConfig utcDaysBefore sampleReportConfig
              [healthRoute] [healthRoute; userRoute] (steadyClock 86460000)
              healthStore))) H).
Defined.

(** The total can count a route that was registered after the unused
    routes were found: here two routes are known in the end, one of which
    was looked at, and found in use. *)
Example late_route_counts_as_active :
  let summary :=
    UsageReport.summary
      (generateReport sampleConfig utcDaysBefore sampleReportConfig
         [healthRoute] [healthRoute; userRoute] (steadyClock 86460000) healthStore) in
  (Summary.totalRoutes summary, Summary.activeRoutes summary,
   Summary.unusedRoutes summary) = (2, 2, 0).
Proof. by vm_compute. Qed.

(** ** Slow endpoints after tracking *)

Lemma filter_ext_in {A : Type} (P Q : A → Prop) `{!∀ x, Decision (P x)}
    `{!∀ x, Decision (Q x)} (l : list A) :
  Forall (λ x, P x ↔ Q x) l → filter P l = filter Q l.
Proof.
  induction 1 as [|x l' Hx _ IH]; [done|].
  rewrite !filter_cons, IH.
  destruct (decide (P x)), (decide (Q x)); tauto.
Qed.

Lemma filter_none {A : Type} (P : A → Prop) `{!∀ x, Decision (P x)} (l : list A) :
  Forall (λ x, ¬ P x) l → filter P l = [].
Proof.
  induction 1 as [|x l' Hx _ IH]; [done|].
  by rewrite filter_cons_False.
Qed.

Lemma gtb_zero (threshold : Z) :
  0 ≤ threshold → JsNumber.gtb (Num 0) (JsNumber.ofZ threshold) = false.
Proof.
  intros Hle. unfold JsNumber.gtb, JsNumber.ofZ.
  apply negb_false_iff, Qle_bool_iff.
  change (inject_Z 0 <= inject_Z threshold)%Q. by rewrite <- Zle_Qle.
Qed.

Lemma tracked_average_zero (isoDate : Z → string) (cfg : EndpointUsageConfig)
    (calls : list (Z * Z * UsageData.t)) :
  Forall (λ stat, JsNumber.orZero (EndpointStats.averageResponseTime stat) = Num 0)
    (getPerformanceStats cfg None None (trackAll isoDate cfg calls emptyRedis)).
Proof.
  apply Forall_forall. intros stat Hin.
  apply getPerformanceStats_derived_zero in Hin as [_ ->]. done.
Qed.

(** X19.  After any sequence of calls tracked into an empty store, and
    for a threshold that is not negative, [getSlowEndpoints] decides by
    the 95th percentile alone: the average response time of a
    performance record is read from a field that tracking never writes,
    so it is 0 and never above the threshold. *)
Theorem X19_slow_by_percentile_only (isoDate : Z → string)
    (cfg : EndpointUsageConfig) (calls : list (Z * Z * UsageData.t))
    (thresholdMs : Z) :
  0 ≤ thresholdMs →
  let r := trackAll isoDate cfg calls emptyRedis in
  getSlowEndpoints cfg thresholdMs r
  = filter (λ stat, thresholdMs < p95OrZero stat) (getPerformanceStats cfg None None r).
Proof.
  intros Hthreshold r. unfold getSlowEndpoints. apply filter_ext_in.
  eapply Forall_impl; [apply tracked_average_zero|].
  intros stat Havg. cbv beta in *. rewrite Havg, gtb_zero by done.
  cbn [orb]. by rewrite Z.ltb_lt.
Qed.

Lemma X19_witness :
  0 ≤ 1000
  ∧ getSlowEndpoints sampleConfig 1000
      (trackAll sampleDate sampleConfig
         [(60000, 60000, sampleRequest "/health" (Some 9000))] emptyRedis)
    = filter (λ stat, 1000 < p95OrZero stat)
        (getPerformanceStats sampleConfig None None
           (trackAll sampleDate sampleConfig
              [(60000, 60000, sampleRequest "/health" (Some 9000))] emptyRedis)).
Proof.
  split; [lia|].
  apply (X19_slow_by_percentile_only sampleDate sampleConfig
           [(60000, 60000, sampleRequest "/health" (Some 9000))] 1000).
  lia.
Defined.

(** X20.  After any sequence of calls tracked into an empty store, a
    report whose slow threshold is not negative lists no slow endpoint and
    counts none, however long the tracked requests took. *)
Theorem X20_report_lists_no_slow_endpoint (isoDate : Z → string)
    (trackerCfg : EndpointUsageConfig) (daysBefore : Z → Z → option Z)
    (config : ReportConfig) (discoveredRoutes discoveredLater : list RouteInfo.t)
    (clock : ReportClock) (calls : list (Z * Z * UsageData.t)) :
  (∀ alerts, performanceAlerts config = Some alerts →
             0 ≤ slowEndpointThresholdMs alerts) →
  let report :=
    generateReport trackerCfg daysBefore config discoveredRoutes discoveredLater clock
      (trackAll isoDate trackerCfg calls emptyRedis) in
  UsageReport.slowEndpoints report = []
  ∧ Summary.slowEndpoints (UsageReport.summary report) = 0.
Proof.
  intros Halerts. cbv zeta. unfold generateReport.
  cbn [UsageReport.summary UsageReport.slowEndpoints Summary.slowEndpoints].
  assert (Hthreshold : 0 ≤ orElse (slowEndpointThresholdMs <$> performanceAlerts config) 2000).
  { unfold orElse. destruct (performanceAlerts config) as [alerts|]; [|done].
    cbn. specialize (Halerts alerts eq_refl).
    unfold truthy. by case_match. }
  rewrite filter_none; [done|].
  eapply Forall_impl; [apply (tracked_average_zero isoDate)|].
  intros stat Havg. cbv beta in *. by rewrite Havg, gtb_zero.
Qed.

Lemma X20_witness :
  (∀ alerts, performanceAlerts sampleReportConfig = Some alerts →
             0 ≤ slowEndpointThresholdMs alerts)
  ∧ UsageReport.slowEndpoints
      (generateReport sampleConfig utcDaysBefore sampleReportConfig
         [healthRoute] [healthRoute] (steadyClock 60000)
         (trackAll sampleDate sampleConfig
            [(60000, 60000, sampleRequest "/health" (Some 9000))] emptyRedis))
    = [].
Proof.
  assert (Halerts : ∀ alerts, performanceAlerts sampleReportConfig = Some alerts →
                              0 ≤ slowEndpointThresholdMs alerts).
  { intros alerts Heq. vm_compute in Heq. discriminate Heq. }
  split; [exact Halerts|].
  exact (proj1 (X20_report_lists_no_slow_endpoint sampleDate sampleConfig
                  utcDaysBefore sampleReportConfig [healthRoute] [healthRoute]
                  (steadyClock 60000)
                  [(60000, 60000, sampleRequest "/health" (Some 9000))] Halerts)).
Defined.

(** ** Delivery of a report *)

Lemma sendNotifications_deliveries (config : ReportConfig)
    (fetch : string → FetchResult) (report : UsageReport.t) :
  filter (λ e, isDelivery e = true) (sendNotifications config fetch report)
  = (match webhook (notifications config) with
     | Some hook => [FetchPost (url hook)]
     | None => []
     end
     ++ match slack (notifications config) with
        | Some hook => [FetchPost (webhookUrl hook)]
        | None => []
        end
     ++ match email (notifications config) with
        | Some _ => [ConsoleLog "Email notification placeholder - implement with nodemailer"]
        | None => []
        end)%list.
Proof.
  unfold sendNotifications, sendWebhookNotification, sendSlackNotification,
    sendEmailNotification, postAndCheck.
  destruct (webhook (notifications config)) as [hook|];
    destruct (slack (notifications config)) as [hook'|];
    destruct (email (notifications config));
    try destruct (fetch (url hook)) as [[]|];
    try destruct (fetch (webhookUrl hook')) as [[]|];
    reflexivity.
Qed.

(** X21.  A channel that fails only logs an error: whatever the POSTs
    answer, [sendNotifications] tries every configured channel once, in
    the order web hook, Slack, e-mail, and a whole tick of the scheduler
    attempts the same deliveries, the HTML report included. *)
Theorem X21_failing_channel_only_logs (trackerCfg : EndpointUsageConfig)
    (daysBefore : Z → Z → option Z) (config : ReportConfig)
    (discoveredRoutes discoveredLater : list RouteInfo.t)
    (fetch fetch' : string → FetchResult) (clock : ReportClock)
    (store : option Redis) (report : UsageReport.t) :
  filter (λ e, isDelivery e = true) (sendNotifications config fetch report)
  = (match webhook (notifications config) with
     | Some hook => [FetchPost (url hook)]
     | None => []
     end
     ++ match slack (notifications config) with
        | Some hook => [FetchPost (webhookUrl hook)]
        | None => []
        end
     ++ match email (notifications config) with
        | Some _ => [ConsoleLog "Email notification placeholder - implement with nodemailer"]
        | None => []
        end)%list
  ∧ filter (λ e, isDelivery e = true)
      (generateAndSendReport trackerCfg daysBefore config discoveredRoutes
         discoveredLater fetch clock store)
    = filter (λ e, isDelivery e = true)
        (generateAndSendReport trackerCfg daysBefore config discoveredRoutes
           discoveredLater fetch' clock store).
Proof.
  split; [apply sendNotifications_deliveries|].
  unfold generateAndSendReport. destruct store as [r|]; [|done].
  destruct (length _ =? 0)%nat; [done|].
  rewrite !filter_app. by rewrite !sendNotifications_deliveries.
Qed.

(** ** The scheduler *)

(** X22.  With reporting enabled, [start] on a stopped reporter fires one
    tick at once and sets one interval of [intervalHours] hours; a second
    [start] while it runs does nothing and keeps the first timer; [stop]
    clears exactly that timer, a second [stop] does nothing, and the
    reporter can then be started again. *)
Theorem X22_scheduler_start_stop (config : ReportConfig) (timer timer' : positive) :
  enabled config = true →
  let started := start config timer None in
  let stopped := stop started.1 in
  started.1 = Some timer
  ∧ tail started.2 = [TickFired; IntervalSet (intervalHours config * 3600000)]
  ∧ start config timer' started.1 = (Some timer, [])
  ∧ stopped = (None, [IntervalCleared timer; Logged "Automatic reporting stopped."])
  ∧ stop stopped.1 = (None, [])
  ∧ (start config timer' stopped.1).1 = Some timer'.
Proof.
  intros Hen. cbv zeta. unfold start, stop. rewrite Hen. cbn.
  assert (Hms : intervalHours config * 60 * 60 * 1000 = intervalHours config * 3600000)
    by lia.
  rewrite Hms. by repeat split.
Qed.

Lemma X22_witness :
  enabled sampleReportConfig = true
  ∧ start sampleReportConfig 2 (start sampleReportConfig 1 None).1 = (Some 1%positive, []).
Proof.
  split; [reflexivity|].
  apply (X22_scheduler_start_stop sampleReportConfig 1 2). reflexivity.
Defined.

(** ** Clearing the statistics *)

Section ClearFacts.
Context (keep : string → bool) (step : Redis * RouteRedis → string → Redis * RouteRedis).
Context (Hstep : ∀ store key,
            step store key
            = if keep key then store
              else (del store.1 key,
                    {| routeHashes := delete key (routeHashes store.2);
                       routeExpiry := delete key (routeExpiry store.2);
                       routeDeadline := delete key (routeDeadline store.2);
                       routeClock := routeClock store.2 |})).



End ClearFacts.

Lemma elem_of_keys (r : Redis) (pattern : Pattern) (key : string) :
  key ∈ keys r pattern
  ↔ matches pattern key = true
    ∧ (is_Some (hashes r !! key) ∨ is_Some (lists r !! key)).
Proof.
  unfold keys.
  by rewrite list_elem_of_filter, elem_of_elements, elem_of_union, !elem_of_dom.
Qed.





(** The daily record of the sample request, dated 1970-01-01, is deleted
    by a clearing for 30 days made 100 days later, and kept when the
    threshold is no valid date. *)
Example clearStats_daily_record :
  let key := dailyKey sampleDate sampleConfig 60000 "GET:/health" in
  let dated (text : option string) : option Z :=
    if decide (text = Some "1970-01-01") then Some 0 else None in
  hgetall (clearStats sampleConfig utcDaysBefore dated 8640000000 (Some 30)
             (healthStore, emptyRoutes)).1 key !! "count" = None
  ∧ hgetall (clearStats sampleConfig (λ _ _, None) dated 8640000000 (Some 30)
               (healthStore, emptyRoutes)).1 key !! "count" = Some 1.
Proof. split; vm_compute; reflexivity. Qed.

(** ** The route registry *)


Lemma routeHsetnx_set (key field value : string) (rr : RouteRedis) :
  is_Some (default ∅ (routeHashes rr !! key) !! field) →
  routeHsetnx key field value rr = rr.
Proof. intros [old Hold]. unfold routeHsetnx. by rewrite Hold. Qed.

(** What is left of a registered route once the clock shows [t]. *)
Lemma routeHashes_advanceRoutes (t : Z) (rr : RouteRedis) (key : string) :
  routeHashes (advanceRoutes t rr) !! key
  = match routeDeadline rr !! key with
    | Some d => if d <? t then None else routeHashes rr !! key
    | None => routeHashes rr !! key
    end.
Proof.
  unfold advanceRoutes. cbn [routeHashes].
  rewrite (lookup_filter_key
             (λ key, match routeDeadline rr !! key with
                     | Some d => negb (d <? t)
                     | None => true
                     end)).
  destruct (routeDeadline rr !! key) as [d|]; [|done].
  by destruct (d <? t).
Qed.

Lemma registerRoute_fresh (cfg : EndpointUsageConfig) (now : Z)
    (method path : string) (rr : RouteRedis) :
  shouldTrackPath cfg path = true →
  routeHashes rr !! routeKey cfg (normalizeEndpoint cfg method path) = None →
  routeHashes (registerRoute cfg now method path rr)
    !! routeKey cfg (normalizeEndpoint cfg method path)
  = Some {[ "discovered_at" := pretty now;
            "method" := toUpperCase method;
            "path" := path ]}
  ∧ routeExpiry (registerRoute cfg now method path rr)
      !! routeKey cfg (normalizeEndpoint cfg method path)
    = Some 31536000
  ∧ routeDeadline (registerRoute cfg now method path rr)
      !! routeKey cfg (normalizeEndpoint cfg method path)
    = Some (routeClock rr + 31536000000).
Proof.
  intros Htrack Hfresh.
  set (key := routeKey cfg (normalizeEndpoint cfg method path)) in *.
  unfold registerRoute. rewrite Htrack. cbn [negb]. cbv zeta.
    fold (routeKey cfg (normalizeEndpoint cfg method path)). fold key.
    set (rr1 := routeHsetnx key "discovered_at" (pretty now) rr).
    set (rr2 := routeHsetnx key "method" (toUpperCase method) rr1).
    set (rr3 := routeHsetnx key "path" path rr2).
    assert (E1 : rr1 = {| routeHashes :=
                            <[key := {[ "discovered_at" := pretty now ]}]> (routeHashes rr);
                          routeExpiry := routeExpiry rr;
                          routeDeadline := routeDeadline rr;
                          routeClock := routeClock rr |}).
    { unfold rr1, routeHsetnx. rewrite Hfresh. cbn. by rewrite lookup_empty. }
    assert (E2 : rr2 = {| routeHashes :=
                            <[key := <["method" := toUpperCase method]>
                                       {[ "discovered_at" := pretty now ]}]>
                              (routeHashes rr);
                          routeExpiry := routeExpiry rr;
                          routeDeadline := routeDeadline rr;
                          routeClock := routeClock rr |}).
    { unfold rr2, routeHsetnx. rewrite E1.
      cbn [routeHashes routeExpiry routeDeadline routeClock].
      rewrite lookup_insert_eq. cbn [default from_option id].
      rewrite lookup_singleton_ne by done. by rewrite insert_insert_eq. }
    assert (E3 : rr3 = {| routeHashes :=
                            <[key := <["path" := path]>
                                       (<["method" := toUpperCase method]>
                                          {[ "discovered_at" := pretty now ]})]>
                              (routeHashes rr);
                          routeExpiry := routeExpiry rr;
                          routeDeadline := routeDeadline rr;
                          routeClock := routeClock rr |}).
    { unfold rr3, routeHsetnx. rewrite E2.
      cbn [routeHashes routeExpiry routeDeadline routeClock].
      rewrite lookup_insert_eq. cbn [default from_option id].
      rewrite lookup_insert_ne by done. rewrite lookup_singleton_ne by done.
      by rewrite insert_insert_eq. }
    assert (H3 : routeHashes rr3 !! key
                 = Some (<["path" := path]>
                           (<["method" := toUpperCase method]>
                              {[ "discovered_at" := pretty now ]}))).
    { rewrite E3. cbn [routeHashes]. by rewrite lookup_insert_eq. }
    unfold routeExpire. rewrite bool_decide_eq_true_2 by (by rewrite H3).
    cbn [routeHashes routeExpiry routeDeadline]. rewrite H3, !lookup_insert_eq.
    split; [by f_equal|]. split; [done|].
    rewrite E3. cbn [routeClock]. by f_equal.
Qed.



Lemma registerRoute_complete (cfg : EndpointUsageConfig) (now : Z)
    (method path : string) (rr : RouteRedis) (data : gmap string string) :
  routeHashes rr !! routeKey cfg (normalizeEndpoint cfg method path) = Some data →
  is_Some (data !! "discovered_at") → is_Some (data !! "method") →
  is_Some (data !! "path") →
  routeHashes (registerRoute cfg now method path rr) = routeHashes rr.
Proof.
  intros Hdata Hd Hm Hp. unfold registerRoute.
  destruct (negb (shouldTrackPath cfg path)); [done|]. cbv zeta.
  fold (routeKey cfg (normalizeEndpoint cfg method path)).
  rewrite (routeHsetnx_set _ "discovered_at" _ rr) by (by rewrite Hdata).
  rewrite (routeHsetnx_set _ "method" _ rr) by (by rewrite Hdata).
  rewrite (routeHsetnx_set _ "path" _ rr) by (by rewrite Hdata).
  unfold routeExpire. by case_bool_decide.
Qed.

(** X26.  The first registration of a route wins for as long as its
    record lives, which is one year: registering again under the same key
    within that year — the same route, or another method and path that
    normalise to the same endpoint — leaves the stored method, path and
    time of discovery as they are.  A registration that comes later than
    that finds the record gone and stores its own method, path and time.
    Each registration is made on the store as it is when its clock reading
    is taken. *)
Theorem X26_first_registration_wins (cfg : EndpointUsageConfig) (now now' : Z)
    (method path method' path' : string) (rr : RouteRedis) :
  shouldTrackPath cfg path = true →
  routeHashes rr !! routeKey cfg (normalizeEndpoint cfg method path) = None →
  normalizeEndpoint cfg method' path' = normalizeEndpoint cfg method path →
  let key := routeKey cfg (normalizeEndpoint cfg method path) in
  let first := registerRoute cfg now method path (advanceRoutes now rr) in
  let second := registerRoute cfg now' method' path' (advanceRoutes now' first) in
  (now' ≤ now + 31536000000 →
   routeHashes second !! key = routeHashes first !! key)
  ∧ (now + 31536000000 < now' →
     shouldTrackPath cfg path' = true →
     routeHashes second !! key
     = Some {[ "discovered_at" := pretty now';
               "method" := toUpperCase method';
               "path" := path' ]}).
Proof.
  intros Htrack Hfresh Hsame key first second. fold key in Hfresh.
  assert (Hfresh' : routeHashes (advanceRoutes now rr) !! key = None).
  { rewrite routeHashes_advanceRoutes, Hfresh.
    destruct (routeDeadline rr !! key) as [d|]; [|done]. by destruct (d <? now). }
  destruct (registerRoute_fresh cfg now method path (advanceRoutes now rr) Htrack Hfresh')
    as (Hhash & _ & Hdead).
  fold first key in Hhash, Hdead. cbn [advanceRoutes routeClock] in Hdead.
  assert (Hlater : routeHashes (advanceRoutes now' first) !! key
                   = if now + 31536000000 <? now' then None
                     else routeHashes first !! key).
  { by rewrite routeHashes_advanceRoutes, Hdead. }
  split.
  - intros Hsoon. rewrite (proj2 (Z.ltb_ge _ _)) in Hlater by lia.
    unfold second. erewrite registerRoute_complete; [done|..].
    + rewrite Hsame. fold key. rewrite Hlater. exact Hhash.
    + done.
    + done.
    + done.
  - intros Hlate Htrack'. rewrite (proj2 (Z.ltb_lt _ _)) in Hlater by lia.
    unfold second, key. rewrite <- Hsame.
    apply registerRoute_fresh; [done|]. rewrite Hsame. exact Hlater.
Qed.

Lemma X26_witness :
  shouldTrackPath sampleConfig "/users/42" = true
  ∧ routeHashes emptyRoutes
      !! routeKey sampleConfig (normalizeEndpoint sampleConfig "get" "/users/42") = None
  ∧ normalizeEndpoint sampleConfig "GET" "/users/7"
    = normalizeEndpoint sampleConfig "get" "/users/42"
  ∧ 120000 ≤ 60000 + 31536000000
  ∧ routeHashes (registerRoute sampleConfig 120000 "GET" "/users/7"
                   (advanceRoutes 120000
                      (registerRoute sampleConfig 60000 "get" "/users/42"
                         (advanceRoutes 60000 emptyRoutes))))
      !! routeKey sampleConfig (normalizeEndpoint sampleConfig "get" "/users/42")
    = routeHashes (registerRoute sampleConfig 60000 "get" "/users/42"
                     (advanceRoutes 60000 emptyRoutes))
        !! routeKey sampleConfig (normalizeEndpoint sampleConfig "get" "/users/42").
Proof.
  assert (H : 120000 ≤ 60000 + 31536000000) by lia.
  split; [reflexivity|]. split; [reflexivity|]. split; [reflexivity|].
  split; [exact H|].
  exact (proj1 (X26_first_registration_wins sampleConfig 60000 120000 "get" "/users/42"
                  "GET" "/users/7" emptyRoutes eq_refl eq_refl eq_refl) H).
Defined.

(** A second registration 400 days after the first finds the record gone
    and stores a new time of discovery. *)
Example registration_after_a_year :
  let first := registerRoute sampleConfig 60000 "get" "/users/42"
                 (advanceRoutes 60000 emptyRoutes) in
  let second := registerRoute sampleConfig (60000 + 400 * 86400000) "get" "/users/42"
                  (advanceRoutes (60000 + 400 * 86400000) first) in
  map RegisteredRoute.discoveredAt (getRegisteredRoutes sampleConfig first)
  = [Some 60000]
  ∧ map RegisteredRoute.discoveredAt (getRegisteredRoutes sampleConfig second)
    = [Some (60000 + 400 * 86400000)].
Proof. split; vm_compute; reflexivity. Qed.

(** ** Route paths of NestJS controllers *)

Lemma startsWith_slash_app (a b : string) :
  startsWith a "/" = true → startsWith (a +:+ b) "/" = true.
Proof.
  intros [rest ->]%startsWith_inv. rewrite append_assoc. apply startsWith_app.
Qed.

(** X27.  The path the NestJS discovery builds from a controller path and
    a route path always starts with a slash, and a missing leading slash on
    either part makes no difference to it; with an empty route path it is
    the controller path, and with an empty controller path the route
    path, each with its leading slash. *)
Theorem X27_nest_path_leading_slash (controllerPath routePath : string) :
  let lead (s : string) := if startsWith s "/" then s else "/" +:+ s in
  startsWith (NestJS.normalizePath controllerPath routePath) "/" = true
  ∧ NestJS.normalizePath (lead controllerPath) (lead routePath)
    = NestJS.normalizePath controllerPath routePath
  ∧ NestJS.normalizePath controllerPath "" = lead controllerPath
  ∧ NestJS.normalizePath "" routePath = lead routePath.
Proof.
  cbv zeta. unfold NestJS.normalizePath.
  assert (Hlead : ∀ s, startsWith (if startsWith s "/" then s else "/" +:+ s) "/" = true).
  { intros s. destruct (startsWith s "/") eqn:Hs; [done|apply startsWith_app]. }
  split; [|split; [|split]].
  - repeat case_bool_decide; try done; try apply Hlead.
    apply startsWith_slash_app, Hlead.
  - by rewrite !Hlead.
  - change (startsWith "" "/") with false. cbv iota.
    change ("/" +:+ "") with "/". rewrite (bool_decide_eq_true_2 ("/" = "/")) by done.
    case_bool_decide as Hc; [by rewrite Hc|done].
  - change (startsWith "" "/") with false. cbv iota.
    change ("/" +:+ "") with "/". rewrite (bool_decide_eq_true_2 ("/" = "/")) by done.
    case_bool_decide as Hr; [by rewrite Hr|done].
Qed.

(** ** The daily records *)

Lemma colon_free_prefix (a b x y : string) :
  hasChar ":" a = false → hasChar ":" b = false →
  a +:+ ":" +:+ x = b +:+ ":" +:+ y → a = b ∧ x = y.
Proof.
  intros Ha Hb Heq.
  assert (Hsplit : split ":" (a +:+ String ":" x) = split ":" (b +:+ String ":" y))
    by (by f_equal).
  rewrite !split_app_sep in Hsplit by done.
  injection Hsplit as -> _. split; [done|].
  apply append_inj_r in Heq. by injection Heq.
Qed.

Section Daily.
Context (isoDate : Z → string) (cfg : EndpointUsageConfig).
Context (Hdate : ∀ instant, hasChar ":" (isoDate instant) = false).

Lemma dailyKey_inj (today day : Z) (e e' : string) :
  dailyKey isoDate cfg today e = dailyKey isoDate cfg day e' →
  isoDate today = isoDate day ∧ e = e'.
Proof.
  unfold dailyKey. intros Heq%append_inj_r%append_inj_r.
  by apply colon_free_prefix.
Qed.

(** The daily record of [endpoint'] on the day of [day] after a tracked
    call: the daily pipeline applied to it when the call is for that
    endpoint and booked on that day, the record as it was otherwise. *)
Lemma trackUsage_at_daily (now today day : Z) (usageData : UsageData.t) (r : Redis)
    (endpoint' f : string) :
  shouldTrackPath cfg (UsageData.path usageData) = true →
  let endpoint :=
    normalizeEndpoint cfg (UsageData.method usageData) (UsageData.path usageData) in
  hgetall (trackUsage isoDate cfg now today usageData r)
    (dailyKey isoDate cfg day endpoint') !! f
  = if decide (endpoint = endpoint' ∧ isoDate today = isoDate day)
    then foldl (λ v c, fieldStep c f v)
           (hgetall r (dailyKey isoDate cfg day endpoint') !! f)
           (dailyPipeline isoDate cfg today endpoint (stamp usageData now))
    else hgetall r (dailyKey isoDate cfg day endpoint') !! f.
Proof.
  intros Htrack endpoint. unfold trackUsage. rewrite Htrack. cbn [negb]. cbv zeta.
  fold endpoint.
  destruct (family_keys_distinct isoDate cfg day endpoint endpoint' endpoint endpoint)
    as (Hglobal & _ & _ & Hperf & Hraw & _).
  rewrite updatePerformanceStats_other_key by done.
  unfold updateCounters.
  rewrite pipeline_other_key
    by (eapply keys_elsewhere; [|apply countersPipeline_keys]; done).
  unfold updateDailyStats.
  case_decide as He.
  - destruct He as [<- Hday].
    assert (Hkey : dailyKey isoDate cfg day endpoint = dailyKey isoDate cfg today endpoint)
      by (unfold dailyKey; by rewrite Hday).
    rewrite Hkey, pipeline_own_key by apply dailyPipeline_keys.
    by rewrite !exec_other_key.
  - rewrite pipeline_other_key.
    + by rewrite !exec_other_key.
    + eapply keys_elsewhere; [|apply dailyPipeline_keys].
      intros Heq%dailyKey_inj. tauto.
Qed.

Lemma requestsOn_cons (date endpoint : string) (now today : Z)
    (usageData : UsageData.t) (calls : list (Z * Z * UsageData.t)) :
  requestsOn isoDate cfg date endpoint ((now, today, usageData) :: calls)
  = if hits cfg endpoint usageData && bool_decide (isoDate today = date)
    then usageData :: requestsOn isoDate cfg date endpoint calls
    else requestsOn isoDate cfg date endpoint calls.
Proof.
  unfold requestsOn. rewrite filter_cons. cbn [hitsOn].
  destruct (hits cfg endpoint usageData && bool_decide (isoDate today = date));
    by case_decide.
Qed.

(** A field every call for the endpoint raises by [delta] in the record
    of its day is raised there, over a sequence of calls the record
    outlives, by the sum of [delta] over the requests that hit the
    endpoint on that day. *)
Lemma trackAll_daily_tally (day : Z) (endpoint f : string) (delta : UsageData.t → Z)
    (calls : list (Z * Z * UsageData.t)) (r : Redis) :
  (∀ today e data v,
     default 0 (foldl (λ v c, fieldStep c f v) v (dailyPipeline isoDate cfg today e data))
     = default 0 v + delta data) →
  (∀ u now, delta (stamp u now) = delta u) →
  survives isoDate cfg (dailyKey isoDate cfg day endpoint) calls r = true →
  default 0 (hgetall (trackAll isoDate cfg calls r) (dailyKey isoDate cfg day endpoint) !! f)
  = default 0 (hgetall r (dailyKey isoDate cfg day endpoint) !! f)
    + sumZ (map delta (requestsOn isoDate cfg (isoDate day) endpoint calls)).
Proof.
  intros Hstep Hstamp. unfold trackAll. revert r.
  induction calls as [|[[now today] u] calls IH]; intros r Hlife.
  { cbn. lia. }
  cbn [foldl survives] in *. rewrite requestsOn_cons. unfold hits.
  destruct (shouldTrackPath cfg (UsageData.path u)) eqn:Htrack; cbn [andb];
    [|by apply IH].
  apply andb_true_iff in Hlife as [Halive Hlife].
  rewrite IH by done. rewrite trackUsage_at_daily by done. cbv zeta.
  rewrite hgetall_advance, Halive.
  case_decide as He.
  - destruct He as [He Hday].
    rewrite !bool_decide_eq_true_2 by done. cbn [andb].
    rewrite Hstep, Hstamp. unfold sumZ. cbn [map foldr]. lia.
  - destruct (bool_decide _ && bool_decide _) eqn:Hb; [|done].
    apply andb_true_iff in Hb as [H1%bool_decide_eq_true H2%bool_decide_eq_true].
    tauto.
Qed.

End Daily.

Section DailyEffects.
Context (isoDate : Z → string) (cfg : EndpointUsageConfig).
Context (today : Z) (endpoint : string) (data : UsageData.t) (v : option Z).

Let step (f : string) : option Z :=
  foldl (λ v c, fieldStep c f v) v (dailyPipeline isoDate cfg today endpoint data).

Lemma daily_count : step "count" = Some (default 0 v + 1).
Proof.
  unfold step, dailyPipeline.
  destruct (truthy (UsageData.responseTime data)); by field_steps.
Qed.

Lemma daily_response_count :
  default 0 (step "response_count")
  = default 0 v + match truthy (UsageData.responseTime data) with
                  | Some _ => 1 | None => 0 end.
Proof.
  unfold step, dailyPipeline.
  destruct (truthy (UsageData.responseTime data)); field_steps; simpl; lia.
Qed.

Lemma daily_total_response_time :
  default 0 (step "total_response_time")
  = default 0 v + default 0 (truthy (UsageData.responseTime data)).
Proof.
  unfold step, dailyPipeline.
  destruct (truthy (UsageData.responseTime data)); field_steps; simpl; lia.
Qed.

Lemma daily_status (code : Z) :
  default 0 (step ("status_" +:+ pretty code))
  = default 0 v + (if decide (UsageData.statusCode data = code) then 1 else 0).
Proof.
  unfold step, dailyPipeline.
  destruct (decide (UsageData.statusCode data = code)) as [->|Hne];
    destruct (truthy (UsageData.responseTime data)); field_steps.
  1,2: simpl; lia.
  all: rewrite decide_False by (by rewrite status_field_eq); simpl; lia.
Qed.

End DailyEffects.

(** X28.  When the dates the tracker writes contain no colon, the daily
    record of an endpoint for a day counts, over a sequence of calls that
    it outlives (no tracked call arrives after its 90 days to live,
    renewed by every call booked on it, have run out), exactly the tracked
    requests for that endpoint booked on that day:
    [count] rises by their number, [response_count] by the number of them
    with a non-zero response time, [total_response_time] by the sum of
    those times and each [status_{code}] by the number of them with that
    status.  Requests booked on other days or for other endpoints change
    none of these. *)
Theorem X28_daily_totals (isoDate : Z → string) (cfg : EndpointUsageConfig)
    (day : Z) (endpoint : string) (calls : list (Z * Z * UsageData.t)) (r : Redis) :
  (∀ instant, hasChar ":" (isoDate instant) = false) →
  survives isoDate cfg (dailyKey isoDate cfg day endpoint) calls r = true →
  let requests := requestsOn isoDate cfg (isoDate day) endpoint calls in
  let before f := default 0 (hgetall r (dailyKey isoDate cfg day endpoint) !! f) in
  let after f :=
    default 0 (hgetall (trackAll isoDate cfg calls r)
                 (dailyKey isoDate cfg day endpoint) !! f) in
  after "count" = before "count" + Z.of_nat (length requests)
  ∧ after "response_count"
    = before "response_count" + Z.of_nat (length (measuredTimes requests))
  ∧ after "total_response_time"
    = before "total_response_time" + sumZ (measuredTimes requests)
  ∧ ∀ code,
      after ("status_" +:+ pretty code)
      = before ("status_" +:+ pretty code)
        + Z.of_nat (length (filter (λ u, UsageData.statusCode u = code) requests)).
Proof.
  intros Hdate Hlife requests before after. subst requests before after. cbv beta.
  split; [|split; [|split]].
  - rewrite (trackAll_daily_tally isoDate cfg Hdate day endpoint "count" (λ _, 1));
      [by rewrite sumZ_ones| |done|done].
    intros today e data v. by rewrite daily_count.
  - rewrite (trackAll_daily_tally isoDate cfg Hdate day endpoint "response_count"
               (λ u, match truthy (UsageData.responseTime u) with
                     | Some _ => 1 | None => 0 end));
      [by rewrite (proj2 (sumZ_measured _))| |done|done].
    intros today e data v. apply daily_response_count.
  - rewrite (trackAll_daily_tally isoDate cfg Hdate day endpoint "total_response_time"
               (λ u, default 0 (truthy (UsageData.responseTime u))));
      [by rewrite (proj1 (sumZ_measured _))| |done|done].
    intros today e data v. apply daily_total_response_time.
  - intros code.
    rewrite (trackAll_daily_tally isoDate cfg Hdate day endpoint
               ("status_" +:+ pretty code)
               (λ u, if decide (UsageData.statusCode u = code) then 1 else 0));
      [by rewrite sumZ_indicator| |done|done].
    intros today e data v. apply daily_status.
Qed.

Lemma X28_witness :
  (∀ instant, hasChar ":" (sampleDate instant) = false)
  ∧ survives sampleDate sampleConfig
      (dailyKey sampleDate sampleConfig 0 "GET:/users/:id") sampleCalls emptyRedis = true
  ∧ default 0 (hgetall (trackAll sampleDate sampleConfig sampleCalls emptyRedis)
                 (dailyKey sampleDate sampleConfig 0 "GET:/users/:id") !! "count")
    = default 0 (hgetall emptyRedis (dailyKey sampleDate sampleConfig 0 "GET:/users/:id")
                   !! "count")
      + Z.of_nat (length (requestsOn sampleDate sampleConfig (sampleDate 0)
                            "GET:/users/:id" sampleCalls)).
Proof.
  assert (Hdate : ∀ instant, hasChar ":" (sampleDate instant) = false)
    by (intros instant; reflexivity).
  assert (Hlife : survives sampleDate sampleConfig
                    (dailyKey sampleDate sampleConfig 0 "GET:/users/:id")
                    sampleCalls emptyRedis = true)
    by (by vm_compute).
  split; [exact Hdate|]. split; [exact Hlife|].
  exact (proj1 (X28_daily_totals sampleDate sampleConfig 0 "GET:/users/:id"
                  sampleCalls emptyRedis Hdate Hlife)).
Defined.

(** ** Routes with parameters in the report *)

Lemma find_none {A : Type} (f : A → bool) (l : list A) :
  Forall (λ x, f x = false) l → find f l = None.
Proof.
  induction 1 as [|x l' Hx _ IH]; [done|].
  cbn [find]. by rewrite Hx.
Qed.

Lemma getEndpointStats_path_no_colon (cfg : EndpointUsageConfig)
    (method path : option string) (r : Redis) (stat : EndpointStats.t) (p : string) :
  stat ∈ getEndpointStats cfg method path r →
  EndpointStats.path stat = Some p → hasChar ":" p = false.
Proof.
  intros Hin Hp. unfold getEndpointStats in Hin.
  apply sort_elem_of, list_elem_of_omap in Hin as (key & _ & Hstat).
  unfold endpointStatsOf in Hstat.
  destruct (decide _); [done|].
  destruct (splitEndpoint _) as [m q] eqn:Hsplit.
  injection Hstat as <-. cbn in Hp. subst q.
  eapply splitEndpoint_no_colon. by rewrite Hsplit.
Qed.

(** X29.  In a report a discovered route whose path contains a colon is
    always listed among the unused endpoints as never used — no request
    and one day more than the threshold since its last use — however
    often it was requested. *)
Theorem X29_routes_with_colon_never_used (trackerCfg : EndpointUsageConfig)
    (daysBefore : Z → Z → option Z) (config : ReportConfig)
    (discoveredRoutes discoveredLater : list RouteInfo.t) (clock : ReportClock)
    (r : Redis) (route : RouteInfo.t) :
  route ∈ discoveredRoutes →
  hasChar ":" (RouteInfo.path route) = true →
  {| UnusedEndpoint.route := route;
     UnusedEndpoint.daysSinceLastUse := daysThreshold config + 1;
     UnusedEndpoint.totalRequests := 0 |}
  ∈ UsageReport.unusedEndpoints
      (generateReport trackerCfg daysBefore config discoveredRoutes discoveredLater
         clock r).
Proof.
  intros Hin Hcolon. unfold generateReport, generateUsageReport.
  cbn [UsageReport.unusedEndpoints RouteUsage.unusedRoutes RouteUsage.usageStats].
  apply sort_elem_of, elem_of_lookup_imap.
  pose proof (findUnusedRoutes_colon trackerCfg daysBefore discoveredRoutes
                (atRoutes clock) (daysThreshold config) r route Hin Hcolon) as Hunused.
  apply list_elem_of_lookup in Hunused as [i Hi].
  exists i, route. split; [|done].
  rewrite find_none; [done|].
  apply Forall_forall. intros stat Hstat.
  apply bool_decide_eq_false. intros [_ Hpath].
  apply (getEndpointStats_path_no_colon _ _ _ _ _ _ Hstat) in Hpath. congruence.
Qed.

Lemma X29_witness :
  userRoute ∈ [userRoute]
  ∧ hasChar ":" (RouteInfo.path userRoute) = true
  ∧ {| UnusedEndpoint.route := userRoute;
       UnusedEndpoint.daysSinceLastUse := daysThreshold sampleReportConfig + 1;
       UnusedEndpoint.totalRequests := 0 |}
    ∈ UsageReport.unusedEndpoints
        (generateReport sampleConfig utcDaysBefore sampleReportConfig
           [userRoute] [userRoute] (steadyClock 60000)
           (trackUsage sampleDate sampleConfig 60000 60000
              (sampleRequest "/users/:id" (Some 5)) emptyRedis)).
Proof.
  assert (Hin : userRoute ∈ [userRoute]) by left.
  split; [exact Hin|]. split; [reflexivity|].
  exact (X29_routes_with_colon_never_used sampleConfig utcDaysBefore
           sampleReportConfig [userRoute] [userRoute] (steadyClock 60000) _ userRoute
           Hin eq_refl).
Defined.

(** ** Queries for one endpoint *)

Lemma special_false (c : ascii) :
  Glob.special c = false →
  Ascii.eqb c "*" = false ∧ Ascii.eqb c "?" = false ∧ Ascii.eqb c "[" = false
  ∧ Ascii.eqb c Glob.backslash = false.
Proof. unfold Glob.special. rewrite !orb_false_iff. tauto. Qed.

Lemma plain_app (a b : string) :
  Glob.plain (a +:+ b) = Glob.plain a && Glob.plain b.
Proof.
  induction a as [|c a IH]; [done|].
  rewrite append_cons. cbn [Glob.plain]. by rewrite IH, andb_assoc.
Qed.

Lemma skipStars_no_star (x : ascii) (p : string) :
  Ascii.eqb x "*" = false → Glob.skipStars (String x p) = String x p.
Proof.
  intros Hx. destruct x as [[] [] [] [] [] [] [] []]; try reflexivity; discriminate Hx.
Qed.

(** After a run of [*] nothing is left of a pattern that starts with
    plain text only when that text is empty. *)
Lemma skipStars_plain_empty (prefix rest : string) :
  Glob.plain prefix = true →
  Glob.skipStars (prefix +:+ rest) = "" → prefix = "".
Proof.
  destruct prefix as [|x q]; [done|].
  rewrite append_cons. cbn [Glob.plain]. intros [Hx _]%andb_true_iff.
  apply negb_true_iff, special_false in Hx as (Hstar & _).
  by rewrite skipStars_no_star.
Qed.

(** One step of the matcher on a pattern that starts with a plain
    character. *)
Lemma matchFrom_plain_cons (fuel : nat) (x c : ascii) (p s : string) :
  Glob.special x = false →
  Glob.matchFrom (S fuel) (String x p) (String c s)
  = if Ascii.eqb x c
    then match s with
         | EmptyString => bool_decide (Glob.skipStars p = EmptyString)
         | String _ _ => Glob.matchFrom fuel p s
         end
    else false.
Proof.
  intros (Hstar & Hany & Hclass & Hescape)%special_false.
  cbn [Glob.matchFrom]. by rewrite Hstar, Hany, Hclass, Hescape.
Qed.

(** A pattern without special characters matches itself and nothing
    else. *)
Lemma matchFrom_plain (s p : string) (fuel : nat) :
  Glob.plain p = true → (String.length p < fuel)%nat →
  Glob.matchFrom fuel p s = bool_decide (p = s).
Proof.
  revert p fuel. induction s as [|c s IH]; intros p fuel Hplain Hfuel.
  { destruct fuel as [|fuel]; [lia|]. done. }
  destruct fuel as [|fuel]; [lia|].
  destruct p as [|x p].
  { by rewrite bool_decide_eq_false_2. }
  cbn [Glob.plain] in Hplain. apply andb_true_iff in Hplain as [Hx Hp].
  apply negb_true_iff in Hx.
  rewrite matchFrom_plain_cons by done.
  destruct (Ascii.eqb_spec x c) as [->|Hne].
  - destruct s as [|c' s'].
    + destruct p as [|y p'].
      * by rewrite !bool_decide_eq_true_2.
      * cbn [Glob.plain] in Hp. apply andb_true_iff in Hp as [Hy _].
        apply negb_true_iff, special_false in Hy as (Hstar & _).
        rewrite skipStars_no_star by done.
        by rewrite !bool_decide_eq_false_2.
    + rewrite IH by (done || (cbn [String.length] in Hfuel; lia)).
      apply bool_decide_ext. split; [by intros ->|by intros [= ->]].
  - rewrite bool_decide_eq_false_2; [done|]. by intros [= ? _].
Qed.

Lemma globMatch_plain (p s : string) :
  Glob.plain p = true → Glob.globMatch p s = bool_decide (p = s).
Proof.
  intros Hplain. unfold Glob.globMatch.
  rewrite bool_decide_eq_false_2 by (by intros ->).
  apply matchFrom_plain; [done|lia].
Qed.

(** A key matched by a pattern starts with the plain text the pattern
    starts with. *)
Lemma matchFrom_prefix (prefix rest s : string) (fuel : nat) :
  Glob.plain prefix = true →
  Glob.matchFrom fuel (prefix +:+ rest) s = true →
  startsWith s prefix = true.
Proof.
  revert s fuel. induction prefix as [|x q IH]; intros s fuel Hplain Hmatch.
  { by destruct s. }
  cbn [Glob.plain] in Hplain. apply andb_true_iff in Hplain as [Hx Hq].
  apply negb_true_iff in Hx.
  destruct fuel as [|fuel]; [by destruct s|].
  rewrite append_cons in Hmatch.
  destruct s as [|c s]; [done|].
  rewrite matchFrom_plain_cons in Hmatch by done.
  destruct (Ascii.eqb_spec x c) as [->|Hne]; [|done].
  assert (Htail : startsWith s q = true).
  { destruct s as [|c' s'].
    - apply bool_decide_eq_true in Hmatch.
      by rewrite (skipStars_plain_empty q rest Hq Hmatch).
    - by apply (IH _ fuel). }
  apply startsWith_inv in Htail as [t ->].
  change (String c (q +:+ t)) with (String c q +:+ t). apply startsWith_app.
Qed.

Lemma globMatch_prefix (prefix rest s : string) :
  Glob.plain prefix = true →
  Glob.globMatch (prefix +:+ rest) s = true →
  startsWith s prefix = true.
Proof.
  intros Hplain. unfold Glob.globMatch.
  destruct prefix as [|x q]; [by destruct s|].
  rewrite bool_decide_eq_false_2; [by apply matchFrom_prefix|].
  rewrite append_cons. intros [= -> _]. done.
Qed.

Lemma filter_eq_NoDup (k : string) (l : list string) :
  NoDup l → (length (filter (λ x, bool_decide (k = x) = true) l) ≤ 1)%nat.
Proof.
  induction 1 as [|x l' Hx Hl IH]; [cbn; lia|].
  rewrite filter_cons. case_decide as Hk; [|exact IH].
  apply bool_decide_eq_true in Hk as ->.
  rewrite filter_none; [cbn; lia|].
  apply Forall_forall. intros y Hy Heq.
  apply bool_decide_eq_true in Heq as ->. done.
Qed.

(** A pattern without special characters lists at most one key. *)
Lemma keys_plain (r : Redis) (k : string) :
  Glob.plain k = true → (length (keys r (Glob k)) ≤ 1)%nat.
Proof.
  intros Hplain. unfold keys.
  rewrite (list_filter_iff _ (λ x, bool_decide (k = x) = true)).
  - apply filter_eq_NoDup, NoDup_elements.
  - intros x. cbn [matches]. by rewrite globMatch_plain.
Qed.

Lemma length_omap {A B : Type} (f : A → option B) (l : list A) :
  (length (omap f l) ≤ length l)%nat.
Proof.
  induction l as [|x l' IH]; [done|].
  cbn [omap list_omap]. destruct (f x); cbn [length]; lia.
Qed.

(** With a plain key prefix, a pattern for one endpoint lists only keys
    of its family. *)
Lemma keys_glob_listed (cfg : EndpointUsageConfig) (r : Redis)
    (family endpoint key : string) :
  Glob.plain (keyPrefix cfg) = true → Glob.plain family = true →
  key ∈ keys r (Glob (keyPrefix cfg +:+ family +:+ endpoint)) →
  key ∈ keys r (Prefix (keyPrefix cfg +:+ family)).
Proof.
  intros Hprefix Hfamily. rewrite !elem_of_keys. cbn [matches].
  intros [Hmatch Hdom]. split; [|done].
  rewrite <- append_assoc in Hmatch.
  apply globMatch_prefix in Hmatch; [done|].
  by rewrite plain_app, Hprefix, Hfamily.
Qed.

(** X30.  With an empty method or an empty path a query is the full
    listing.  A query for one endpoint hands the key of the endpoint to
    the store as a pattern: when the key prefix of the configuration is
    plain text (no [*], [?], [[] or backslash) it returns only records
    that the full listing returns too, and when the normalised endpoint is
    plain text as well it returns at most one record.  This holds for
    [getEndpointStats] and for [getPerformanceStats]. *)
Theorem X30_query_one_endpoint (cfg : EndpointUsageConfig) (method path : string)
    (r : Redis) :
  getEndpointStats cfg (Some "") (Some path) r = getEndpointStats cfg None None r
  ∧ getEndpointStats cfg (Some method) (Some "") r = getEndpointStats cfg None None r
  ∧ getPerformanceStats cfg (Some "") (Some path) r = getPerformanceStats cfg None None r
  ∧ getPerformanceStats cfg (Some method) (Some "") r
    = getPerformanceStats cfg None None r
  ∧ (method ≠ "" → path ≠ "" → Glob.plain (keyPrefix cfg) = true →
     Forall (λ stat, stat ∈ getEndpointStats cfg None None r)
       (getEndpointStats cfg (Some method) (Some path) r)
     ∧ Forall (λ stat, stat ∈ getPerformanceStats cfg None None r)
         (getPerformanceStats cfg (Some method) (Some path) r)
     ∧ (Glob.plain (normalizeEndpoint cfg method path) = true →
        (length (getEndpointStats cfg (Some method) (Some path) r) ≤ 1)%nat
        ∧ (length (getPerformanceStats cfg (Some method) (Some path) r) ≤ 1)%nat)).
Proof.
  assert (Hempty : ∀ family m p,
            m = "" ∨ p = "" →
            keyPattern cfg family (Some m) (Some p) = keyPattern cfg family None None).
  { intros family m p Hmp. unfold keyPattern.
    rewrite bool_decide_eq_false_2; [done|]. tauto. }
  unfold getEndpointStats, getPerformanceStats.
  rewrite !(Hempty _ "" path), !(Hempty _ method "") by tauto.
  do 4 (split; [done|]).
  intros Hm Hp Hprefix.
  assert (Hexact : ∀ family,
            keyPattern cfg family (Some method) (Some path)
            = Glob (keyPrefix cfg +:+ family +:+ normalizeEndpoint cfg method path)).
  { intros family. unfold keyPattern. by rewrite bool_decide_eq_true_2. }
  rewrite !Hexact. split; [|split].
  - apply Forall_forall. intros stat Hin.
    apply sort_elem_of, list_elem_of_omap in Hin as (key & Hkey & Hstat).
    apply sort_elem_of, list_elem_of_omap. exists key. split; [|done].
    by eapply keys_glob_listed.
  - apply Forall_forall. intros stat Hin.
    apply sort_elem_of, list_elem_of_omap in Hin as (key & Hkey & Hstat).
    apply sort_elem_of, list_elem_of_omap. exists key. split; [|done].
    by eapply keys_glob_listed.
  - intros Hendpoint. split.
    + rewrite sort_length. etrans; [apply length_omap|apply keys_plain].
      by rewrite !plain_app, Hprefix, Hendpoint.
    + rewrite sort_length. etrans; [apply length_omap|apply keys_plain].
      by rewrite !plain_app, Hprefix, Hendpoint.
Qed.

Lemma X30_witness :
  "GET" ≠ "" ∧ "/health" ≠ ""
  ∧ Glob.plain (keyPrefix sampleConfig) = true
  ∧ Glob.plain (normalizeEndpoint sampleConfig "GET" "/health") = true
  ∧ (length (getEndpointStats sampleConfig (Some "GET") (Some "/health") healthStore)
     ≤ 1)%nat.
Proof.
  assert (Hm : "GET" ≠ "") by discriminate.
  assert (Hp : "/health" ≠ "") by discriminate.
  split; [exact Hm|]. split; [exact Hp|]. split; [reflexivity|]. split; [reflexivity|].
  destruct (X30_query_one_endpoint sampleConfig "GET" "/health" healthStore)
    as (_ & _ & _ & _ & H).
  exact (proj1 (proj2 (proj2 (H Hm Hp eq_refl)) eq_refl)).
Defined.

(** A path with a bracket expression or a star asks for several
    endpoints at once. *)
Example query_with_special_characters :
  let store :=
    trackAll sampleDate sampleConfig
      [ (60000, 60000, sampleRequest "/a" (Some 5));
        (70000, 70000, sampleRequest "/b" (Some 5));
        (80000, 80000, sampleRequest "/c" (Some 5)) ]
      emptyRedis in
  map (λ path, length (getEndpointStats sampleConfig (Some "GET") (Some path) store))
    ["/a"; "/[ab]"; "/*"; "/d"]
  = [1; 2; 3; 0]%nat.
Proof. vm_compute. reflexivity. Qed.
